(** * Resume optimizer backend: the asynchronous task pipeline

    A shallow embedding of
    - [services/orchestrator_service/app/core/optimizer.py] (module [Optimizer]),
    - [services/orchestrator_service/app/core/matcher.py]   (module [Matcher]),
    - [services/orchestrator_service/app/worker.py] with the [task_queue],
      [jobs] and [optimizations] tables of [db/models.py] (module [Worker]),
    - the job endpoints of [services/orchestrator_service/app/routers/jobs.py]
      with the queries of [db/repo.py] (modules [Jobs] and [Results]),
    - the providers of [libs/ai] (module [Providers]),
    and the properties of the pipeline stated over it.

    Conventions.
    - A Python [str] is the list of its Unicode code points ([pystr]).
    - A Python [float] is an IEEE binary64 number (Rocq's primitive [float]).
    - A Python [int] is a [Z].
    - An [Optional[T]] is an [option T]; a dictionary read with [.get] is a
      record of optional fields, or a [gmap] when it is looked up by key.
    - A call that may raise returns a [result]; the generation backend is an
      interface ([BaseLLMProvider]) over an arbitrary backend state. *)

From Stdlib Require Import ZArith NArith QArith List String Ascii Bool Lia Floats.
From Stdlib Require Import Reals Lra Permutation Sorted.

From stdpp Require Import base option list gmap.

Set Warnings "-inexact-float".

(** ** Python values *)

Abbreviation pystr := (list N).

(** [u "text"] is the Python literal ["text"] (ASCII only). *)
Definition u (s : string) : pystr :=
  List.map N_of_ascii (list_ascii_of_string s).

(** The double quote character, for literals that contain it. *)
Definition dq : pystr := [34%N].

(** Truth value of an [Optional[str]]: [None] and [""] are falsy. *)
Definition truthy (o : option pystr) : bool :=
  match o with
  | Some (_ :: _) => true
  | _ => false
  end.

(** [a or b] on two optional strings. *)
Definition py_or (a b : option pystr) : option pystr :=
  if truthy a then a else b.

(** [a or "literal"]. *)
Definition py_or_str (a : option pystr) (b : pystr) : pystr :=
  match a with
  | Some (c :: s) => c :: s
  | _ => b
  end.

(** [o is not None]. *)
Definition is_not_None {A} (o : option A) : bool :=
  match o with Some _ => true | None => false end.

(** [not s]: an empty string or list is falsy. *)
Definition is_empty {A} (s : list A) : bool :=
  match s with [] => true | _ => false end.

(** [sep.join(items)]. *)
Fixpoint join (sep : pystr) (items : list pystr) : pystr :=
  match items with
  | [] => []
  | [x] => x
  | x :: rest => x ++ sep ++ join sep rest
  end.

(** [range(n)]. *)
Definition range (n : nat) : list nat := seq 0 n.

(** Exceptions, by class; [str_exn] is [str(e)]. *)
Inductive exn : Type :=
  | ValidationError (msg : pystr)
  | ValueError (msg : pystr)
  | KeyError (key : pystr)
  | IntegrityError (msg : pystr)
  | Exception (msg : pystr).

Definition str_exn (e : exn) : pystr :=
  match e with
  | ValidationError msg | ValueError msg | IntegrityError msg | Exception msg => msg
  | KeyError key => u "'" ++ key ++ u "'"
  end.

(** The outcome of a call that may raise. *)
Inductive result (A : Type) : Type :=
  | Returns (a : A)
  | Raises (e : exn).
Arguments Returns {A} a.
Arguments Raises {A} e.

(** The part of the Unicode character database that [str.isalpha] and
    [str.strip] read. It belongs to the Python runtime, not to the
    repository, and is a parameter of the development. *)
Class UnicodeDB := {
  isalpha : N -> bool;
  isspace : N -> bool
}.

Section Str.
Context `{UnicodeDB}.

Fixpoint lstrip (s : pystr) : pystr :=
  match s with
  | c :: rest => if isspace c then lstrip rest else s
  | [] => []
  end.

Definition rstrip (s : pystr) : pystr := rev (lstrip (rev s)).

(** [s.strip()]. *)
Definition strip (s : pystr) : pystr := rstrip (lstrip s).
End Str.

(** A database that agrees with CPython on ASCII and on the Arabic letters
    U+0621..U+064A; every other code point is classified as neither. It is
    used to run the definitions on concrete texts made of such characters. *)
Definition in_range (lo hi ch : N) : bool := (lo <=? ch)%N && (ch <=? hi)%N.

Definition sample_isalpha (ch : N) : bool :=
  in_range 65 90 ch || in_range 97 122 ch || in_range 0x0621 0x064A ch.

Definition sample_isspace (ch : N) : bool :=
  in_range 9 13 ch || in_range 28 32 ch.

Definition sample_db : UnicodeDB :=
  {| isalpha := sample_isalpha; isspace := sample_isspace |}.

(** ** Floating point helpers (Python [int] to [float], [round(x, ndigits)]) *)

Definition float_of_Z (z : Z) : float :=
  if (z <? 0)%Z
  then PrimFloat.opp (PrimFloat.of_uint63 (Uint63.of_Z (- z)))
  else PrimFloat.of_uint63 (Uint63.of_Z z).

(** [float(len(l))]; exact below 2^53. *)
Definition float_of_len (n : nat) : float := float_of_Z (Z.of_nat n).

(** Nearest integer to [num / den] ([den > 0]), ties to even. *)
Definition round_half_even (num den : Z) : Z :=
  let q := (num / den)%Z in
  match (2 * (num mod den) ?= den)%Z with
  | Lt => q
  | Gt => (q + 1)%Z
  | Eq => if Z.even q then q else (q + 1)%Z
  end.

(** [round(x, ndigits)] on a float, [0 <= ndigits]: the exact binary value
    is rounded to [ndigits] decimals, ties to even, and the decimal is
    converted back to the nearest float (CPython's [double_round]). The
    conversion back is a single correctly rounded division as long as
    [|x| * 10^ndigits < 2^53]. Infinities, NaN and zeros are returned
    unchanged. *)
Definition py_round (x : float) (ndigits : Z) : float :=
  match Prim2SF x with
  | S754_finite s m e =>
      let p := (10 ^ ndigits)%Z in
      let n := if (0 <=? e)%Z
               then (Z.pos m * 2 ^ e * p)%Z
               else round_half_even (Z.pos m * p) (2 ^ (- e)) in
      let r := PrimFloat.div (float_of_Z n) (float_of_Z p) in
      if s then PrimFloat.opp r else r
  | _ => x
  end.


(** ** Response schemas ([optimizer.py], the pydantic models) *)

Module Schemas.

Record ExperienceItem := {
  role : pystr;
  company : pystr;
  duration : pystr;
  highlights : list pystr
}.

Record ContactInfo := {
  email : option pystr;
  phone : option pystr;
  linkedin : option pystr
}.

Record EvidenceItem := {
  source : pystr;
  snippet : pystr;
  note : pystr
}.

Record ExtractedEntities := {
  skills : list pystr;
  tools : list pystr;
  education : list pystr;
  experience : list ExperienceItem;
  contact : option ContactInfo
}.

Record AlignmentInsights := {
  matched : list pystr;
  missing : list pystr;
  weak : list pystr;
  evidence : list EvidenceItem
}.

Record OptimizationResultCore := {
  core_score : Z;
  core_missing_keywords : list pystr;
  core_covered_keywords : list pystr;
  core_change_log : list pystr;
  core_preview_markdown : pystr
}.

Record OptimizationResult := {
  score : Z;
  missing_keywords : list pystr;
  covered_keywords : list pystr;
  change_log : list pystr;
  preview_markdown : pystr;
  detected_resume_lang : option pystr;
  detected_jd_lang : option pystr;
  extracted_entities : option ExtractedEntities;
  alignment_insights : option AlignmentInsights
}.

Record ReliabilityMetrics := {
  invalid_json_attempts : Z;
  total_attempts : Z;
  latency_seconds : float;
  last_run_valid : bool
}.

(** [ReliabilityMetrics()]: the field defaults. *)
Definition ReliabilityMetrics_default : ReliabilityMetrics :=
  {| invalid_json_attempts := 0;
     total_attempts := 0;
     latency_seconds := 0.0;
     last_run_valid := true |}.

End Schemas.

(** ** The generation backend ([libs/ai/base.py]) *)

Module AI.
Import Schemas.

(** The [json_schema] argument: one of the three response models. *)
Inductive schema : Type :=
  | ExtractedEntitiesT
  | AlignmentInsightsT
  | OptimizationResultCoreT.

Record request := {
  system_prompt : pystr;
  user_prompt : pystr;
  json_schema : option schema;
  temperature : float
}.

(** What [generate_response] may hand back ([Union[str, BaseModel]], and
    since nothing checks it, any other object). *)
Inductive pyval : Type :=
  | VStr (s : pystr)
  | VEntities (e : ExtractedEntities)
  | VAlignment (a : AlignmentInsights)
  | VCore (c : OptimizationResultCore)
  | VOther.

(** [BaseLLMProvider]: the two abstract methods, over a backend state [S].
    [F] is the type of the numbers in an embedding. *)
Class BaseLLMProvider (F S : Type) := {
  generate_response : request -> S -> result pyval * S;
  get_embedding : pystr -> S -> result (list F) * S
}.

End AI.

(** ** The payload of an [optimize] task ([routers/jobs.py])

    The JSON document stored in [task_queue.payload], read with
    [payload.get(key)]: a field is [None] when the key is absent or null.
    When present, a value has the type the request schemas
    ([CreateJobRequest], [RefineJobRequest]) give it. *)

Module Payload.
Record t := {
  job_id : option pystr;
  user_id : option pystr;
  resume_id : option pystr;
  resume_version_id : option pystr;
  resume_text : option pystr;
  job_description : option pystr;
  instructions : option pystr;
  resume_lang : option pystr;
  resumeLang : option pystr;
  jd_lang : option pystr;
  jdLang : option pystr;
  desired_output_lang : option pystr;
  desiredOutputLang : option pystr;
  is_refinement : option bool
}.
End Payload.

(** ** The wall clock ([time.time()]), read from the external state [S] *)

Class Clock (S : Type) := {
  time_time : S -> float * S
}.

(** ** The optimization pipeline ([core/optimizer.py]) *)

Module Optimizer.
Import Schemas AI.

Definition MAX_RETRIES : nat := 3.

Definition LANGUAGE_LABELS : gmap pystr pystr :=
  {[ u "en" := u "English"; u "ar" := u "Arabic" ]}.

(** The character class of [ARABIC_LETTER_RE]. *)
Definition ARABIC_LETTER_RE (ch : N) : bool :=
  in_range 0x0600 0x06FF ch || in_range 0x0750 0x077F ch
  || in_range 0x08A0 0x08FF ch || in_range 0xFB50 0xFDFF ch
  || in_range 0xFE70 0xFEFF ch.

(** [re.findall] for a pattern that is one character class. *)
Definition findall (re : N -> bool) (text : pystr) : list N :=
  List.filter re text.

Definition nl : pystr := [10%N].

(** A text given line by line. *)
Definition lines (ls : list pystr) : pystr := join nl ls.

Definition language_name (code : option pystr) : pystr :=
  default (u "English") (LANGUAGE_LABELS !! py_or_str code []).

(** The f-string returned by [build_language_instructions], as a function
    of the three labels it interpolates. *)
Definition language_block (resume_label jd_label target_label : pystr) : pystr :=
  lines [
    u "Language context:";
    u "- Resume language: " ++ resume_label;
    u "- Job description language: " ++ jd_label;
    u "- Desired output language: " ++ target_label;
    [];
    u "Rules:";
    u "- preview_markdown MUST be written in " ++ target_label ++ u ".";
    u "- If the resume or job description is in a different language, translate the content into "
      ++ target_label ++ u ".";
    u "- Keep proper nouns (company names, product names, certifications) in their original language.";
    u "- If preserving ATS keywords helps, you may keep the original keyword in parentheses."
  ].

(** [desired_output_lang or resume_lang or "en"]. *)
Definition target_language (desired_output_lang resume_lang : option pystr) : pystr :=
  py_or_str (py_or desired_output_lang resume_lang) (u "en").

Definition build_language_instructions
    (resume_lang jd_lang desired_output_lang : option pystr) : pystr :=
  let target_lang := target_language desired_output_lang resume_lang in
  let resume_label := language_name resume_lang in
  let jd_label := language_name jd_lang in
  let target_label := language_name (Some target_lang) in
  language_block resume_label jd_label target_label.

Section Text.
Context `{UnicodeDB}.

Definition arabic_ratio (text : pystr) : float :=
  let letters := List.filter isalpha text in
  if is_empty letters then 0.0%float
  else
    let arabic_letters := findall ARABIC_LETTER_RE text in
    PrimFloat.div (float_of_len (length arabic_letters))
                  (float_of_len (length letters)).

Definition needs_translation (text target_lang : pystr) : bool :=
  if is_empty (strip text) then false
  else if bool_decide (target_lang = u "ar") then
    PrimFloat.ltb (arabic_ratio text) 0.15
  else if bool_decide (target_lang = u "en") then
    PrimFloat.ltb 0.15 (arabic_ratio text)
  else false.
End Text.

(** *** The optimizer object and its methods

    [world] is the state of everything outside the process (the backend
    and the clock); [metrics] is [self.metrics]; [calls] is a log of the
    generation calls issued so far with their outcomes, kept so that
    properties can count them. *)

Section Pipeline.
Context `{UnicodeDB} {S : Type} `{BaseLLMProvider float S} `{Clock S}.

Record ResumeOptimizer := {
  world : S;
  metrics : ReliabilityMetrics;
  calls : list (request * result pyval)
}.

(** [ResumeOptimizer(llm_provider)]. *)
Definition init (s : S) : ResumeOptimizer :=
  {| world := s; metrics := ReliabilityMetrics_default; calls := [] |}.

Definition M (A : Type) : Type := ResumeOptimizer -> A * ResumeOptimizer.

Definition ret {A} (a : A) : M A := fun o => (a, o).

Definition bind {A B} (c : M A) (k : A -> M B) : M B :=
  fun o => let '(a, o') := c o in k a o'.

Notation "x <- c ;; k" := (bind c (fun x => k))
  (at level 100, c at next level, right associativity).
Notation "c ;; k" := (bind c (fun _ => k))
  (at level 100, right associativity).

(** [await self.llm.generate_response(...)]. *)
Definition call_generate (req : request) : M (result pyval) :=
  fun o =>
    let '(r, s) := generate_response req (world o) in
    (r, {| world := s; metrics := metrics o; calls := calls o ++ [(req, r)] |}).

Definition now : M float :=
  fun o =>
    let '(t, s) := time_time (world o) in
    (t, {| world := s; metrics := metrics o; calls := calls o |}).

Definition get_metrics : M ReliabilityMetrics := fun o => (metrics o, o).

Definition set_metrics (m : ReliabilityMetrics) : M unit :=
  fun o => (tt, {| world := world o; metrics := m; calls := calls o |}).

(** [self.metrics.invalid_json_attempts += 1]. *)
Definition incr_invalid_json_attempts : M unit :=
  m <- get_metrics ;;
  set_metrics {| invalid_json_attempts := invalid_json_attempts m + 1;
                 total_attempts := total_attempts m;
                 latency_seconds := latency_seconds m;
                 last_run_valid := last_run_valid m |}.

(** [self.metrics.total_attempts += 1]. *)
Definition incr_total_attempts : M unit :=
  m <- get_metrics ;;
  set_metrics {| invalid_json_attempts := invalid_json_attempts m;
                 total_attempts := total_attempts m + 1;
                 latency_seconds := latency_seconds m;
                 last_run_valid := last_run_valid m |}.

Definition set_latency_seconds (x : float) : M unit :=
  m <- get_metrics ;;
  set_metrics {| invalid_json_attempts := invalid_json_attempts m;
                 total_attempts := total_attempts m;
                 latency_seconds := x;
                 last_run_valid := last_run_valid m |}.

Definition set_last_run_valid (b : bool) : M unit :=
  m <- get_metrics ;;
  set_metrics {| invalid_json_attempts := invalid_json_attempts m;
                 total_attempts := total_attempts m;
                 latency_seconds := latency_seconds m;
                 last_run_valid := b |}.

Definition translate_request (text target_lang : pystr) : request :=
  let target_label := language_name (Some target_lang) in
  {| system_prompt := lines [
       u "You are a professional translator.";
       u "Translate the resume into " ++ target_label ++ u ".";
       [];
       u "Rules:";
       u "- Preserve Markdown formatting and headings.";
       u "- Keep names, emails, URLs, and proper nouns as-is.";
       u "- Output ONLY the translated Markdown." ];
     user_prompt := text;
     json_schema := None;
     temperature := 0.2 |}.

Definition translate_markdown (text target_lang : pystr) : M (result pystr) :=
  translated <- call_generate (translate_request text target_lang) ;;
  match translated with
  | Returns (VStr t) => ret (Returns (strip t))
  | Returns _ => ret (Returns text)
  | Raises e => ret (Raises e)
  end.

Definition extract_entities_request (resume_text : pystr) : request :=
  {| system_prompt := lines [
       u "You are a resume parser. Extract structured information from the resume.";
       [];
       u "Return JSON with ALL of these fields (use empty list [] if not found):";
       u "- skills: list of technical and soft skills (required, use [] if none)";
       u "- tools: list of tools/technologies mentioned (required, use [] if none)";
       u "- education: list of degrees/certifications (required, use [] if none)";
       u "- experience: list of {role, company, duration, highlights} (required, use [] if none)";
       u "- contact: {email, phone, linkedin} or null if not found";
       [];
       u "IMPORTANT: Always include all fields in your response, even if empty. Be thorough but concise." ];
     user_prompt := resume_text;
     json_schema := Some ExtractedEntitiesT;
     temperature := 0.3 |}.

(** The body of [for attempt in range(MAX_RETRIES)] in
    [extract_entities]; [None] when the loop runs to its end. *)
Fixpoint extract_entities_loop (attempts : list nat) (req : request)
    : M (option ExtractedEntities) :=
  match attempts with
  | [] => ret None
  | _ :: rest =>
      r <- call_generate req ;;
      match r with
      | Returns (VEntities e) => ret (Some e)
      | Returns _ => extract_entities_loop rest req
      | Raises _ =>
          incr_invalid_json_attempts ;;
          extract_entities_loop rest req
      end
  end.

Definition empty_entities : ExtractedEntities :=
  {| skills := []; tools := []; education := []; experience := [];
     contact := None |}.

Definition extract_entities (resume_text : pystr) : M ExtractedEntities :=
  r <- extract_entities_loop (range MAX_RETRIES)
         (extract_entities_request resume_text) ;;
  match r with
  | Some e => ret e
  | None => ret empty_entities
  end.

Definition analyze_alignment_request
    (job_description : pystr) (entities : ExtractedEntities) : request :=
  {| system_prompt := lines [
       u "You are a resume-job matcher. Analyze alignment between resume and job description.";
       [];
       u "Return JSON with ALL of these fields (use empty list [] if none):";
       u "- matched: skills/requirements that both resume and job have (required, use [] if none)";
       u "- missing: requirements in job that resume lacks (required, use [] if none)";
       u "- weak: areas where resume partially matches but needs improvement (required, use [] if none)";
       u "- evidence: list of {source: " ++ dq ++ u "resume" ++ dq ++ u "|" ++ dq ++ u "job" ++ dq
         ++ u ", snippet: " ++ dq ++ u "..." ++ dq ++ u ", note: " ++ dq ++ u "explanation" ++ dq
         ++ u "} (required, use [] if none)";
       [];
       u "IMPORTANT: Always include all fields in your response. Focus on concrete, actionable insights." ];
     user_prompt := lines [
       u "Resume Skills: " ++ join (u ", ") (skills entities ++ tools entities);
       [];
       u "Job Description:";
       job_description ];
     json_schema := Some AlignmentInsightsT;
     temperature := 0.3 |}.

Fixpoint analyze_alignment_loop (attempts : list nat) (req : request)
    : M (option AlignmentInsights) :=
  match attempts with
  | [] => ret None
  | _ :: rest =>
      r <- call_generate req ;;
      match r with
      | Returns (VAlignment a) => ret (Some a)
      | Returns _ => analyze_alignment_loop rest req
      | Raises _ =>
          incr_invalid_json_attempts ;;
          analyze_alignment_loop rest req
      end
  end.

Definition empty_alignment : AlignmentInsights :=
  {| matched := []; missing := []; weak := []; evidence := [] |}.

Definition analyze_alignment
    (resume_text job_description : pystr) (entities : ExtractedEntities)
    : M AlignmentInsights :=
  r <- analyze_alignment_loop (range MAX_RETRIES)
         (analyze_alignment_request job_description entities) ;;
  match r with
  | Some a => ret a
  | None => ret empty_alignment
  end.

Definition optimize_request
    (language_instructions resume_text job_description : pystr)
    (instructions : option pystr) : request :=
  {| system_prompt := lines [
       u "You are an expert resume optimization assistant.";
       u "Analyze the resume against the job description and provide ALL of the following:";
       u "1. score: A match score from 0-100 (integer, required)";
       u "2. missing_keywords: Keywords from JD missing in resume (list of strings, required - use [] if none)";
       u "3. covered_keywords: Keywords from JD already in resume (list of strings, required - use [] if none)";
       u "4. change_log: Specific changes to make (list of strings, required - use [] if none)";
       u "5. preview_markdown: An improved resume in Markdown format (string, required)";
       [];
       u "IMPORTANT: Always include ALL 5 fields in your response. Respond in valid JSON format.";
       [];
       language_instructions ];
     user_prompt := lines [
       u "Resume:";
       resume_text;
       [];
       u "Job Description:";
       job_description;
       [];
       u "Additional Instructions:";
       py_or_str instructions (u "None") ];
     json_schema := Some OptimizationResultCoreT;
     temperature := 0.5 |}.

(** The retry loop of step 3; it ends at the first [break]. *)
Fixpoint optimize_loop (attempts : list nat) (req : request)
    : M (option OptimizationResultCore) :=
  match attempts with
  | [] => ret None
  | _ :: rest =>
      incr_total_attempts ;;
      r <- call_generate req ;;
      match r with
      | Returns (VCore c) => ret (Some c)
      | Returns _ => optimize_loop rest req
      | Raises _ =>
          incr_invalid_json_attempts ;;
          optimize_loop rest req
      end
  end.

Definition failure_change_log : list pystr :=
  [u "Error: Failed to parse LLM response after retries"].

Definition optimize (payload : Payload.t)
    : M (OptimizationResult * ReliabilityMetrics) :=
  start_time <- now ;;
  set_metrics ReliabilityMetrics_default ;;
  let resume_text := default [] (Payload.resume_text payload) in
  let job_description := default [] (Payload.job_description payload) in
  let instructions := Payload.instructions payload in
  let resume_lang := py_or (Payload.resume_lang payload) (Payload.resumeLang payload) in
  let jd_lang := py_or (Payload.jd_lang payload) (Payload.jdLang payload) in
  let desired_output_lang :=
    py_or (Payload.desired_output_lang payload) (Payload.desiredOutputLang payload) in
  let language_instructions :=
    build_language_instructions resume_lang jd_lang desired_output_lang in
  (* Step 1: Extract entities *)
  entities <- extract_entities resume_text ;;
  (* Step 2: Analyze alignment *)
  alignment <- analyze_alignment resume_text job_description entities ;;
  (* Step 3: Generate optimized resume *)
  core_result <- optimize_loop (range MAX_RETRIES)
                   (optimize_request language_instructions resume_text
                      job_description instructions) ;;
  (* Calculate metrics *)
  end_time <- now ;;
  set_latency_seconds (py_round (PrimFloat.sub end_time start_time) 2) ;;
  set_last_run_valid (is_not_None core_result) ;;
  (* Build full result from core + entities + alignment *)
  result <-
    match core_result with
    | Some core =>
        let target_lang := target_language desired_output_lang resume_lang in
        let preview_markdown := core_preview_markdown core in
        preview_markdown <-
          (if needs_translation preview_markdown target_lang then
             t <- translate_markdown preview_markdown target_lang ;;
             match t with
             | Returns translated => ret translated
             | Raises _ => ret preview_markdown
             end
           else ret preview_markdown) ;;
        ret {| score := core_score core;
               missing_keywords := core_missing_keywords core;
               covered_keywords := core_covered_keywords core;
               change_log := core_change_log core;
               preview_markdown := preview_markdown;
               detected_resume_lang := None;
               detected_jd_lang := None;
               extracted_entities := Some entities;
               alignment_insights := Some alignment |}
    | None =>
        ret {| score := 0;
               missing_keywords := [];
               covered_keywords := [];
               change_log := failure_change_log;
               preview_markdown := resume_text;
               detected_resume_lang := None;
               detected_jd_lang := None;
               extracted_entities := Some entities;
               alignment_insights := Some alignment |}
    end ;;
  m <- get_metrics ;;
  ret (result, m).
End Pipeline.
End Optimizer.

(** ** [list.sort(key=..., reverse=...)]

    Python's sort is stable and compares keys with [<] only. With
    [reverse=True] CPython reverses the list, sorts it, and reverses the
    outcome, which keeps equal keys in their original order. *)

Section ListSort.
Context {A K : Type} (ltb : K -> K -> bool) (key : A -> K).

(** Put [x] in front of the first element whose key is not below its own. *)
Fixpoint insort (x : A) (l : list A) : list A :=
  match l with
  | [] => [x]
  | y :: l' => if ltb (key y) (key x) then y :: insort x l' else x :: l
  end.

Fixpoint sort_asc (l : list A) : list A :=
  match l with
  | [] => []
  | x :: l' => insort x (sort_asc l')
  end.

Definition list_sort (reverse : bool) (l : list A) : list A :=
  if reverse then rev (sort_asc (rev l)) else sort_asc l.
End ListSort.

(** ** Numbers of the similarity scorer

    [matcher.py] computes on NumPy float64 values. The scorer is written
    over a signature of the operations it uses, so that it can be read with
    IEEE binary64 arithmetic (instance [float_arith], which evaluates) and
    with exact real arithmetic (instance [real_arith], in which the
    weighted-sum law of the overall score is stated). Python's [int]
    constants [0] and [100] are taken in the same type. *)

Class Arith (F : Type) := {
  of_Q : Q -> F;                 (* a decimal or integer literal *)
  fadd : F -> F -> F;
  fmul : F -> F -> F;
  fdiv : F -> F -> F;
  fsqrt : F -> F;
  feqb : F -> F -> bool;         (* [==] *)
  fltb : F -> F -> bool;         (* [<] *)
  fround : F -> Z -> F           (* [round(x, ndigits)] *)
}.

#[export] Instance float_arith : Arith float := {
  of_Q q := PrimFloat.div (float_of_Z (Qnum q)) (float_of_Z (Z.pos (Qden q)));
  fadd := PrimFloat.add;
  fmul := PrimFloat.mul;
  fdiv := PrimFloat.div;
  fsqrt := PrimFloat.sqrt;
  feqb := PrimFloat.eqb;
  fltb := PrimFloat.ltb;
  fround := py_round
}.

(** [round(x, ndigits)] on an exact real: nearest multiple of
    [10^-ndigits], ties to even. *)
Definition real_round (x : R) (ndigits : Z) : R :=
  let p := IZR (10 ^ ndigits) in
  let y := (x * p)%R in
  let n := Int_part y in
  let f := frac_part y in
  if Rlt_dec f (1 / 2) then (IZR n / p)%R
  else if Rlt_dec (1 / 2) f then (IZR (n + 1) / p)%R
  else (IZR (if Z.even n then n else n + 1) / p)%R.

#[export] Instance real_arith : Arith R := {
  of_Q := Q2R;
  fadd := Rplus;
  fmul := Rmult;
  fdiv := Rdiv;
  fsqrt := sqrt;
  feqb x y := if Req_dec_T x y then true else false;
  fltb x y := if Rlt_dec x y then true else false;
  fround := real_round
}.

(** ** The similarity scorer ([core/matcher.py]) *)

Module Matcher.
Import AI.

Section Scorer.
Context `{UnicodeDB} {F : Type} `{Arith F} {S : Type} `{BaseLLMProvider F S}.

(** [np.dot(a, b)] on one-dimensional arrays: [ValueError] when the
    shapes differ, else the sum of the products. *)
Definition np_dot (a b : list F) : result F :=
  if bool_decide (length a = length b) then
    Returns (fold_left (fun acc xy => fadd acc (fmul (fst xy) (snd xy)))
               (combine a b) (of_Q 0))
  else Raises (ValueError (u "shapes not aligned")).

(** [np.linalg.norm(a)] on a one-dimensional array: [sqrt(a.dot(a))]. *)
Definition np_linalg_norm (a : list F) : F :=
  fsqrt (fold_left (fun acc x => fadd acc (fmul x x)) a (of_Q 0)).

Definition cosine_similarity (vec_a vec_b : list F) : result F :=
  let a := vec_a in
  let b := vec_b in
  match np_dot a b with
  | Raises e => Raises e
  | Returns dot_product =>
      let norm_a := np_linalg_norm a in
      let norm_b := np_linalg_norm b in
      if feqb norm_a (of_Q 0) || feqb norm_b (of_Q 0) then Returns (of_Q 0)
      else Returns (fdiv dot_product (fmul norm_a norm_b))
  end.

(** [ResumeMatcher.WEIGHTS]; a dictionary iterates in insertion order. *)
Definition WEIGHTS : list (pystr * F) :=
  [ (u "skills", of_Q 0.50);
    (u "experience", of_Q 0.30);
    (u "education", of_Q 0.20) ].

(** [d[key]] for a key that is present. *)
Fixpoint getitem (d : list (pystr * F)) (key : pystr) : F :=
  match d with
  | (k, v) :: rest => if bool_decide (k = key) then v else getitem rest key
  | [] => of_Q 0
  end.

(** State of the backend threaded through, exceptions propagated. *)
Definition M (A : Type) : Type := S -> result A * S.

Definition ret {A} (a : A) : M A := fun s => (Returns a, s).

Definition raise {A} (e : exn) : M A := fun s => (Raises e, s).

Definition bind {A B} (c : M A) (k : A -> M B) : M B :=
  fun s =>
    match c s with
    | (Returns a, s') => k a s'
    | (Raises e, s') => (Raises e, s')
    end.

Notation "x <- c ;; k" := (bind c (fun x => k))
  (at level 100, c at next level, right associativity).

Definition lift {A} (r : result A) : M A := fun s => (r, s).

(** [ResumeMatcher.get_embedding]. *)
Definition get_embedding (text : pystr) : M (list F) :=
  if is_empty (strip text) then ret []
  else
    fun s =>
      match AI.get_embedding text s with
      | (Returns embedding, s') => (Returns embedding, s')
      | (Raises _, s') => (Returns [], s')
      end.

Record Breakdown := {
  skills_weight : F;
  experience_weight : F;
  education_weight : F
}.

(** The dictionary returned by [calculate_match_score]. *)
Record MatchScore := {
  overall_score : F;
  skills_score : F;
  experience_score : F;
  education_score : F;
  error : option pystr;
  breakdown : option Breakdown
}.

Definition calculate_match_score
    (resume_skills resume_experience resume_education : list pystr)
    (job_description : pystr) : M MatchScore :=
  (* Concatenate resume sections for embedding *)
  let skills_text :=
    if is_empty resume_skills then [] else join (u ", ") resume_skills in
  let experience_text :=
    if is_empty resume_experience then [] else join (u " | ") resume_experience in
  let education_text :=
    if is_empty resume_education then [] else join (u ", ") resume_education in
  (* Get embeddings *)
  job_embedding <- get_embedding job_description ;;
  if is_empty job_embedding then
    ret {| overall_score := of_Q 0;
           skills_score := of_Q 0;
           experience_score := of_Q 0;
           education_score := of_Q 0;
           error := Some (u "Failed to compute embeddings");
           breakdown := None |}
  else
    (* Calculate similarity for each component *)
    skills <-
      (if is_empty skills_text then ret (of_Q 0)
       else
         skills_embedding <- get_embedding skills_text ;;
         if is_empty skills_embedding then ret (of_Q 0)
         else lift (cosine_similarity job_embedding skills_embedding)) ;;
    experience <-
      (if is_empty experience_text then ret (of_Q 0)
       else
         exp_embedding <- get_embedding experience_text ;;
         if is_empty exp_embedding then ret (of_Q 0)
         else lift (cosine_similarity job_embedding exp_embedding)) ;;
    education <-
      (if is_empty education_text then ret (of_Q 0)
       else
         edu_embedding <- get_embedding education_text ;;
         if is_empty edu_embedding then ret (of_Q 0)
         else lift (cosine_similarity job_embedding edu_embedding)) ;;
    let scores :=
      [ (u "skills", skills); (u "experience", experience);
        (u "education", education) ] in
    (* Calculate weighted overall score (convert to 0-100 scale) *)
    let overall :=
      fold_left
        (fun acc kw =>
           fadd acc (fmul (fmul (getitem scores (fst kw)) (getitem WEIGHTS (fst kw)))
                       (of_Q 100)))
        WEIGHTS (of_Q 0) in
    ret {| overall_score := fround overall 1;
           skills_score := fround (fmul (getitem scores (u "skills")) (of_Q 100)) 1;
           experience_score := fround (fmul (getitem scores (u "experience")) (of_Q 100)) 1;
           education_score := fround (fmul (getitem scores (u "education")) (of_Q 100)) 1;
           error := None;
           breakdown := Some {| skills_weight := getitem WEIGHTS (u "skills");
                                experience_weight := getitem WEIGHTS (u "experience");
                                education_weight := getitem WEIGHTS (u "education") |} |}.

(** An entry of [candidates], read with [candidate.get(key, default)]. *)
Record Candidate := {
  c_id : option pystr;
  c_name : option pystr;
  c_skills : option (list pystr);
  c_experience : option (list pystr);
  c_education : option (list pystr)
}.

(** An entry of the ranking: [{"id": ..., "name": ..., **score_data}]. *)
Record Ranked := {
  id : option pystr;
  name : pystr;
  score_data : MatchScore
}.

(** The [for candidate in candidates] loop, [results] being the list
    built so far. *)
Fixpoint rank_loop (candidates : list Candidate) (job_description : pystr)
    (results : list Ranked) : M (list Ranked) :=
  match candidates with
  | [] => ret results
  | candidate :: rest =>
      score_data <- calculate_match_score
                      (default [] (c_skills candidate))
                      (default [] (c_experience candidate))
                      (default [] (c_education candidate))
                      job_description ;;
      rank_loop rest job_description
        (results ++ [ {| id := c_id candidate;
                         name := default (u "Unknown") (c_name candidate);
                         score_data := score_data |} ])
  end.

Definition rank_candidates (candidates : list Candidate) (job_description : pystr)
    : M (list Ranked) :=
  results <- rank_loop candidates job_description [] ;;
  (* Sort by overall score descending *)
  ret (list_sort fltb (fun x => overall_score (score_data x)) true results).
End Scorer.
End Matcher.

(** ** The task queue and the worker ([db/models.py], [db/repo.py], [worker.py]) *)

Module JobStatusEnum.
Inductive t : Type := queued | processing | complete | failed.
#[global] Instance eq_dec : EqDecision t.
Proof. solve_decision. Defined.
End JobStatusEnum.

Module TaskTypeEnum.
Inductive t : Type := optimize | embed_resume | embed_job.
#[global] Instance eq_dec : EqDecision t.
Proof. solve_decision. Defined.
End TaskTypeEnum.

Module TaskStatusEnum.
Inductive t : Type := queued | processing | complete | failed.
#[global] Instance eq_dec : EqDecision t.
Proof. solve_decision. Defined.
End TaskStatusEnum.

(** A row of [task_queue], without its primary key [id] (the key of the
    table below) and without [updated_at], which the database maintains and
    no code reads. [created_at] is a point in time. *)
Module TaskQueue.
Record t := {
  task_type : TaskTypeEnum.t;
  payload : Payload.t;
  status : TaskStatusEnum.t;
  attempts : Z;
  last_error : option pystr;
  created_at : Z
}.
End TaskQueue.

(** A row of [optimizations], as [create_optimization] fills it. *)
Module Optimization.
Record t := {
  user_id : pystr;
  resume_id : option pystr;
  resume_version_id : option pystr;
  job_id : pystr;
  score : Z;
  report_json : Schemas.OptimizationResult * Schemas.ReliabilityMetrics;
  preview_md : pystr;
  change_log : list pystr
}.
End Optimization.

Module Worker.
Import Schemas AI.

(** The tables the worker touches. Of a job only its status is kept; of
    resumes and resume versions only their keys, for the foreign keys of
    [optimizations]. *)
Record Tables := {
  task_queue : gmap pystr TaskQueue.t;
  jobs : gmap pystr JobStatusEnum.t;
  optimizations : list Optimization.t;
  resumes : gset pystr;
  resume_versions : gset pystr
}.

(** A database session: what is committed, and what the open transaction
    sees. *)
Record Session := {
  committed : Tables;
  pending : Tables
}.

(** [get_async_db()]: a fresh session. *)
Definition get_async_db (db : Tables) : Session :=
  {| committed := db; pending := db |}.

Definition commit (s : Session) : Session :=
  {| committed := pending s; pending := pending s |}.

Definition rollback (s : Session) : Session :=
  {| committed := committed s; pending := committed s |}.

Definition with_task_queue (tq : gmap pystr TaskQueue.t) (t : Tables) : Tables :=
  {| task_queue := tq; jobs := jobs t; optimizations := optimizations t;
     resumes := resumes t; resume_versions := resume_versions t |}.

(** Write a row of [task_queue] in the open transaction. *)
Definition put_task (task_id : pystr) (row : TaskQueue.t) (s : Session) : Session :=
  {| committed := committed s;
     pending := with_task_queue (<[task_id := row]> (task_queue (pending s))) (pending s) |}.

(** [Repository.enqueue_task]: the server defaults fill [status],
    [attempts] and [last_error]; the key [new_id] ([gen_random_uuid()]) and
    the time [now] ([func.now()]) come from the database. *)
Definition enqueue_task (new_id : pystr) (now : Z)
    (task_type : TaskTypeEnum.t) (payload : Payload.t) (s : Session) : Session :=
  put_task new_id
    {| TaskQueue.task_type := task_type; TaskQueue.payload := payload;
       TaskQueue.status := TaskStatusEnum.queued; TaskQueue.attempts := 0; TaskQueue.last_error := None;
       TaskQueue.created_at := now |} s.

(** A foreign key that may be null. *)
Definition fk_ok (key : option pystr) (table : gset pystr) : bool :=
  match key with
  | None => true
  | Some k => bool_decide (k ∈ table)
  end.

(** [Repository.create_optimization]: the flush raises when a foreign key
    of the new row points nowhere. *)
Definition create_optimization (row : Optimization.t) (s : Session) : result Session :=
  let t := pending s in
  if bool_decide (is_Some (jobs t !! Optimization.job_id row))
     && fk_ok (Optimization.resume_id row) (resumes t)
     && fk_ok (Optimization.resume_version_id row) (resume_versions t)
  then
    Returns {| committed := committed s;
               pending := {| task_queue := task_queue t; jobs := jobs t;
                             optimizations := optimizations t ++ [row];
                             resumes := resumes t;
                             resume_versions := resume_versions t |} |}
  else Raises (IntegrityError (u "foreign key violation")).

(** [Repository.update_job_status]: an [UPDATE ... WHERE id = job_id]. *)
Definition update_job_status (job_id : pystr) (st : JobStatusEnum.t) (s : Session) : Session :=
  let t := pending s in
  {| committed := committed s;
     pending := {| task_queue := task_queue t;
                   jobs := alter (fun _ => st) job_id (jobs t);
                   optimizations := optimizations t;
                   resumes := resumes t;
                   resume_versions := resume_versions t |} |}.

(** The older of two rows, the first one on a tie. *)
Definition older (a b : pystr * TaskQueue.t) : pystr * TaskQueue.t :=
  if (TaskQueue.created_at (snd a) <=? TaskQueue.created_at (snd b))%Z then a else b.

(** [ORDER BY created_at LIMIT 1]. *)
Fixpoint first_by_created_at (rows : list (pystr * TaskQueue.t)) : option (pystr * TaskQueue.t) :=
  match rows with
  | [] => None
  | r :: rest =>
      match first_by_created_at rest with
      | None => Some r
      | Some b => Some (older r b)
      end
  end.

Definition is_queued_optimize (r : pystr * TaskQueue.t) : bool :=
  bool_decide (TaskQueue.status (snd r) = TaskStatusEnum.queued)
  && bool_decide (TaskQueue.task_type (snd r) = TaskTypeEnum.optimize).

(** The polling query of [run_worker], with [scalar_one_or_none()]. *)
Definition stmt (tq : gmap pystr TaskQueue.t) : option (pystr * TaskQueue.t) :=
  first_by_created_at (List.filter is_queued_optimize (map_to_list tq)).

(** The dictionary [task] handed to [process_task]. *)
Record Task := {
  t_id : pystr;
  t_payload : Payload.t;
  t_attempts : Z
}.

(** [settings.ENVIRONMENT == "development" and 2 or 5]. *)
Definition poll_interval (environment : pystr) : Z :=
  if bool_decide (environment = u "development") then 2 else 5.

Section Loop.
Context `{UnicodeDB} {S : Type} `{BaseLLMProvider float S} `{Clock S}.

Abbreviation ResumeOptimizer := (@Optimizer.ResumeOptimizer S).

(** The [try] block of [process_task]. *)
Definition process_task_try (payload : Payload.t)
    (optimizer : ResumeOptimizer) (db_session : Session)
    : result Session * ResumeOptimizer :=
  (* Run optimization pipeline (returns result + metrics) *)
  let '((result, metrics), optimizer) := Optimizer.optimize payload optimizer in
  match Payload.job_id payload with
  | None => (Raises (KeyError (u "job_id")), optimizer)
  | Some job_id =>
  match Payload.user_id payload with
  | None => (Raises (KeyError (u "user_id")), optimizer)
  | Some user_id =>
      (* Build full report including metrics *)
      let report_json := (result, metrics) in
      (* Create optimization record *)
      match create_optimization
              {| Optimization.user_id := user_id;
                 Optimization.resume_id := py_or (Payload.resume_id payload) None;
                 Optimization.resume_version_id := py_or (Payload.resume_version_id payload) None;
                 Optimization.job_id := job_id;
                 Optimization.score := Schemas.score result;
                 Optimization.report_json := report_json;
                 Optimization.preview_md := Schemas.preview_markdown result;
                 Optimization.change_log := Schemas.change_log result |}
              db_session with
      | Raises e => (Raises e, optimizer)
      | Returns db_session =>
          let db_session := update_job_status job_id JobStatusEnum.complete db_session in
          (Returns (commit db_session), optimizer)
      end
  end
  end.

Definition process_task (task : Task) (optimizer : ResumeOptimizer)
    (db_session : Session) : ResumeOptimizer * Session :=
  let task_id := t_id task in
  let payload := t_payload task in
  match process_task_try payload optimizer db_session with
  | (Returns db_session, optimizer) => (optimizer, db_session)
  | (Raises e, optimizer) =>
      let db_session := rollback db_session in
      (* Mark task as failed *)
      match task_queue (pending db_session) !! task_id with
      | Some task_row =>
          (optimizer,
           commit (put_task task_id
                     {| TaskQueue.task_type := TaskQueue.task_type task_row;
                        TaskQueue.payload := TaskQueue.payload task_row;
                        TaskQueue.status := TaskStatusEnum.failed;
                        TaskQueue.attempts := TaskQueue.attempts task_row;
                        TaskQueue.last_error := Some (str_exn e);
                        TaskQueue.created_at := TaskQueue.created_at task_row |} db_session))
      | None => (optimizer, db_session)
      end
  end.

(** What one turn of the [while True] loop did. *)
Inductive Turn : Type :=
  | Processed (task : Task)
  | Slept (seconds : Z).

Record Worker := {
  optimizer : ResumeOptimizer;
  db : Tables
}.

(** The claim: the row found by the query is marked as processing and its
    attempts are counted up; [None] when the queue has no work. *)
Definition claim (db_session : Session) : option (Task * Session) :=
  match stmt (task_queue (pending db_session)) with
  | Some (row_id, task_row) =>
      let task := {| t_id := row_id;
                     t_payload := TaskQueue.payload task_row;
                     t_attempts := TaskQueue.attempts task_row |} in
      (* Mark as processing *)
      Some (task,
            commit (put_task row_id
                      {| TaskQueue.task_type := TaskQueue.task_type task_row;
                         TaskQueue.payload := TaskQueue.payload task_row;
                         TaskQueue.status := TaskStatusEnum.processing;
                         TaskQueue.attempts := TaskQueue.attempts task_row + 1;
                         TaskQueue.last_error := TaskQueue.last_error task_row;
                         TaskQueue.created_at := TaskQueue.created_at task_row |} db_session))
  | None => None
  end.

(** One turn of the loop of [run_worker]. The statements of the loop body
    are taken to go through: cancellation of the loop and its two [except]
    clauses (a database error in the claim itself) are not part of the
    model. *)
Definition turn (environment : pystr) (w : Worker) : Turn * Worker :=
  let db_session := get_async_db (db w) in
  match claim db_session with
  | Some (task, db_session) =>
      let '(optimizer, db_session) := process_task task (optimizer w) db_session in
      (Processed task, {| optimizer := optimizer; db := committed db_session |})
  | None => (Slept (poll_interval environment), w)
  end.

(** The first [n] turns of [run_worker]. *)
Fixpoint run_worker (n : nat) (environment : pystr) (w : Worker) : list Turn * Worker :=
  match n with
  | O => ([], w)
  | Datatypes.S n' =>
      let '(t, w) := turn environment w in
      let '(ts, w) := run_worker n' environment w in
      (t :: ts, w)
  end.
End Loop.
End Worker.
(** ** The job endpoints ([routers/jobs.py], [db/repo.py], [schemas/job_schemas.py])

    The endpoints work on the tables of the worker and on the columns of
    [jobs] that the worker does not read. A request is taken as it comes out
    of validation, and a key [gen_random_uuid()] gives and the time
    [func.now()] gives are arguments, as in [enqueue_task]. *)

(** The columns of a row of [jobs] besides its key and its [status], which
    [Worker.jobs] holds, and besides [parsed_json] and [updated_at], which
    no endpoint below reads. *)
Module Job.
Record t := {
  user_id : pystr;
  title : pystr;
  company : option pystr;
  job_description : pystr;
  custom_instructions : option pystr;
  resume_lang : pystr;
  jd_lang : pystr;
  desired_output_lang : pystr;
  created_at : Z
}.
End Job.

Module CreateJobRequest.
Record t := {
  user_id : pystr;
  title : option pystr;
  company : option pystr;
  resume_text : pystr;
  job_description : pystr;
  custom_instructions : option pystr;
  resume_lang : pystr;
  jd_lang : pystr;
  desired_output_lang : option pystr
}.
End CreateJobRequest.

Module RefineJobRequest.
Record t := {
  user_id : pystr;
  instructions : pystr;
  desired_output_lang : option pystr
}.
End RefineJobRequest.

(** [JobResponse], without [updated_at]. *)
Module JobResponse.
Record t := {
  id : pystr;
  user_id : pystr;
  title : pystr;
  company : option pystr;
  status : JobStatusEnum.t;
  resume_lang : pystr;
  jd_lang : pystr;
  desired_output_lang : pystr;
  created_at : Z
}.
End JobResponse.

Module Jobs.
Import Worker.

(** The database: the tables of the worker and the other columns of
    [jobs], under the same keys. *)
Record Database := {
  tables : Tables;
  job_rows : gmap pystr Job.t
}.

(** The session of a request: the transaction on the tables and the rows
    of [jobs] as the transaction sees them. *)
Record AsyncSession := {
  tx : Session;
  rows : gmap pystr Job.t
}.

Definition get_async_db (d : Database) : AsyncSession :=
  {| tx := Worker.get_async_db (tables d); rows := job_rows d |}.

(** [await db.commit()], and the database the request leaves behind. *)
Definition commit (s : AsyncSession) : Database :=
  {| tables := committed (Worker.commit (tx s)); job_rows := rows s |}.

(** The outcome of an endpoint: the data of its answer, an
    [HTTPException] it raised, or another exception. *)
Inductive response (A : Type) : Type :=
  | Ok (data : A)
  | HTTPException (status_code : Z) (detail : pystr * pystr)
  | Unhandled (e : exn).
Arguments Ok {A} data.
Arguments HTTPException {A} status_code detail.
Arguments Unhandled {A} e.

(** [envelope_error(message)]: the message and the code ["ERROR"]. *)
Definition envelope_error (message : pystr) : pystr * pystr :=
  (message, u "ERROR").

(** A [Job] object: the key of the row and its columns. *)
Record JobObject := {
  id : pystr;
  row : Job.t;
  status : JobStatusEnum.t
}.

Definition serialize_job (job : JobObject) : JobResponse.t :=
  {| JobResponse.id := id job;
     JobResponse.user_id := Job.user_id (row job);
     JobResponse.title := Job.title (row job);
     JobResponse.company := Job.company (row job);
     JobResponse.status := status job;
     JobResponse.resume_lang := Job.resume_lang (row job);
     JobResponse.jd_lang := Job.jd_lang (row job);
     JobResponse.desired_output_lang := Job.desired_output_lang (row job);
     JobResponse.created_at := Job.created_at (row job) |}.

(** The dictionary [job_data] that [create_job] hands to the repository. *)
Record JobData := {
  jd_title : pystr;
  jd_company : option pystr;
  jd_job_description : pystr;
  jd_custom_instructions : option pystr;
  jd_resume_lang : pystr;
  jd_jd_lang : pystr;
  jd_desired_output_lang : pystr
}.

Definition with_jobs (j : gmap pystr JobStatusEnum.t) (t : Tables) : Tables :=
  {| task_queue := task_queue t; jobs := j; optimizations := optimizations t;
     resumes := resumes t; resume_versions := resume_versions t |}.

(** [Repository.create_job]: the server default fills [status]. *)
Definition repo_create_job (new_id : pystr) (now : Z) (user_id : pystr)
    (payload : JobData) (s : AsyncSession) : JobObject * AsyncSession :=
  let job :=
    {| Job.user_id := user_id;
       Job.title := jd_title payload;
       Job.company := jd_company payload;
       Job.job_description := jd_job_description payload;
       Job.custom_instructions := jd_custom_instructions payload;
       Job.resume_lang := jd_resume_lang payload;
       Job.jd_lang := jd_jd_lang payload;
       Job.desired_output_lang :=
         py_or_str (Some (jd_desired_output_lang payload)) (jd_resume_lang payload);
       Job.created_at := now |} in
  ({| id := new_id; row := job; status := JobStatusEnum.queued |},
   {| tx := {| committed := committed (tx s);
               pending := with_jobs (<[new_id := JobStatusEnum.queued]>
                                       (jobs (pending (tx s))))
                            (pending (tx s)) |};
      rows := <[new_id := job]> (rows s) |}).

(** [Repository.get_job_for_user]:
    [select(Job).where(Job.id == job_id, Job.user_id == user_id)]. *)
Definition get_job_for_user (user_id job_id : pystr) (s : AsyncSession)
    : option JobObject :=
  match rows s !! job_id, jobs (pending (tx s)) !! job_id with
  | Some job, Some st =>
      if bool_decide (Job.user_id job = user_id)
      then Some {| id := job_id; row := job; status := st |}
      else None
  | _, _ => None
  end.

(** [Repository.get_task_for_job]: the first task, by [created_at], whose
    payload names the job. *)
Definition names_job (job_id : pystr) (r : pystr * TaskQueue.t) : bool :=
  bool_decide (Payload.job_id (TaskQueue.payload (snd r)) = Some job_id).

Definition get_task_for_job (job_id : pystr) (s : AsyncSession)
    : option (pystr * TaskQueue.t) :=
  first_by_created_at
    (List.filter (names_job job_id) (map_to_list (task_queue (pending (tx s))))).

Definition repo_enqueue_task (new_id : pystr) (now : Z) (task_type : TaskTypeEnum.t)
    (payload : Payload.t) (s : AsyncSession) : AsyncSession :=
  {| tx := enqueue_task new_id now task_type payload (tx s); rows := rows s |}.

Definition repo_update_job_status (job_id : pystr) (st : JobStatusEnum.t)
    (s : AsyncSession) : AsyncSession :=
  {| tx := update_job_status job_id st (tx s); rows := rows s |}.

(** [POST /jobs]. *)
Definition create_job (new_job_id new_task_id : pystr) (now : Z)
    (payload : CreateJobRequest.t) (db : Database)
    : response JobResponse.t * Database :=
  let db := get_async_db db in
  let job_data :=
    {| jd_title := py_or_str (CreateJobRequest.title payload) (u "Resume Optimization");
       jd_company := CreateJobRequest.company payload;
       jd_job_description := CreateJobRequest.job_description payload;
       jd_custom_instructions := CreateJobRequest.custom_instructions payload;
       jd_resume_lang := CreateJobRequest.resume_lang payload;
       jd_jd_lang := CreateJobRequest.jd_lang payload;
       jd_desired_output_lang :=
         py_or_str (CreateJobRequest.desired_output_lang payload)
           (CreateJobRequest.resume_lang payload) |} in
  let '(job, db) :=
    repo_create_job new_job_id now (CreateJobRequest.user_id payload) job_data db in
  (* Enqueue optimization task *)
  let task_payload :=
    {| Payload.job_id := Some (id job);
       Payload.user_id := Some (CreateJobRequest.user_id payload);
       Payload.resume_id := None;
       Payload.resume_version_id := None;
       Payload.resume_text := Some (CreateJobRequest.resume_text payload);
       Payload.job_description := Some (CreateJobRequest.job_description payload);
       Payload.instructions := CreateJobRequest.custom_instructions payload;
       Payload.resume_lang := Some (CreateJobRequest.resume_lang payload);
       Payload.resumeLang := None;
       Payload.jd_lang := Some (CreateJobRequest.jd_lang payload);
       Payload.jdLang := None;
       Payload.desired_output_lang :=
         Some (py_or_str (CreateJobRequest.desired_output_lang payload)
                 (CreateJobRequest.resume_lang payload));
       Payload.desiredOutputLang := None;
       Payload.is_refinement := Some false |} in
  let db := repo_enqueue_task new_task_id now TaskTypeEnum.optimize task_payload db in
  (Ok (serialize_job job), commit db).

(** [POST /jobs/{job_id}/refine]. A request that ends in an
    [HTTPException] commits nothing. *)
Definition refine_job (new_task_id : pystr) (now : Z) (job_id : pystr)
    (payload : RefineJobRequest.t) (db : Database)
    : response JobResponse.t * Database :=
  let db0 := db in
  let db := get_async_db db in
  (* Get existing job *)
  match get_job_for_user (RefineJobRequest.user_id payload) job_id db with
  | None => (HTTPException 404 (envelope_error (u "Job not found")), db0)
  | Some job =>
      if negb (bool_decide (status job = JobStatusEnum.complete)) then
        (HTTPException 400 (envelope_error (u "Can only refine completed jobs")), db0)
      else
        (* Get the original task to retrieve resume_text *)
        let original_task := get_task_for_job job_id db in
        let resume_text :=
          match original_task with
          | Some (_, task_row) =>
              default [] (Payload.resume_text (TaskQueue.payload task_row))
          | None => []
          end in
        (* Update job status back to queued *)
        let db := repo_update_job_status job_id JobStatusEnum.queued db in
        (* Enqueue refinement task *)
        let task_payload :=
          {| Payload.job_id := Some (id job);
             Payload.user_id := Some (RefineJobRequest.user_id payload);
             Payload.resume_id := None;
             Payload.resume_version_id := None;
             Payload.resume_text := Some resume_text;
             Payload.job_description := Some (Job.job_description (row job));
             Payload.instructions := Some (RefineJobRequest.instructions payload);
             Payload.resume_lang := Some (Job.resume_lang (row job));
             Payload.resumeLang := None;
             Payload.jd_lang := Some (Job.jd_lang (row job));
             Payload.jdLang := None;
             Payload.desired_output_lang :=
               Some (py_or_str (RefineJobRequest.desired_output_lang payload)
                       (Job.desired_output_lang (row job)));
             Payload.desiredOutputLang := None;
             Payload.is_refinement := Some true |} in
        let db := repo_enqueue_task new_task_id now TaskTypeEnum.optimize task_payload db in
        let committed_db := commit db in
        (* Refresh job to get updated status *)
        match get_job_for_user (RefineJobRequest.user_id payload) job_id
                (get_async_db committed_db) with
        | Some job => (Ok (serialize_job job), committed_db)
        | None =>
            (* [JobResponse.model_validate(None)] *)
            (Unhandled (ValidationError (u "Input should be a valid dictionary or object")),
             committed_db)
        end
  end.

(** The [Job] objects of the table, in the order in which it lists them. *)
Definition job_objects (s : AsyncSession) : list JobObject :=
  omap (fun kr : pystr * Job.t =>
          match jobs (pending (tx s)) !! fst kr with
          | Some st => Some {| id := fst kr; row := snd kr; status := st |}
          | None => None
          end)
       (map_to_list (rows s)).

(** [Repository.list_jobs_for_user]:
    [select(Job).where(Job.user_id == user_id).order_by(Job.created_at.desc())].
    Rows with one [created_at] come in an order that the database does not
    fix; here they stay as the table lists them. *)
Definition list_jobs_for_user (user_id : pystr) (s : AsyncSession) : list JobObject :=
  list_sort Z.ltb (fun job => Job.created_at (row job)) true
    (List.filter (fun job => bool_decide (Job.user_id (row job) = user_id))
       (job_objects s)).

(** [GET /jobs]. *)
Definition list_jobs (user_id : pystr) (db : Database)
    : response (list JobResponse.t) * Database :=
  let db0 := db in
  let db := get_async_db db in
  let jobs := list_jobs_for_user user_id db in
  (Ok (List.map serialize_job jobs), db0).

End Jobs.

(** ** Reading a result ([routers/jobs.py], [db/repo.py]) *)

(** The dictionary [serialize_optimization_result] builds. *)
Module ResultDict.
Record t := {
  id : pystr;
  score : Z;
  missingKeywords : list pystr;
  coveredKeywords : list pystr;
  changeLog : list pystr;
  previewMarkdown : pystr;
  extractedEntities : option Schemas.ExtractedEntities;
  alignmentInsights : option Schemas.AlignmentInsights;
  reliability : option Schemas.ReliabilityMetrics
}.
End ResultDict.

Module Results.
Import Worker Jobs.

(** An [Optimization] object: a row of [optimizations] with the two
    columns that the server fills when the row is inserted, [id]
    ([gen_random_uuid()]) and [created_at] ([func.now()]). *)
Record OptimizationObject := {
  o_id : pystr;
  o_created_at : Z;
  o_row : Optimization.t
}.

(** The table of the worker does not hold these two columns: [stamps]
    lists them, one pair for each row of [optimizations], in the order of
    the table. *)
Definition optimization_objects (stamps : list (pystr * Z)) (s : AsyncSession)
    : list OptimizationObject :=
  List.map (fun sr : (pystr * Z) * Optimization.t =>
              {| o_id := fst (fst sr); o_created_at := snd (fst sr); o_row := snd sr |})
    (combine stamps (optimizations (pending (tx s)))).

(** [Repository.get_latest_optimization_for_job]:
    [select(Optimization).where(Optimization.job_id == job_id,
    Optimization.user_id == user_id).order_by(desc(Optimization.created_at))]
    and [.first()]. Rows with one [created_at] come in an order that the
    database does not fix; here they stay as the table lists them. *)
Definition get_latest_optimization_for_job (stamps : list (pystr * Z))
    (job_id user_id : pystr) (s : AsyncSession) : option OptimizationObject :=
  head (list_sort Z.ltb o_created_at true
          (List.filter (fun opt => bool_decide (Optimization.job_id (o_row opt) = job_id)
                                   && bool_decide (Optimization.user_id (o_row opt) = user_id))
             (optimization_objects stamps s))).

(** [serialize_optimization_result]: [report_json] is the dump of the
    result with the metrics under ["reliability"], so every key read from
    it is there. *)
Definition serialize_optimization_result (opt : OptimizationObject) : ResultDict.t :=
  let report := Optimization.report_json (o_row opt) in
  {| ResultDict.id := o_id opt;
     ResultDict.score := Optimization.score (o_row opt);
     ResultDict.missingKeywords := Schemas.missing_keywords (fst report);
     ResultDict.coveredKeywords := Schemas.covered_keywords (fst report);
     ResultDict.changeLog := Optimization.change_log (o_row opt);
     ResultDict.previewMarkdown := Optimization.preview_md (o_row opt);
     ResultDict.extractedEntities := Schemas.extracted_entities (fst report);
     ResultDict.alignmentInsights := Schemas.alignment_insights (fst report);
     ResultDict.reliability := Some (snd report) |}.

(** [GET /jobs/{job_id}]: the job, and under ["result"] the latest
    optimization when the job is complete. *)
Definition get_job (stamps : list (pystr * Z)) (job_id user_id : pystr) (db : Database)
    : response (JobResponse.t * option ResultDict.t) * Database :=
  let db0 := db in
  let db := get_async_db db in
  match get_job_for_user user_id job_id db with
  | None => (HTTPException 404 (envelope_error (u "Job not found")), db0)
  | Some job =>
      (* Fetch optimization result if complete *)
      let result :=
        if bool_decide (status job = JobStatusEnum.complete) then
          match get_latest_optimization_for_job stamps job_id user_id db with
          | Some opt => Some (serialize_optimization_result opt)
          | None => None
          end
        else None in
      (Ok (serialize_job job, result), db0)
  end.

End Results.

(** ** The providers ([libs/ai]) *)

(** [s.startswith(prefix)]. *)
Fixpoint startswith (s prefix : pystr) {struct prefix} : bool :=
  match prefix, s with
  | [], _ => true
  | p :: prefix', c :: s' => N.eqb c p && startswith s' prefix'
  | _ :: _, [] => false
  end.

(** [s.endswith(suffix)]. *)
Definition endswith (s suffix : pystr) : bool := startswith (rev s) (rev suffix).

(** [s.replace(old, new)] for a non-empty [old], from left to right over
    occurrences that do not overlap: [skip] counts the characters of an
    occurrence that are still to be passed over. *)
Fixpoint replace_from (skip : nat) (old new s : pystr) : pystr :=
  match s with
  | [] => []
  | c :: rest =>
      match skip with
      | Datatypes.S k => replace_from k old new rest
      | O =>
          if startswith s old
          then new ++ replace_from (length old - 1) old new rest
          else c :: replace_from 0 old new rest
      end
  end.

(** [s.replace(old, new)]; an empty [old] matches before every character
    and at the end. *)
Definition replace (s old new : pystr) : pystr :=
  match old with
  | [] => new ++ flat_map (fun c => c :: new) s
  | _ :: _ => replace_from 0 old new s
  end.

Module Providers.
Import AI.

(** What the providers take from Pydantic and from the clients of the
    vendors. Like the Unicode database these belong to libraries, not to
    the repository, and are parameters of the development. *)
Class Pydantic := {
  (** [json.dumps(schema.model_json_schema(), indent=2)] *)
  model_json_schema : schema -> pystr;
  (** [schema.model_validate_json(text)] *)
  model_validate_json : schema -> pystr -> result pyval
}.

(** [client.messages.create(model, max_tokens, system, messages,
    temperature)] of a client built with [api_key], for the one message
    [{"role": "user", "content": content}]: the texts of the blocks of
    [message.content]. *)
Class AsyncAnthropic (S : Type) := {
  messages_create :
    forall (api_key model : pystr) (max_tokens : Z) (system content : pystr)
           (temperature : float), S -> result (list pystr) * S
}.

(** [types.GenerateContentConfig]. *)
Record GenerateContentConfig := {
  c_temperature : float;
  system_instruction : pystr;
  response_mime_type : pystr;
  response_schema : option schema
}.

(** What [generate_response] reads of the response of Gemini: [text], and
    [parsed] when the response has that attribute and it is truthy. *)
Record GenerateContentResponse := {
  text : option pystr;
  parsed : option pyval
}.

(** [client.aio.models.generate_content(model, contents, config)] and
    [client.aio.models.embed_content(model, contents)] of a client built
    with [api_key]; of the second, the [values] of [result.embeddings]. *)
Class GenaiClient (F S : Type) := {
  generate_content :
    forall (api_key model contents : pystr) (config : GenerateContentConfig),
      S -> result GenerateContentResponse * S;
  embed_content :
    forall (api_key model contents : pystr), S -> result (list (list F)) * S
}.

(** The settings the providers read. *)
Record Settings := {
  GEMINI_API_KEY : pystr;
  ANTHROPIC_API_KEY : pystr
}.

Section Providers.
Context `{UnicodeDB} `{Pydantic} {F S : Type} `{AsyncAnthropic S} `{GenaiClient F S}.
Variable settings : Settings.

(** *** [anthropic_provider.py] *)

(** The client is the key it was built with. *)
Record AnthropicProvider := {
  a_client : option pystr;
  a_model_name : pystr
}.

(** [AnthropicProvider.__init__]. *)
Definition AnthropicProvider_init (api_key : option pystr) : AnthropicProvider :=
  let api_key := py_or api_key (Some (ANTHROPIC_API_KEY settings)) in
  {| a_client := if negb (truthy api_key) then None else api_key;
     (* Use Claude 3.5 Sonnet for best balance of speed and quality *)
     a_model_name := u "claude-sonnet-4-20250514" |}.

(** The clean-up of a response when a schema was asked for. *)
Definition anthropic_cleaned_text (text_response : pystr) : pystr :=
  (* Clean up response (remove markdown code blocks if present) *)
  let cleaned_text := strip text_response in
  let cleaned_text :=
    if startswith cleaned_text (u "```json") then drop 7 cleaned_text else cleaned_text in
  let cleaned_text :=
    if startswith cleaned_text (u "```") then drop 3 cleaned_text else cleaned_text in
  let cleaned_text :=
    if endswith cleaned_text (u "```")
    then take (length cleaned_text - 3) cleaned_text else cleaned_text in
  strip cleaned_text.

(** [AnthropicProvider.generate_response]. An empty [message.content]
    raises [IndexError]. *)
Definition anthropic_generate_response (self : AnthropicProvider) (req : request) (s : S)
    : result pyval * S :=
  match a_client self with
  | None => (Raises (ValueError (u "Anthropic API Key not configured")), s)
  | Some api_key =>
      (* Add JSON instruction if schema is provided *)
      let system_prompt :=
        match json_schema req with
        | Some t =>
            system_prompt req ++ u "

You MUST respond with valid JSON matching this schema:
" ++ model_json_schema t ++ u "

Respond ONLY with the JSON object, no additional text."
        | None => system_prompt req
        end in
      match messages_create api_key (a_model_name self) 4096 system_prompt
              (user_prompt req) (temperature req) s with
      | (Raises e, s) => (Raises e, s)
      | (Returns [], s) => (Raises (Exception (u "list index out of range")), s)
      | (Returns (text_response :: _), s) =>
          match json_schema req with
          | Some t => (model_validate_json t (anthropic_cleaned_text text_response), s)
          | None => (Returns (VStr text_response), s)
          end
      end
  end.

(** [AnthropicProvider.get_embedding]: Anthropic doesn't provide
    embeddings API, return empty list. *)
Definition anthropic_get_embedding (self : AnthropicProvider) (text : pystr) (s : S)
    : result (list F) * S :=
  (Returns [], s).

Definition anthropic (self : AnthropicProvider) : BaseLLMProvider F S :=
  {| generate_response := anthropic_generate_response self;
     get_embedding := anthropic_get_embedding self |}.

(** *** [gemini_provider.py] *)

Record GeminiProvider := {
  g_client : option pystr;
  g_model_name : pystr;
  embedding_model : pystr
}.

(** [GeminiProvider.__init__]. *)
Definition GeminiProvider_init (api_key : option pystr) : GeminiProvider :=
  let api_key := py_or api_key (Some (GEMINI_API_KEY settings)) in
  {| g_client := if negb (truthy api_key) then None else api_key;
     g_model_name := u "gemini-2.0-flash";
     embedding_model := u "text-embedding-004" |}.

(** The manual parse cleans the text first. *)
Definition gemini_cleaned_text (text_response : pystr) : pystr :=
  strip (replace (replace text_response (u "```json") []) (u "```") []).

(** [GeminiProvider.generate_response]. A response without text has
    [text] [None]: cleaning it raises [AttributeError], and without a
    schema [None] is what the call returns. *)
Definition gemini_generate_response (self : GeminiProvider) (req : request) (s : S)
    : result pyval * S :=
  match g_client self with
  | None => (Raises (ValueError (u "Gemini API Key not configured")), s)
  | Some api_key =>
      let config :=
        {| c_temperature := temperature req;
           system_instruction := system_prompt req;
           response_mime_type :=
             if is_not_None (json_schema req) then u "application/json"
             else u "text/plain";
           response_schema := json_schema req |} in
      match generate_content api_key (g_model_name self) (user_prompt req) config s with
      | (Raises e, s) => (Raises e, s)
      | (Returns response, s) =>
          let text_response := text response in
          match json_schema req with
          | Some t =>
              match parsed response with
              | Some v => (Returns v, s)
              | None =>
                  (* Fallback manual parse if needed *)
                  match text_response with
                  | Some text_response =>
                      (model_validate_json t (gemini_cleaned_text text_response), s)
                  | None =>
                      (Raises (Exception
                                 (u "'NoneType' object has no attribute 'replace'")), s)
                  end
              end
          | None =>
              (Returns match text_response with
                       | Some text_response => VStr text_response
                       | None => VOther
                       end, s)
          end
      end
  end.

(** [GeminiProvider.get_embedding]; no embedding in the result raises
    [IndexError]. *)
Definition gemini_get_embedding (self : GeminiProvider) (text : pystr) (s : S)
    : result (list F) * S :=
  match g_client self with
  | None => (Returns [], s)
  | Some api_key =>
      match embed_content api_key (embedding_model self) text s with
      | (Raises e, s) => (Raises e, s)
      | (Returns [], s) => (Raises (Exception (u "list index out of range")), s)
      | (Returns (values :: _), s) => (Returns values, s)
      end
  end.

Definition gemini (self : GeminiProvider) : BaseLLMProvider F S :=
  {| generate_response := gemini_generate_response self;
     get_embedding := gemini_get_embedding self |}.

End Providers.
End Providers.

(** ** Backend stubs, for running the pipeline on concrete inputs *)

Module Stubs.
Import Schemas AI.

(** A backend that plays a script: each generation call consumes the next
    entry; past the end, and for embeddings, it raises. *)
Definition scripted {F : Type} : BaseLLMProvider F (list (result pyval)) := {|
  generate_response _ s :=
    match s with
    | r :: rest => (r, rest)
    | [] => (Raises (Exception (u "script exhausted")), [])
    end;
  get_embedding _ s := (Raises (Exception (u "embeddings unsupported")), s)
|}.

(** A clock that stands still. *)
Definition frozen_clock {S : Type} : Clock S := {|
  time_time s := (0.0%float, s)
|}.

(** The outcome of a generation call that fails schema validation. *)
Definition invalid : result pyval := Raises (ValidationError (u "invalid JSON")).

(** A backend whose every generation call fails schema validation, and
    which has no embeddings. *)
Definition always_invalid {F : Type} : BaseLLMProvider F unit := {|
  generate_response _ s := (invalid, s);
  get_embedding _ s := (Returns [], s)
|}.

Definition sample_entities : Schemas.ExtractedEntities :=
  {| skills := [u "python"]; tools := [u "git"]; education := [];
     experience := []; contact := None |}.

Definition sample_alignment : Schemas.AlignmentInsights :=
  {| matched := [u "python"]; missing := [u "sql"]; weak := []; evidence := [] |}.

(** A rewrite whose preview is [preview]. *)
Definition core_with (preview : pystr) : OptimizationResultCore :=
  {| core_score := 70;
     core_missing_keywords := [u "sql"];
     core_covered_keywords := [u "python"];
     core_change_log := [u "Added a summary"];
     core_preview_markdown := preview |}.

(** A script in which each stage succeeds at once, the rewrite with
    [preview], followed by the outcomes [rest] of any later call. *)
Definition stages_then (preview : pystr) (rest : list (result pyval))
    : list (result pyval) :=
  Returns (VEntities sample_entities) :: Returns (VAlignment sample_alignment)
    :: Returns (VCore (core_with preview)) :: rest.

(** A backend that serves extraction and alignment and fails every rewrite
    with a validation error. *)
Definition rewrite_fails {F : Type} : BaseLLMProvider F unit := {|
  generate_response req s :=
    (match json_schema req with
     | Some ExtractedEntitiesT => Returns (VEntities sample_entities)
     | Some AlignmentInsightsT => Returns (VAlignment sample_alignment)
     | Some OptimizationResultCoreT => invalid
     | None => Returns (VStr (user_prompt req))
     end, s);
  get_embedding _ s := (Returns [], s)
|}.

(** A database with one job and an empty queue. *)
Definition sample_tables : Worker.Tables :=
  {| Worker.task_queue := ∅;
     Worker.jobs := {[ u "job-1" := JobStatusEnum.queued ]};
     Worker.optimizations := [];
     Worker.resumes := ∅;
     Worker.resume_versions := ∅ |}.

(** [sample_tables] with one queued task [task-1] for [job]. *)
Definition tables_with_task (job : pystr) : Worker.Tables :=
  Worker.committed
    (Worker.commit
       (Worker.enqueue_task (u "task-1") 100 TaskTypeEnum.optimize
          {| Payload.job_id := Some job;
             Payload.user_id := Some (u "user-1");
             Payload.resume_id := None;
             Payload.resume_version_id := None;
             Payload.resume_text := Some (u "my resume");
             Payload.job_description := Some (u "the job");
             Payload.instructions := None;
             Payload.resume_lang := Some (u "en");
             Payload.resumeLang := None;
             Payload.jd_lang := Some (u "en");
             Payload.jdLang := None;
             Payload.desired_output_lang := Some (u "en");
             Payload.desiredOutputLang := None;
             Payload.is_refinement := Some false |}
          (Worker.get_async_db sample_tables))).

(** A worker on a scripted backend in which every stage succeeds at once. *)
Definition sample_worker (job : pystr) : @Worker.Worker (list (result pyval)) :=
  {| Worker.optimizer := Optimizer.init (stages_then (u "# Resume") []);
     Worker.db := tables_with_task job |}.

(** A backend with two-dimensional embeddings: the skills text
    ["python, sql"] lies on the first axis, the experience text
    ["engineer | analyst"] on the second, every other text on the diagonal,
    and ["unknown"] has no embedding. *)
Definition axis_embeddings {F : Type} `{Arith F} : BaseLLMProvider F unit := {|
  generate_response _ s := (invalid, s);
  get_embedding text s :=
    (if bool_decide (text = u "python, sql") then Returns [of_Q 1; of_Q 0]
     else if bool_decide (text = u "engineer | analyst") then Returns [of_Q 0; of_Q 1]
     else if bool_decide (text = u "unknown") then Returns []
     else Returns [of_Q 1; of_Q 1], s)
|}.

(** Four candidates: [a] and [c] have the same skills, [b] has experience
    only, [d] has other skills. *)
Definition sample_candidates : list Matcher.Candidate :=
  [ {| Matcher.c_id := Some (u "a"); Matcher.c_name := Some (u "Amal");
       Matcher.c_skills := Some [u "python"; u "sql"];
       Matcher.c_experience := None; Matcher.c_education := None |};
    {| Matcher.c_id := Some (u "b"); Matcher.c_name := None;
       Matcher.c_skills := None;
       Matcher.c_experience := Some [u "engineer"; u "analyst"];
       Matcher.c_education := None |};
    {| Matcher.c_id := Some (u "c"); Matcher.c_name := Some (u "Chen");
       Matcher.c_skills := Some [u "python"; u "sql"];
       Matcher.c_experience := None; Matcher.c_education := None |};
    {| Matcher.c_id := Some (u "d"); Matcher.c_name := Some (u "Dana");
       Matcher.c_skills := Some [u "rust"];
       Matcher.c_experience := None; Matcher.c_education := None |} ].

(** The word "marhaban" in Arabic letters. *)
Definition marhaban : pystr := [0x645; 0x631; 0x62D; 0x628; 0x627]%N.

Definition payload (resume job : pystr) (lang out : option pystr) : Payload.t :=
  {| Payload.job_id := Some (u "job-1");
     Payload.user_id := Some (u "user-1");
     Payload.resume_id := None;
     Payload.resume_version_id := None;
     Payload.resume_text := Some resume;
     Payload.job_description := Some job;
     Payload.instructions := None;
     Payload.resume_lang := lang;
     Payload.resumeLang := None;
     Payload.jd_lang := lang;
     Payload.jdLang := None;
     Payload.desired_output_lang := out;
     Payload.desiredOutputLang := None;
     Payload.is_refinement := Some false |}.

End Stubs.

(** * Properties *)

(** ** [round(x, ndigits)] on sample values *)

Example py_round_12_25 : py_round 12.25 1 = 12.2%float.
Proof. vm_compute. reflexivity. Qed.
Example py_round_2_675 : py_round 2.675 2 = 2.67%float.
Proof. vm_compute. reflexivity. Qed.
Example py_round_neg : py_round (-0.35) 1 = (-0.3)%float.
Proof. vm_compute. reflexivity. Qed.
Example py_round_100 : py_round 99.96 1 = 100%float.
Proof. vm_compute. reflexivity. Qed.

(** ** Language labels and the translation test *)

Module OptimizerText.
Import Schemas AI Optimizer.

Lemma language_name_of_key (code : option pystr) :
  language_name code =
    if bool_decide (py_or_str code [] = u "en") then u "English"
    else if bool_decide (py_or_str code [] = u "ar") then u "Arabic"
    else u "English".
Proof.
  unfold language_name, LANGUAGE_LABELS.
  repeat case_bool_decide.
  - replace (py_or_str code []) with (u "en"). reflexivity.
  - replace (py_or_str code []) with (u "ar"). reflexivity.
  - rewrite lookup_insert_ne by congruence.
    rewrite lookup_singleton_ne by congruence. reflexivity.
Qed.

Lemma language_name_label (code : option pystr) :
  language_name code = u "English" \/ language_name code = u "Arabic".
Proof.
  rewrite language_name_of_key. repeat case_bool_decide; auto.
Qed.

Lemma py_or_str_key (code : option pystr) (k : pystr) :
  k <> [] -> py_or_str code [] = k -> code = Some k.
Proof.
  destruct code as [[|c s]|]; simpl; congruence.
Qed.

Lemma language_name_other (code : option pystr) :
  code <> Some (u "en") -> code <> Some (u "ar") ->
  language_name code = u "English".
Proof.
  intros Hen Har. rewrite language_name_of_key.
  repeat case_bool_decide; try reflexivity.
  exfalso. apply Har. apply py_or_str_key; [discriminate | assumption].
Qed.

Section Text.
Context `{UnicodeDB}.

Lemma lstrip_blank (s : pystr) :
  Forall (fun c => isspace c = true) s -> lstrip s = [].
Proof.
  induction 1 as [|c s Hc _ IH]; simpl; [reflexivity|].
  rewrite Hc. exact IH.
Qed.

Lemma strip_blank (s : pystr) :
  Forall (fun c => isspace c = true) s -> strip s = [].
Proof.
  intros Hs. unfold strip, rstrip. rewrite (lstrip_blank s Hs). reflexivity.
Qed.

(** [needs_translation] written out as one condition. *)
Lemma needs_translation_unfold (text target_lang : pystr) :
  needs_translation text target_lang =
    negb (is_empty (strip text))
    && ((bool_decide (target_lang = u "ar")
         && PrimFloat.ltb (arabic_ratio text) 0.15)
        || (bool_decide (target_lang = u "en")
            && PrimFloat.ltb 0.15 (arabic_ratio text))).
Proof.
  unfold needs_translation.
  destruct (is_empty (strip text)); simpl; [reflexivity|].
  case_bool_decide as Har; simpl.
  - subst target_lang.
    destruct (PrimFloat.ltb (arabic_ratio text) 0.15); reflexivity.
  - case_bool_decide; simpl; reflexivity.
Qed.

(** C10. A language code other than ["en"] and ["ar"] (an absent one
    included) is labelled English; the instruction block therefore names
    English or Arabic for the resume, the job description and the output,
    whatever codes the payload carries; and [needs_translation] is false
    for a target language outside ["ar"], ["en"] and for a text made of
    white space only. *)
Theorem language_fallback :
  (forall code : option pystr,
      code <> Some (u "en") -> code <> Some (u "ar") ->
      language_name code = u "English")
  /\ (forall resume_lang jd_lang desired_output_lang : option pystr,
        exists resume_label jd_label target_label : pystr,
          (resume_label = u "English" \/ resume_label = u "Arabic")
          /\ (jd_label = u "English" \/ jd_label = u "Arabic")
          /\ (target_label = u "English" \/ target_label = u "Arabic")
          /\ build_language_instructions resume_lang jd_lang desired_output_lang
             = language_block resume_label jd_label target_label)
  /\ (forall text target_lang : pystr,
        target_lang <> u "ar" -> target_lang <> u "en" ->
        needs_translation text target_lang = false)
  /\ (forall text target_lang : pystr,
        Forall (fun c => isspace c = true) text ->
        needs_translation text target_lang = false).
Proof.
  split; [exact language_name_other|].
  split.
  { intros rl jl dl.
    exists (language_name rl), (language_name jl),
      (language_name (Some (target_language dl rl))).
    repeat split; try apply language_name_label. }
  split.
  - intros text target Har Hen. rewrite needs_translation_unfold.
    rewrite !bool_decide_eq_false_2 by assumption.
    simpl. apply andb_false_r.
  - intros text target Hs. rewrite needs_translation_unfold.
    rewrite (strip_blank text Hs). reflexivity.
Qed.
End Text.

(** The instance of C10 at the code ["fr"] and at a blank text. *)
Lemma language_fallback_fr :
  language_name (Some (u "fr")) = u "English"
  /\ @needs_translation sample_db (u "Bonjour") (u "fr") = false
  /\ @needs_translation sample_db (u "  ") (u "ar") = false.
Proof.
  destruct (@language_fallback sample_db) as (Hname & _ & Hother & Hblank).
  split; [apply Hname; discriminate|].
  split; [apply Hother; discriminate|].
  apply Hblank. repeat constructor.
Defined.

End OptimizerText.

(** ** Runs of the pipeline *)

Module OptimizerRun.
Import Schemas AI Optimizer.

Abbreviation log := (list (request * result pyval)).

Definition raised {A} (r : result A) : bool :=
  match r with Raises _ => true | Returns _ => false end.

(** The number of calls of a log that raised. *)
Definition count_raised (l : log) : Z :=
  Z.of_nat (length (List.filter (fun c => raised (snd c)) l)).

(** The calls of a log that carry no schema (the translation calls). *)
Definition unconstrained (l : log) : log :=
  List.filter (fun c => negb (is_not_None (json_schema (fst c)))) l.

Definition pick_entities (v : pyval) : option ExtractedEntities :=
  match v with VEntities e => Some e | _ => None end.

Definition pick_alignment (v : pyval) : option AlignmentInsights :=
  match v with VAlignment a => Some a | _ => None end.

Definition pick_core (v : pyval) : option OptimizationResultCore :=
  match v with VCore c => Some c | _ => None end.

(** A call that did not produce an instance of the expected model. *)
Definition rejected {X} (pick : pyval -> option X) (c : request * result pyval) : Prop :=
  match snd c with
  | Returns v => pick v = None
  | Raises _ => True
  end.

(** [l] is the log of a retry loop of at most [n] attempts of [req] that
    ended with [r]: every attempt before the last was rejected, and either
    the last one produced [r], or all [n] were made and rejected. *)
Definition retry_log {X} (pick : pyval -> option X) (req : request) (n : nat)
    (l : log) (r : option X) : Prop :=
  Forall (fun c => fst c = req) l
  /\ match r with
     | Some x =>
         exists l' v, l = l' ++ [(req, Returns v)] /\ pick v = Some x
                      /\ (length l <= n)%nat /\ Forall (rejected pick) l'
     | None => length l = n /\ Forall (rejected pick) l
     end.

Lemma count_raised_app (l1 l2 : log) :
  count_raised (l1 ++ l2) = (count_raised l1 + count_raised l2)%Z.
Proof.
  unfold count_raised. rewrite List.filter_app, length_app. lia.
Qed.

Lemma count_raised_cons (c : request * result pyval) (l : log) :
  count_raised (c :: l) = ((if raised (snd c) then 1 else 0) + count_raised l)%Z.
Proof.
  unfold count_raised. simpl. destruct (raised (snd c)); simpl; lia.
Qed.

Lemma retry_log_cons {X} (pick : pyval -> option X) req n c l r :
  fst c = req -> rejected pick c ->
  retry_log pick req n l r -> retry_log pick req (Datatypes.S n) (c :: l) r.
Proof.
  intros Hc Hrej [Hall Hr]. split; [constructor; assumption|].
  destruct r as [x|].
  - destruct Hr as (l' & v & -> & Hv & Hlen & Hrejs).
    exists (c :: l'), v. repeat split; try assumption.
    + simpl in *. lia.
    + constructor; assumption.
  - destruct Hr as [Hlen Hrejs]. split; [simpl; lia | constructor; assumption].
Qed.

Lemma retry_log_last {X} (pick : pyval -> option X) req n v x :
  pick v = Some x -> retry_log pick req (Datatypes.S n) [(req, Returns v)] (Some x).
Proof.
  intros Hv. split; [repeat constructor|].
  exists [], v. repeat split; [assumption | simpl; lia | constructor].
Qed.

Section Run.
Context `{UnicodeDB} {S : Type} `{BaseLLMProvider float S} `{Clock S}.

Abbreviation ResumeOptimizer := (@Optimizer.ResumeOptimizer S).

(** What a step that only appends [new] to the log and adds [d] to
    [invalid_json_attempts] and [t] to [total_attempts] leaves behind. *)
(** A logged call that the backend can have answered that way. *)
Definition genuine (c : request * result pyval) : Prop :=
  exists s, fst (generate_response (fst c) s) = snd c.

Definition advanced (o o' : ResumeOptimizer) (new : log) (d t : Z) : Prop :=
  calls o' = calls o ++ new
  /\ Forall genuine new
  /\ invalid_json_attempts (metrics o') = (invalid_json_attempts (metrics o) + d)%Z
  /\ total_attempts (metrics o') = (total_attempts (metrics o) + t)%Z
  /\ latency_seconds (metrics o') = latency_seconds (metrics o)
  /\ last_run_valid (metrics o') = last_run_valid (metrics o).

Lemma advanced_step (d1 t1 : Z) (o o1 o' : ResumeOptimizer) c new d t D T :
  advanced o o1 [c] d1 t1 -> advanced o1 o' new d t ->
  D = (d1 + d)%Z -> T = (t1 + t)%Z ->
  advanced o o' (c :: new) D T.
Proof.
  intros (C1 & G1 & I1 & T1 & L1 & V1) (C2 & G2 & I2 & T2 & L2 & V2) -> ->.
  unfold advanced. rewrite C2, C1, I2, I1, T2, T1, L2, L1, V2, V1.
  rewrite <- app_assoc. simpl.
  split; [reflexivity|]. split; [|repeat split; lia].
  constructor; [|assumption]. inversion G1; assumption.
Qed.

Lemma advanced_refl (o : ResumeOptimizer) : advanced o o [] 0 0.
Proof.
  unfold advanced. rewrite app_nil_r.
  split; [reflexivity|]. split; [constructor|]. repeat split; lia.
Qed.

(** One call, as [call_generate] logs it. *)
Lemma advanced_call (o : ResumeOptimizer) (req : request) (r : result pyval)
    (s : S) (m : ReliabilityMetrics) (d t : Z) :
  generate_response req (world o) = (r, s) ->
  invalid_json_attempts m = (invalid_json_attempts (metrics o) + d)%Z ->
  total_attempts m = (total_attempts (metrics o) + t)%Z ->
  latency_seconds m = latency_seconds (metrics o) ->
  last_run_valid m = last_run_valid (metrics o) ->
  advanced o {| world := s; metrics := m; calls := calls o ++ [(req, r)] |}
    [(req, r)] d t.
Proof.
  intros Hg Hi Ht Hl Hv. unfold advanced. cbn [calls metrics].
  split; [reflexivity|]. split; [|auto].
  constructor; [|constructor]. exists (world o). cbn [fst snd]. rewrite Hg. reflexivity.
Qed.

(** The two ways a retry loop goes on: the attempt is logged and the
    loop either stops with the value picked, or runs the remaining
    attempts from the state [IH] speaks about. *)
Ltac loop_done :=
  match goal with
  | Hrun : ret _ _ = (_, _) |- _ => unfold ret in Hrun; inversion Hrun; subst
  end;
  eexists [_]; split;
  [ eapply advanced_call;
    [ eassumption
    | cbn [metrics invalid_json_attempts total_attempts
           latency_seconds last_run_valid];
      unfold count_raised; simpl; first [reflexivity | lia] .. ]
  | simpl length; apply retry_log_last; reflexivity ].

Ltac loop_again IH d t :=
  match goal with
  | Hrun : _ = (_, _) |- _ =>
      let new := fresh "new" in
      let Hadv := fresh "Hadv" in
      let Hlog := fresh "Hlog" in
      destruct (IH _ Hrun) as (new & Hadv & Hlog);
      eexists (_ :: new); split;
      [ refine (advanced_step d t _ _ _ _ _ _ _ _ _ _ Hadv _ _);
        [ eapply advanced_call;
          [ eassumption
          | cbn [metrics invalid_json_attempts total_attempts
                 latency_seconds last_run_valid]; first [reflexivity | lia] .. ]
        | rewrite count_raised_cons; simpl; lia
        | simpl length; lia ]
      | apply retry_log_cons;
        [ reflexivity | first [exact I | reflexivity] | exact Hlog ] ]
  end.

Lemma extract_entities_loop_spec (attempts : list nat) (req : request)
    (o o' : ResumeOptimizer) (r : option ExtractedEntities) :
  extract_entities_loop attempts req o = (r, o') ->
  exists new, advanced o o' new (count_raised new) 0
              /\ retry_log pick_entities req (length attempts) new r.
Proof.
  revert o. induction attempts as [|a rest IH]; intros o Hrun.
  - inversion Hrun; subst. exists []. split; [apply advanced_refl|].
    split; [constructor | split; [reflexivity | constructor]].
  - simpl in Hrun. unfold bind, call_generate in Hrun.
    destruct (generate_response req (world o)) as [[v|e] s] eqn:Hg.
    + destruct v; simpl in Hrun; first [loop_done | loop_again IH 0%Z 0%Z].
    + simpl in Hrun. loop_again IH 1%Z 0%Z.
Qed.

Lemma analyze_alignment_loop_spec (attempts : list nat) (req : request)
    (o o' : ResumeOptimizer) (r : option AlignmentInsights) :
  analyze_alignment_loop attempts req o = (r, o') ->
  exists new, advanced o o' new (count_raised new) 0
              /\ retry_log pick_alignment req (length attempts) new r.
Proof.
  revert o. induction attempts as [|a rest IH]; intros o Hrun.
  - inversion Hrun; subst. exists []. split; [apply advanced_refl|].
    split; [constructor | split; [reflexivity | constructor]].
  - simpl in Hrun. unfold bind, call_generate in Hrun.
    destruct (generate_response req (world o)) as [[v|e] s] eqn:Hg.
    + destruct v; simpl in Hrun; first [loop_done | loop_again IH 0%Z 0%Z].
    + simpl in Hrun. loop_again IH 1%Z 0%Z.
Qed.

(** In the rewrite loop every attempt is also counted in
    [total_attempts]. *)
Lemma optimize_loop_spec (attempts : list nat) (req : request)
    (o o' : ResumeOptimizer) (r : option OptimizationResultCore) :
  optimize_loop attempts req o = (r, o') ->
  exists new, advanced o o' new (count_raised new) (Z.of_nat (length new))
              /\ retry_log pick_core req (length attempts) new r.
Proof.
  revert o. induction attempts as [|a rest IH]; intros o Hrun.
  - inversion Hrun; subst. exists []. split; [apply advanced_refl|].
    split; [constructor | split; [reflexivity | constructor]].
  - simpl in Hrun. unfold bind, call_generate in Hrun. simpl in Hrun.
    destruct (generate_response req (world o)) as [[v|e] s] eqn:Hg.
    + destruct v; simpl in Hrun; first [loop_done | loop_again IH 0%Z 1%Z].
    + simpl in Hrun. loop_again IH 1%Z 1%Z.
Qed.

(** *** What [optimize] reads from the payload *)

Definition payload_resume_text (p : Payload.t) : pystr :=
  default [] (Payload.resume_text p).

Definition payload_job_description (p : Payload.t) : pystr :=
  default [] (Payload.job_description p).

Definition payload_resume_lang (p : Payload.t) : option pystr :=
  py_or (Payload.resume_lang p) (Payload.resumeLang p).

Definition payload_jd_lang (p : Payload.t) : option pystr :=
  py_or (Payload.jd_lang p) (Payload.jdLang p).

Definition payload_desired_output_lang (p : Payload.t) : option pystr :=
  py_or (Payload.desired_output_lang p) (Payload.desiredOutputLang p).

(** The target language of the run. *)
Definition payload_target_lang (p : Payload.t) : pystr :=
  target_language (payload_desired_output_lang p) (payload_resume_lang p).

(** The request of the rewrite stage. *)
Definition rewrite_request (p : Payload.t) : request :=
  optimize_request
    (build_language_instructions (payload_resume_lang p) (payload_jd_lang p)
       (payload_desired_output_lang p))
    (payload_resume_text p) (payload_job_description p)
    (Payload.instructions p).

(** The result built when the rewrite stage gave [core] and the preview
    ended up as [preview]. *)
Definition full_result (core : OptimizationResultCore) (preview : pystr)
    (entities : ExtractedEntities) (alignment : AlignmentInsights)
    : OptimizationResult :=
  {| score := core_score core;
     missing_keywords := core_missing_keywords core;
     covered_keywords := core_covered_keywords core;
     change_log := core_change_log core;
     preview_markdown := preview;
     detected_resume_lang := None;
     detected_jd_lang := None;
     extracted_entities := Some entities;
     alignment_insights := Some alignment |}.

(** The result built when the rewrite stage gave nothing. *)
Definition fallback_result (p : Payload.t)
    (entities : ExtractedEntities) (alignment : AlignmentInsights)
    : OptimizationResult :=
  {| score := 0;
     missing_keywords := [];
     covered_keywords := [];
     change_log := failure_change_log;
     preview_markdown := payload_resume_text p;
     detected_resume_lang := None;
     detected_jd_lang := None;
     extracted_entities := Some entities;
     alignment_insights := Some alignment |}.

(** What the translation call leaves as preview. *)
Definition translated (preview : pystr) (r : result pyval) : pystr :=
  match r with
  | Returns (VStr t) => strip t
  | _ => preview
  end.

(** The last part of a run: the translation calls [l4] and the result,
    given the outcome [c] of the rewrite stage. *)
Definition finish (p : Payload.t) (c : option OptimizationResultCore)
    (entities : ExtractedEntities) (alignment : AlignmentInsights)
    (l4 : log) (res : OptimizationResult) : Prop :=
  match c with
  | None => l4 = [] /\ res = fallback_result p entities alignment
  | Some core =>
      let preview := core_preview_markdown core in
      let target_lang := payload_target_lang p in
      if needs_translation preview target_lang then
        exists r, l4 = [(translate_request preview target_lang, r)]
                  /\ res = full_result core (translated preview r) entities alignment
      else l4 = [] /\ res = full_result core preview entities alignment
  end.

Lemma extract_entities_spec (resume_text : pystr) (o o' : ResumeOptimizer)
    (entities : ExtractedEntities) :
  extract_entities resume_text o = (entities, o') ->
  exists l e, entities = default empty_entities e
              /\ advanced o o' l (count_raised l) 0
              /\ retry_log pick_entities (extract_entities_request resume_text)
                   MAX_RETRIES l e.
Proof.
  unfold extract_entities, bind. intros Hrun.
  destruct (extract_entities_loop _ _ _) as [e o1] eqn:E1.
  apply extract_entities_loop_spec in E1. destruct E1 as (l & A & L).
  exists l, e. destruct e; inversion Hrun; subst; auto.
Qed.

Lemma analyze_alignment_spec (resume_text job_description : pystr)
    (entities : ExtractedEntities) (o o' : ResumeOptimizer)
    (alignment : AlignmentInsights) :
  analyze_alignment resume_text job_description entities o = (alignment, o') ->
  exists l a, alignment = default empty_alignment a
              /\ advanced o o' l (count_raised l) 0
              /\ retry_log pick_alignment
                   (analyze_alignment_request job_description entities)
                   MAX_RETRIES l a.
Proof.
  unfold analyze_alignment, bind. intros Hrun.
  destruct (analyze_alignment_loop _ _ _) as [a o1] eqn:E1.
  apply analyze_alignment_loop_spec in E1. destruct E1 as (l & A & L).
  exists l, a. destruct a; inversion Hrun; subst; auto.
Qed.

Lemma now_spec (o o' : ResumeOptimizer) (t : float) :
  now o = (t, o') -> calls o' = calls o /\ metrics o' = metrics o.
Proof.
  unfold now. destruct (time_time (world o)). intros Hrun.
  inversion Hrun; subst. auto.
Qed.

(** [translate_markdown] issues one call, and what [optimize] keeps of its
    outcome is [translated]. *)
Lemma translate_markdown_spec (text target_lang : pystr)
    (o o' : ResumeOptimizer) (t : result pystr) :
  translate_markdown text target_lang o = (t, o') ->
  exists r, calls o' = calls o ++ [(translate_request text target_lang, r)]
            /\ genuine (translate_request text target_lang, r)
            /\ metrics o' = metrics o
            /\ match t with Returns x => x | Raises _ => text end
               = translated text r.
Proof.
  unfold translate_markdown, bind, call_generate.
  destruct (generate_response _ _) as [r s] eqn:Hg. intros Hrun. exists r.
  assert (genuine (translate_request text target_lang, r))
    by (exists (world o); cbn [fst snd]; rewrite Hg; reflexivity).
  destruct r as [[]|]; inversion Hrun; subst; auto.
Qed.

(** The anatomy of a run of [optimize]: the calls it adds to the log,
    stage by stage, the metrics it returns, and its result. *)
Lemma optimize_spec (p : Payload.t) (o o' : ResumeOptimizer)
    (res : OptimizationResult) (m : ReliabilityMetrics) :
  optimize p o = ((res, m), o') ->
  exists (l1 l2 l3 l4 : log) (e : option ExtractedEntities)
         (a : option AlignmentInsights) (c : option OptimizationResultCore),
    calls o' = calls o ++ l1 ++ l2 ++ l3 ++ l4
    /\ Forall genuine (l1 ++ l2 ++ l3 ++ l4)
    /\ retry_log pick_entities (extract_entities_request (payload_resume_text p))
         MAX_RETRIES l1 e
    /\ retry_log pick_alignment
         (analyze_alignment_request (payload_job_description p)
            (default empty_entities e))
         MAX_RETRIES l2 a
    /\ retry_log pick_core (rewrite_request p) MAX_RETRIES l3 c
    /\ invalid_json_attempts m
       = (count_raised l1 + count_raised l2 + count_raised l3)%Z
    /\ total_attempts m = Z.of_nat (length l3)
    /\ last_run_valid m = is_not_None c
    /\ metrics o' = m
    /\ finish p c (default empty_entities e) (default empty_alignment a) l4 res.
Proof.
  cbv beta iota zeta delta
    [optimize bind set_metrics set_latency_seconds set_last_run_valid
     get_metrics ret].
  fold (payload_resume_text p) (payload_job_description p)
    (payload_resume_lang p) (payload_jd_lang p) (payload_desired_output_lang p).
  fold (rewrite_request p) (payload_target_lang p).
  destruct (now o) as [start_time o0] eqn:N0.
  apply now_spec in N0. destruct N0 as [C0 _].
  destruct (extract_entities _ _) as [entities o1] eqn:E1.
  apply extract_entities_spec in E1.
  destruct E1 as (l1 & e & -> & (C1 & G1 & I1 & T1 & _) & L1).
  destruct (analyze_alignment _ _ _ _) as [alignment o2] eqn:E2.
  apply analyze_alignment_spec in E2.
  destruct E2 as (l2 & a & -> & (C2 & G2 & I2 & T2 & _) & L2).
  destruct (optimize_loop _ _ _) as [c o3] eqn:E3.
  apply optimize_loop_spec in E3.
  destruct E3 as (l3 & (C3 & G3 & I3 & T3 & _) & L3).
  destruct (now o3) as [end_time o4] eqn:N4.
  apply now_spec in N4. destruct N4 as [C4 M4].
  simpl in C1, I1, T1.
  cbn [world metrics calls invalid_json_attempts total_attempts
       latency_seconds last_run_valid].
  assert (Hcalls : calls o4 = calls o ++ l1 ++ l2 ++ l3)
    by (rewrite C4, C3, C2, C1, C0, <- !app_assoc; reflexivity).
  assert (Hinv : invalid_json_attempts (metrics o4)
                 = (count_raised l1 + count_raised l2 + count_raised l3)%Z)
    by (rewrite M4; lia).
  assert (Htot : total_attempts (metrics o4) = Z.of_nat (length l3))
    by (rewrite M4; lia).
  assert (Hgen : Forall genuine (l1 ++ l2 ++ l3))
    by (rewrite !Forall_app; auto).
  clear C0 C1 C2 C3 C4 I1 I2 I3 T1 T2 T3 M4 G1 G2 G3.
  intros Hrun. exists l1, l2, l3.
  destruct c as [core|].
  - destruct (needs_translation (core_preview_markdown core) (payload_target_lang p))
      eqn:NT.
    + destruct (translate_markdown _ _ _) as [t o6] eqn:E6.
      apply translate_markdown_spec in E6. destruct E6 as (r & C6 & G6 & M6 & Tr).
      cbn [world metrics calls] in C6, M6.
      exists [(translate_request (core_preview_markdown core) (payload_target_lang p), r)],
        e, a, (Some core).
      assert (Hres : res = full_result core (translated (core_preview_markdown core) r)
                             (default empty_entities e) (default empty_alignment a)
                     /\ m = metrics o6 /\ o' = o6)
        by (rewrite <- Tr; destruct t; inversion Hrun; subst; auto).
      destruct Hres as (-> & -> & ->).
      rewrite C6, M6, Hcalls, <- !app_assoc. cbn [invalid_json_attempts total_attempts last_run_valid].
      split; [reflexivity|].
      split; [rewrite !app_assoc; apply Forall_app; split;
              [rewrite <- !app_assoc; assumption | constructor; [assumption|constructor]]|].
      repeat (split; [first [reflexivity | assumption]|]).
      unfold finish. cbv zeta. rewrite NT. exists r. split; reflexivity.
    + exists [], e, a, (Some core). inversion Hrun; subst.
      cbn [world metrics calls invalid_json_attempts total_attempts last_run_valid].
      rewrite Hcalls, !app_nil_r.
      repeat (split; [first [reflexivity | assumption]|]).
      unfold finish. cbv zeta. rewrite NT. split; reflexivity.
  - exists [], e, a, None. inversion Hrun; subst.
    cbn [world metrics calls invalid_json_attempts total_attempts last_run_valid].
    rewrite Hcalls, !app_nil_r.
    repeat (split; [first [reflexivity | assumption]|]).
    split; reflexivity.
Qed.

(** *** A run, by its three parts *)

Definition run_result (p : Payload.t) (o : ResumeOptimizer) : OptimizationResult :=
  fst (fst (optimize p o)).

Definition run_metrics (p : Payload.t) (o : ResumeOptimizer) : ReliabilityMetrics :=
  snd (fst (optimize p o)).

Definition run_state (p : Payload.t) (o : ResumeOptimizer) : ResumeOptimizer :=
  snd (optimize p o).

Lemma run_eq (p : Payload.t) (o : ResumeOptimizer) :
  optimize p o = ((run_result p o, run_metrics p o), run_state p o).
Proof.
  unfold run_result, run_metrics, run_state.
  destruct (optimize p o) as [[res m] o']. reflexivity.
Qed.

(** A retry loop against a backend that rejects its request every time
    makes all its attempts and comes back empty-handed. *)
Lemma retry_log_rejected {X} (pick : pyval -> option X) (req : request)
    (n : nat) (l : log) (r : option X) :
  retry_log pick req n l r -> Forall genuine l ->
  (forall s, raised (fst (generate_response req s)) = true) ->
  r = None /\ length l = n /\ count_raised l = Z.of_nat n.
Proof.
  intros [Hreq Hr] Hgen Hfail.
  assert (Hall : Forall (fun c => raised (snd c) = true) l).
  { rewrite Forall_forall in *. intros c Hc.
    destruct (Hgen c Hc) as [s Hs]. rewrite <- Hs, (Hreq c Hc). apply Hfail. }
  destruct r as [x|].
  - destruct Hr as (l' & v & -> & _).
    apply Forall_app in Hall. destruct Hall as [_ Hlast].
    inversion Hlast; subst. discriminate.
  - destruct Hr as [Hlen _]. repeat split; [assumption|].
    rewrite <- Hlen. clear -Hall. unfold count_raised.
    induction Hall as [|c l Hc _ IH]; simpl; [reflexivity|].
    rewrite Hc. simpl length. lia.
Qed.

(** C6. Against a backend that raises a schema-validation error on every
    call, [extract_entities] returns the all-empty entity structure after
    exactly three attempts, each of which is counted in
    [invalid_json_attempts] (three in all on fresh metrics); the error is
    never passed on, the method returns. *)
Theorem extract_entities_exhausted (resume_text : pystr) (o : ResumeOptimizer) :
  (forall req s, exists msg,
      fst (generate_response req s) = Raises (ValidationError msg)) ->
  exists o' r1 r2 r3,
    extract_entities resume_text o
    = ({| skills := []; tools := []; education := []; experience := [];
          contact := None |}, o')
    /\ calls o' = calls o ++ [ (extract_entities_request resume_text, r1);
                               (extract_entities_request resume_text, r2);
                               (extract_entities_request resume_text, r3) ]
    /\ invalid_json_attempts (metrics o')
       = (invalid_json_attempts (metrics o) + 3)%Z
    /\ (invalid_json_attempts (metrics o) = 0%Z ->
        invalid_json_attempts (metrics o') = 3%Z).
Proof.
  intros Hinvalid.
  destruct (extract_entities resume_text o) as [entities o'] eqn:Hrun.
  destruct (extract_entities_spec _ _ _ _ Hrun)
    as (l & e & -> & (Hcalls & Hgen & Hinv & _) & Hlog).
  destruct (retry_log_rejected _ _ _ _ _ Hlog Hgen) as (-> & Hlen & Hcount).
  { intros s. destruct (Hinvalid (extract_entities_request resume_text) s) as [msg ->].
    reflexivity. }
  destruct Hlog as [Hreq _].
  destruct l as [|[q1 r1] [|[q2 r2] [|[q3 r3] [|]]]]; try discriminate.
  inversion Hreq as [|? ? E1 Hreq2]; subst.
  inversion Hreq2 as [|? ? E2 Hreq3]; subst.
  inversion Hreq3 as [|? ? E3 _]; subst.
  cbn [fst] in *. subst.
  exists o', r1, r2, r3. rewrite Hcount in Hinv. change (Z.of_nat MAX_RETRIES) with 3%Z in Hinv.
  repeat split; try assumption. lia.
Qed.

(** The calls a run adds to the log, and those of them that carry a given
    schema. *)
Definition new_calls (p : Payload.t) (o : ResumeOptimizer) : log :=
  drop (length (calls o)) (calls (run_state p o)).

Definition has_schema (t : schema) (c : request * result pyval) : bool :=
  match json_schema (fst c), t with
  | Some ExtractedEntitiesT, ExtractedEntitiesT => true
  | Some AlignmentInsightsT, AlignmentInsightsT => true
  | Some OptimizationResultCoreT, OptimizationResultCoreT => true
  | _, _ => false
  end.

Definition stage_calls (t : schema) (l : log) : log := List.filter (has_schema t) l.

Lemma stage_calls_all (t : schema) (req : request) (l : log) :
  json_schema req = Some t -> Forall (fun c => fst c = req) l -> stage_calls t l = l.
Proof.
  intros Hreq Hl. unfold stage_calls.
  induction Hl as [|c l Hc _ IH]; cbn [List.filter]; [reflexivity|].
  unfold has_schema at 1. rewrite Hc, Hreq, IH. destruct t; reflexivity.
Qed.

Lemma stage_calls_none (t : schema) (req : request) (l : log) :
  json_schema req <> Some t -> Forall (fun c => fst c = req) l -> stage_calls t l = [].
Proof.
  intros Hreq Hl. unfold stage_calls.
  induction Hl as [|c l Hc _ IH]; cbn [List.filter]; [reflexivity|].
  unfold has_schema at 1. rewrite Hc, IH.
  destruct (json_schema req) as [[]|], t; try reflexivity; congruence.
Qed.

(** The rewrite calls of a run are the calls of its third stage. *)
Lemma rewrite_calls_of_run (p : Payload.t) (o : ResumeOptimizer) :
  exists (l3 l4 : log) (e : option ExtractedEntities)
         (a : option AlignmentInsights) (c : option OptimizationResultCore),
    stage_calls OptimizationResultCoreT (new_calls p o) = l3
    /\ retry_log pick_core (rewrite_request p) MAX_RETRIES l3 c
    /\ last_run_valid (run_metrics p o) = is_not_None c
    /\ finish p c (default empty_entities e) (default empty_alignment a) l4
         (run_result p o).
Proof.
  destruct (optimize_spec _ _ _ _ _ (run_eq p o))
    as (l1 & l2 & l3 & l4 & e & a & c & Hcalls & _ & Q1 & Q2 & L3
        & _ & _ & Hvalid & _ & Hfin).
  exists l3, l4, e, a, c.
  split; [|split; [exact L3|split; [exact Hvalid|exact Hfin]]].
  destruct Q1 as [Q1 _]. destruct Q2 as [Q2 _].
  assert (S4 : stage_calls OptimizationResultCoreT l4 = []).
  { unfold finish in Hfin. destruct c as [core|].
    - cbv zeta in Hfin. destruct (needs_translation _ _).
      + destruct Hfin as (r & -> & _). reflexivity.
      + destruct Hfin as [-> _]. reflexivity.
    - destruct Hfin as [-> _]. reflexivity. }
  assert (S1 : stage_calls OptimizationResultCoreT l1 = []).
  { eapply stage_calls_none; [|exact Q1].
    change (Some ExtractedEntitiesT <> Some OptimizationResultCoreT). discriminate. }
  assert (S2 : stage_calls OptimizationResultCoreT l2 = []).
  { eapply stage_calls_none; [|exact Q2].
    change (Some AlignmentInsightsT <> Some OptimizationResultCoreT). discriminate. }
  assert (S3 : stage_calls OptimizationResultCoreT l3 = l3).
  { eapply stage_calls_all; [|exact (proj1 L3)]. reflexivity. }
  unfold new_calls. rewrite Hcalls, drop_app_length.
  unfold stage_calls in *. rewrite !List.filter_app, S1, S2, S3, S4, app_nil_r.
  reflexivity.
Qed.

(** C4. When every attempt of the rewrite stage of a run raises, there are
    three of them and [optimize] still returns: the result has score 0, no
    missing and no covered keywords, the one change-log entry that records the
    failure, and the input resume text as its preview; the metrics say the run
    was not valid. *)
Theorem optimize_rewrite_exhausted (p : Payload.t) (o : ResumeOptimizer) :
  Forall (fun c => raised (snd c) = true)
    (stage_calls OptimizationResultCoreT (new_calls p o)) ->
  exists res m o',
    optimize p o = ((res, m), o')
    /\ length (stage_calls OptimizationResultCoreT (new_calls p o)) = 3%nat
    /\ score res = 0%Z
    /\ missing_keywords res = []
    /\ covered_keywords res = []
    /\ change_log res = [u "Error: Failed to parse LLM response after retries"]
    /\ preview_markdown res = default [] (Payload.resume_text p)
    /\ last_run_valid m = false.
Proof.
  intros Hfail.
  exists (run_result p o), (run_metrics p o), (run_state p o).
  split; [apply run_eq|].
  destruct (rewrite_calls_of_run p o)
    as (l3 & l4 & e & a & c & Hl3 & [_ L3] & Hvalid & Hfin).
  rewrite Hl3 in *. destruct c as [core|].
  - destruct L3 as (l' & v & -> & _).
    apply Forall_app in Hfail. destruct Hfail as [_ Hlast].
    inversion Hlast; subst. discriminate.
  - destruct L3 as [Hlen _]. destruct Hfin as [_ ->].
    rewrite Hvalid. repeat split. exact Hlen.
Qed.

(** C2, as the code has it. Against a backend that fails every call, the
    three stages make nine attempts and all nine are counted in
    [invalid_json_attempts], but [total_attempts] is 3: only the attempts
    of the rewrite stage are counted in it. *)
Theorem total_attempts_counts_rewrite_only (p : Payload.t) (o : ResumeOptimizer) :
  (forall req s, raised (fst (generate_response req s)) = true) ->
  exists new,
    calls (run_state p o) = calls o ++ new
    /\ length new = 9%nat
    /\ invalid_json_attempts (run_metrics p o) = 9%Z
    /\ total_attempts (run_metrics p o) = 3%Z.
Proof.
  intros Hfail.
  destruct (optimize_spec _ _ _ _ _ (run_eq p o))
    as (l1 & l2 & l3 & l4 & e & a & c & Hcalls & Hgen & L1 & L2 & L3
        & Hinv & Htot & _ & _ & Hfin).
  rewrite !Forall_app in Hgen. destruct Hgen as (G1 & G2 & G3 & _).
  destruct (retry_log_rejected _ _ _ _ _ L1 G1) as (_ & N1 & R1); [intros; apply Hfail|].
  destruct (retry_log_rejected _ _ _ _ _ L2 G2) as (_ & N2 & R2); [intros; apply Hfail|].
  destruct (retry_log_rejected _ _ _ _ _ L3 G3) as (-> & N3 & R3); [intros; apply Hfail|].
  destruct Hfin as [-> _].
  exists (l1 ++ l2 ++ l3 ++ []). split; [assumption|].
  rewrite !length_app, N1, N2, N3, Hinv, Htot, R1, R2, R3, N3.
  repeat split.
Qed.

Lemma unconstrained_app (l1 l2 : log) :
  unconstrained (l1 ++ l2) = unconstrained l1 ++ unconstrained l2.
Proof. apply List.filter_app. Qed.

Lemma unconstrained_stage (req : request) (l : log) :
  is_not_None (json_schema req) = true ->
  Forall (fun c => fst c = req) l -> unconstrained l = [].
Proof.
  intros Hreq Hl. unfold unconstrained.
  induction Hl as [|c l Hc _ IH]; simpl; [reflexivity|].
  rewrite Hc, Hreq. exact IH.
Qed.

(** C3, as the code has it. In a run whose rewrite stage succeeds with
    [core], the log grows by the calls of the three stages, none of them
    free-text and the last one the rewrite call that returned [core],
    followed by the translation calls. A translation call is issued, once,
    exactly when the preview text is not blank and either the target
    language is ["ar"] and the Arabic ratio of the preview is below 0.15,
    or the target language is ["en"] and the ratio is above 0.15. When it
    is issued and returns a string, that string, stripped, is the preview
    of the result; when it raises or returns something else the preview of
    the rewrite stage is kept, as it is when no call is issued. *)
Theorem translation_when_due (p : Payload.t) (o : ResumeOptimizer) :
  last_run_valid (run_metrics p o) = true ->
  exists core stages translation,
    calls (run_state p o) = calls o ++ stages ++ translation
    /\ unconstrained stages = []
    /\ last stages = Some (rewrite_request p, Returns (VCore core))
    /\ unconstrained (stages ++ translation) = translation
    /\ let preview := core_preview_markdown core in
       let target_lang := payload_target_lang p in
       let ratio := arabic_ratio preview in
       if negb (is_empty (strip preview))
          && ((bool_decide (target_lang = u "ar") && PrimFloat.ltb ratio 0.15)
              || (bool_decide (target_lang = u "en") && PrimFloat.ltb 0.15 ratio))
       then
         exists r, translation = [(translate_request preview target_lang, r)]
                   /\ preview_markdown (run_result p o)
                      = match r with
                        | Returns (VStr t) => strip t
                        | _ => preview
                        end
       else translation = [] /\ preview_markdown (run_result p o) = preview.
Proof.
  intros Hvalid.
  destruct (optimize_spec _ _ _ _ _ (run_eq p o))
    as (l1 & l2 & l3 & l4 & e & a & c & Hcalls & _ & [Q1 _] & [Q2 _] & [Q3 L3]
        & _ & _ & Hc & _ & Hfin).
  rewrite Hvalid in Hc. destruct c as [core|]; [clear Hc | discriminate].
  destruct L3 as (l' & v & El3 & Hv & _).
  destruct v; try discriminate. inversion Hv; subst c; clear Hv.
  assert (Hstages : unconstrained (l1 ++ l2 ++ l3) = []).
  { assert (U1 : unconstrained l1 = [])
      by (eapply unconstrained_stage; [|exact Q1]; reflexivity).
    assert (U2 : unconstrained l2 = [])
      by (eapply unconstrained_stage; [|exact Q2]; reflexivity).
    assert (U3 : unconstrained l3 = [])
      by (eapply unconstrained_stage; [|exact Q3]; reflexivity).
    rewrite !unconstrained_app, U1, U2, U3. reflexivity. }
  exists core, (l1 ++ l2 ++ l3), l4.
  split; [rewrite Hcalls, <- !app_assoc; reflexivity|].
  split; [exact Hstages|].
  split; [rewrite El3, !app_assoc; apply last_snoc|].
  unfold finish in Hfin. cbv zeta in *.
  rewrite OptimizerText.needs_translation_unfold in Hfin.
  rewrite unconstrained_app, Hstages. cbn [app].
  destruct (negb _ && _).
  - destruct Hfin as (r & -> & ->). split; [reflexivity|].
    exists r. split; reflexivity.
  - destruct Hfin as (-> & ->). repeat split.
Qed.
End Run.

(** *** The properties on stub backends *)

Import Stubs.

(** C6 on the stub that always fails validation. *)
Lemma extract_entities_exhausted_stub :
  exists o' r1 r2 r3,
    @extract_entities unit always_invalid (u "cv") (init tt)
    = ({| skills := []; tools := []; education := []; experience := [];
          contact := None |}, o')
    /\ calls o' = calls (init tt)
                  ++ [ (extract_entities_request (u "cv"), r1);
                       (extract_entities_request (u "cv"), r2);
                       (extract_entities_request (u "cv"), r3) ]
    /\ invalid_json_attempts (metrics o')
       = (invalid_json_attempts (metrics (init tt)) + 3)%Z
    /\ (invalid_json_attempts (metrics (init tt)) = 0%Z ->
        invalid_json_attempts (metrics o') = 3%Z).
Proof.
  apply (@extract_entities_exhausted unit always_invalid).
  intros req s. exists (u "invalid JSON"). reflexivity.
Defined.

(** C4 on the stub that fails every rewrite. *)
Lemma optimize_rewrite_exhausted_stub :
  exists res m o',
    @optimize sample_db unit rewrite_fails frozen_clock
      (payload (u "my resume") (u "the job") (Some (u "en")) (Some (u "ar")))
      (init tt)
    = ((res, m), o')
    /\ length (stage_calls OptimizationResultCoreT
                 (@new_calls sample_db unit rewrite_fails frozen_clock
                    (payload (u "my resume") (u "the job") (Some (u "en"))
                       (Some (u "ar")))
                    (init tt))) = 3%nat
    /\ score res = 0%Z
    /\ missing_keywords res = []
    /\ covered_keywords res = []
    /\ change_log res = [u "Error: Failed to parse LLM response after retries"]
    /\ preview_markdown res = u "my resume"
    /\ last_run_valid m = false.
Proof.
  apply (@optimize_rewrite_exhausted sample_db unit rewrite_fails frozen_clock).
  vm_compute. repeat constructor.
Defined.

(** C2 on the stub that always fails: nine attempts, three counted. *)
Lemma total_attempts_counts_rewrite_only_stub :
  exists new,
    calls (@run_state sample_db unit always_invalid frozen_clock
             (payload (u "cv") (u "jd") (Some (u "en")) None) (init tt))
    = calls (init tt) ++ new
    /\ length new = 9%nat
    /\ invalid_json_attempts
         (@run_metrics sample_db unit always_invalid frozen_clock
            (payload (u "cv") (u "jd") (Some (u "en")) None) (init tt)) = 9%Z
    /\ total_attempts
         (@run_metrics sample_db unit always_invalid frozen_clock
            (payload (u "cv") (u "jd") (Some (u "en")) None) (init tt)) = 3%Z.
Proof.
  apply (@total_attempts_counts_rewrite_only sample_db unit always_invalid frozen_clock).
  intros req s. reflexivity.
Defined.

(** C3 on a scripted backend: the rewrite stage returns an English preview,
    the target language is Arabic, and the one translation call returns
    text. *)
Lemma translation_when_due_stub :
  let p := payload (u "cv") (u "jd") (Some (u "en")) (Some (u "ar")) in
  let o := init (stages_then (u "# Resume") [Returns (VStr (u " translated "))]) in
  exists core stages translation,
    calls (@run_state sample_db _ scripted frozen_clock p o)
    = calls o ++ stages ++ translation
    /\ unconstrained stages = []
    /\ last stages = Some (rewrite_request p, Returns (VCore core))
    /\ unconstrained (stages ++ translation) = translation
    /\ let preview := core_preview_markdown core in
       let target_lang := payload_target_lang p in
       let ratio := @arabic_ratio sample_db preview in
       if negb (is_empty (@strip sample_db preview))
          && ((bool_decide (target_lang = u "ar") && PrimFloat.ltb ratio 0.15)
              || (bool_decide (target_lang = u "en") && PrimFloat.ltb 0.15 ratio))
       then
         exists r, translation = [(translate_request preview target_lang, r)]
                   /\ preview_markdown
                        (@run_result sample_db _ scripted frozen_clock p o)
                      = match r with
                        | Returns (VStr t) => @strip sample_db t
                        | _ => preview
                        end
       else translation = []
            /\ preview_markdown (@run_result sample_db _ scripted frozen_clock p o)
               = preview.
Proof.
  apply (@translation_when_due sample_db _ scripted frozen_clock).
  vm_compute. reflexivity.
Defined.

(** What that run does: one free-text call, whose stripped output is the
    preview of the result. *)
Example translation_once :
  let p := payload (u "cv") (u "jd") (Some (u "en")) (Some (u "ar")) in
  let o := init (stages_then (u "# Resume") [Returns (VStr (u " translated "))]) in
  unconstrained (calls (@run_state sample_db _ scripted frozen_clock p o))
  = [(translate_request (u "# Resume") (u "ar"), Returns (VStr (u " translated ")))]
  /\ preview_markdown (@run_result sample_db _ scripted frozen_clock p o)
     = u "translated".
Proof. vm_compute. split; reflexivity. Qed.

(** C3 as the claim words it fails twice over. With a blank preview and the
    target language Arabic the ratio is 0.0, below 0.15, and no translation
    call is issued; with a preview in Arabic letters and the target language
    ["fr"], which is not Arabic, the ratio is 1.0, above 0.15, and no
    translation call is issued either. In both runs the rewrite stage
    succeeds. *)
Lemma translation_not_by_ratio_alone :
  (let p := payload (u "cv") (u "jd") (Some (u "en")) (Some (u "ar")) in
   let o := init (stages_then (u "   ") []) in
   last_run_valid (@run_metrics sample_db _ scripted frozen_clock p o) = true
   /\ last (calls (@run_state sample_db _ scripted frozen_clock p o))
      = Some (rewrite_request p, Returns (VCore (core_with (u "   "))))
   /\ payload_target_lang p = u "ar"
   /\ PrimFloat.ltb (@arabic_ratio sample_db (u "   ")) 0.15 = true
   /\ unconstrained (calls (@run_state sample_db _ scripted frozen_clock p o)) = [])
  /\
  (let p := payload (u "cv") (u "jd") (Some (u "en")) (Some (u "fr")) in
   let o := init (stages_then marhaban []) in
   last_run_valid (@run_metrics sample_db _ scripted frozen_clock p o) = true
   /\ last (calls (@run_state sample_db _ scripted frozen_clock p o))
      = Some (rewrite_request p, Returns (VCore (core_with marhaban)))
   /\ payload_target_lang p = u "fr"
   /\ PrimFloat.ltb 0.15 (@arabic_ratio sample_db marhaban) = true
   /\ unconstrained (calls (@run_state sample_db _ scripted frozen_clock p o)) = []).
Proof. vm_compute. repeat split. Qed.

(** A failed translation call leaves the preview of the rewrite stage. *)
Example translation_failure_swallowed :
  let p := payload (u "cv") (u "jd") (Some (u "en")) (Some (u "ar")) in
  let o := init (stages_then (u "# Resume") [invalid]) in
  length (unconstrained (calls (@run_state sample_db _ scripted frozen_clock p o))) = 1%nat
  /\ preview_markdown (@run_result sample_db _ scripted frozen_clock p o)
     = u "# Resume".
Proof. vm_compute. split; reflexivity. Qed.

End OptimizerRun.

(** ** The queue: claiming *)

Module QueueFacts.
Import Schemas AI Worker.

Lemma older_cases (a b : pystr * TaskQueue.t) :
  (older a b = a /\ (TaskQueue.created_at (snd a) <= TaskQueue.created_at (snd b))%Z)
  \/ (older a b = b /\ (TaskQueue.created_at (snd b) < TaskQueue.created_at (snd a))%Z).
Proof.
  unfold older.
  destruct (Z.leb_spec (TaskQueue.created_at (snd a)) (TaskQueue.created_at (snd b)));
    [left | right]; split; (reflexivity || assumption).
Qed.

(** [ORDER BY created_at LIMIT 1] yields a row of the list that no row of
    the list is older than, and nothing only on the empty list. *)
Lemma first_by_created_at_spec (rows : list (pystr * TaskQueue.t)) :
  match first_by_created_at rows with
  | Some r =>
      In r rows
      /\ forall r', In r' rows ->
           (TaskQueue.created_at (snd r) <= TaskQueue.created_at (snd r'))%Z
  | None => rows = []
  end.
Proof.
  induction rows as [|a rows IH]; simpl; [reflexivity|].
  destruct (first_by_created_at rows) as [b|].
  - destruct IH as [Hin Hmin].
    destruct (older_cases a b) as [[-> Hle] | [-> Hlt]].
    + split; [left; reflexivity|].
      intros r' [<- | Hr']; [lia|]. specialize (Hmin r' Hr'). lia.
    + split; [right; assumption|].
      intros r' [<- | Hr']; [lia|]. apply Hmin; assumption.
  - subst rows. split; [left; reflexivity|].
    intros r' [<- | []]. lia.
Qed.

(** A row that the polling query can return. *)
Definition queued_optimize (row : TaskQueue.t) : Prop :=
  TaskQueue.status row = TaskStatusEnum.queued
  /\ TaskQueue.task_type row = TaskTypeEnum.optimize.

Lemma is_queued_optimize_spec (r : pystr * TaskQueue.t) :
  is_queued_optimize r = true <-> queued_optimize (snd r).
Proof.
  unfold is_queued_optimize, queued_optimize.
  rewrite andb_true_iff, !bool_decide_eq_true. reflexivity.
Qed.

Lemma in_queued_rows (tq : gmap pystr TaskQueue.t) (r : pystr * TaskQueue.t) :
  In r (List.filter is_queued_optimize (map_to_list tq))
  <-> tq !! fst r = Some (snd r) /\ queued_optimize (snd r).
Proof.
  rewrite List.filter_In, is_queued_optimize_spec, <- list_elem_of_In.
  destruct r as [k row]. rewrite elem_of_map_to_list. reflexivity.
Qed.

(** The polling query: the row it returns is a queued [optimize] row that no
    queued [optimize] row is older than; it returns nothing exactly when
    there is no such row. *)
Lemma stmt_spec (tq : gmap pystr TaskQueue.t) :
  match stmt tq with
  | Some (row_id, task_row) =>
      tq !! row_id = Some task_row
      /\ queued_optimize task_row
      /\ forall id' row', tq !! id' = Some row' -> queued_optimize row' ->
           (TaskQueue.created_at task_row <= TaskQueue.created_at row')%Z
  | None => forall id' row', tq !! id' = Some row' -> ~ queued_optimize row'
  end.
Proof.
  unfold stmt.
  pose proof (first_by_created_at_spec
                (List.filter is_queued_optimize (map_to_list tq))) as Hspec.
  destruct (first_by_created_at _) as [[row_id task_row]|].
  - destruct Hspec as [Hin Hmin]. apply in_queued_rows in Hin.
    destruct Hin as [Hrow Hq]. repeat split; try assumption; try apply Hq.
    intros id' row' Hrow' Hq'.
    apply (Hmin (id', row')). apply in_queued_rows. split; assumption.
  - intros id' row' Hrow' Hq'.
    assert (Hin : In (id', row') (List.filter is_queued_optimize (map_to_list tq)))
      by (apply in_queued_rows; split; assumption).
    rewrite Hspec in Hin. destruct Hin.
Qed.


(** The row as the claim leaves it. *)
Definition claimed_row (row : TaskQueue.t) : TaskQueue.t :=
  {| TaskQueue.task_type := TaskQueue.task_type row;
     TaskQueue.payload := TaskQueue.payload row;
     TaskQueue.status := TaskStatusEnum.processing;
     TaskQueue.attempts := TaskQueue.attempts row + 1;
     TaskQueue.last_error := TaskQueue.last_error row;
     TaskQueue.created_at := TaskQueue.created_at row |}.

(** A freshly enqueued [optimize] row. *)
Definition new_row (payload : Payload.t) (now : Z) : TaskQueue.t :=
  {| TaskQueue.task_type := TaskTypeEnum.optimize;
     TaskQueue.payload := payload;
     TaskQueue.status := TaskStatusEnum.queued;
     TaskQueue.attempts := 0;
     TaskQueue.last_error := None;
     TaskQueue.created_at := now |}.

(** What a claim does to the session. *)
Lemma claim_spec (s : Session) :
  match claim s with
  | Some (task, s') =>
      exists row,
        task_queue (pending s) !! t_id task = Some row
        /\ queued_optimize row
        /\ (forall id' row', task_queue (pending s) !! id' = Some row' ->
              queued_optimize row' ->
              (TaskQueue.created_at row <= TaskQueue.created_at row')%Z)
        /\ t_payload task = TaskQueue.payload row
        /\ t_attempts task = TaskQueue.attempts row
        /\ pending s' = with_task_queue
                          (<[t_id task := claimed_row row]> (task_queue (pending s)))
                          (pending s)
        /\ committed s' = pending s'
  | None =>
      forall id' row', task_queue (pending s) !! id' = Some row' -> ~ queued_optimize row'
  end.
Proof.
  unfold claim. pose proof (stmt_spec (task_queue (pending s))) as Hstmt.
  destruct (stmt _) as [[row_id task_row]|]; [|exact Hstmt].
  destruct Hstmt as (Hrow & Hq & Hmin).
  exists task_row. cbn [t_id t_payload t_attempts].
  repeat split; try assumption; apply Hq.
Qed.

(** The query finds a queued [optimize] row that is strictly older than
    every other one. *)
Lemma stmt_oldest (tq : gmap pystr TaskQueue.t) (row_id : pystr) (row : TaskQueue.t) :
  tq !! row_id = Some row -> queued_optimize row ->
  (forall id' row', tq !! id' = Some row' -> queued_optimize row' -> id' <> row_id ->
     (TaskQueue.created_at row < TaskQueue.created_at row')%Z) ->
  stmt tq = Some (row_id, row).
Proof.
  intros Hrow Hq Hothers. pose proof (stmt_spec tq) as Hstmt.
  destruct (stmt tq) as [[rid r]|].
  - destruct Hstmt as (Hr & Hqr & Hmin).
    destruct (decide (rid = row_id)) as [->|Hne]; [congruence|].
    specialize (Hmin _ _ Hrow Hq). specialize (Hothers _ _ Hr Hqr Hne). lia.
  - exfalso. exact (Hstmt _ _ Hrow Hq).
Qed.

Lemma claim_oldest (s : Session) (row_id : pystr) (row : TaskQueue.t) :
  task_queue (pending s) !! row_id = Some row -> queued_optimize row ->
  (forall id' row', task_queue (pending s) !! id' = Some row' ->
     queued_optimize row' -> id' <> row_id ->
     (TaskQueue.created_at row < TaskQueue.created_at row')%Z) ->
  claim s
  = Some ({| t_id := row_id; t_payload := TaskQueue.payload row;
             t_attempts := TaskQueue.attempts row |},
          commit (put_task row_id (claimed_row row) s)).
Proof.
  intros Hrow Hq Hothers. unfold claim.
  rewrite (stmt_oldest _ _ _ Hrow Hq Hothers). reflexivity.
Qed.

Lemma claim_none (s : Session) :
  (forall id' row', task_queue (pending s) !! id' = Some row' -> ~ queued_optimize row') ->
  claim s = None.
Proof.
  intros Hnone. pose proof (claim_spec s) as Hc.
  destruct (claim s) as [[task s']|]; [|reflexivity].
  destruct Hc as (row & Hrow & Hq & _). exfalso. exact (Hnone _ _ Hrow Hq).
Qed.

Lemma claimed_row_not_queued (row : TaskQueue.t) : ~ queued_optimize (claimed_row row).
Proof. intros [Hs _]. discriminate. Qed.

Lemma new_row_queued (payload : Payload.t) (now : Z) : queued_optimize (new_row payload now).
Proof. split; reflexivity. Qed.


Lemma task_queue_put (k : pystr) (row : TaskQueue.t) (s : Session) :
  task_queue (pending (commit (put_task k row s))) = <[k := row]> (task_queue (pending s)).
Proof. reflexivity. Qed.

(** Decide every lookup in a queue built by insertions. *)
Ltac queue_lookup :=
  repeat match goal with
    | H : context [task_queue (pending (commit (put_task _ _ _)))] |- _ =>
        rewrite task_queue_put in H
    | |- context [task_queue (pending (commit (put_task _ _ _)))] =>
        rewrite task_queue_put
    | H : context [<[_ := _]> _ !! _] |- _ => rewrite lookup_insert in H
    | |- context [<[_ := _]> _ !! _] => rewrite lookup_insert
    | H : context [decide (_ = _)] |- _ => destruct (decide _) in H
    | |- context [decide (_ = _)] => destruct (decide _)
    end;
  simplify_eq.

(** Three tasks enqueued at times [T1 < T2 < T3] into a queue in which
    nothing else waits are claimed in that order. *)
Lemma claim_fifo (s : Session) (id1 id2 id3 : pystr) (p1 p2 p3 : Payload.t)
    (T1 T2 T3 : Z) :
  (forall id' row', task_queue (pending s) !! id' = Some row' -> ~ queued_optimize row') ->
  id1 <> id2 -> id1 <> id3 -> id2 <> id3 ->
  (T1 < T2)%Z -> (T2 < T3)%Z ->
  let s1 := commit (enqueue_task id1 T1 TaskTypeEnum.optimize p1 s) in
  let s2 := commit (enqueue_task id2 T2 TaskTypeEnum.optimize p2 s1) in
  let s3 := commit (enqueue_task id3 T3 TaskTypeEnum.optimize p3 s2) in
  exists s4 s5 s6,
    claim s3 = Some ({| t_id := id1; t_payload := p1; t_attempts := 0 |}, s4)
    /\ claim s4 = Some ({| t_id := id2; t_payload := p2; t_attempts := 0 |}, s5)
    /\ claim s5 = Some ({| t_id := id3; t_payload := p3; t_attempts := 0 |}, s6)
    /\ claim s6 = None.
Proof.
  intros Hidle N12 N13 N23 L12 L23 s1 s2 s3.
  change (enqueue_task id1 T1 TaskTypeEnum.optimize p1 s)
    with (put_task id1 (new_row p1 T1) s) in s1.
  change (enqueue_task id2 T2 TaskTypeEnum.optimize p2 s1)
    with (put_task id2 (new_row p2 T2) s1) in s2.
  change (enqueue_task id3 T3 TaskTypeEnum.optimize p3 s2)
    with (put_task id3 (new_row p3 T3) s2) in s3.
  set (s4 := commit (put_task id1 (claimed_row (new_row p1 T1)) s3)).
  set (s5 := commit (put_task id2 (claimed_row (new_row p2 T2)) s4)).
  set (s6 := commit (put_task id3 (claimed_row (new_row p3 T3)) s5)).
  exists s4, s5, s6. subst s1 s2 s3 s4 s5 s6.
  split; [|split; [|split]].
  - apply (claim_oldest _ id1 (new_row p1 T1)).
    + queue_lookup; reflexivity.
    + apply new_row_queued.
    + intros id' row' Hl Hq Hne. queue_lookup; cbn; try lia.
      exfalso. exact (Hidle _ _ Hl Hq).
  - apply (claim_oldest _ id2 (new_row p2 T2)).
    + queue_lookup; reflexivity.
    + apply new_row_queued.
    + intros id' row' Hl Hq Hne. queue_lookup; cbn; try lia.
      * exfalso. exact (claimed_row_not_queued _ Hq).
      * exfalso. exact (Hidle _ _ Hl Hq).
  - apply (claim_oldest _ id3 (new_row p3 T3)).
    + queue_lookup; reflexivity.
    + apply new_row_queued.
    + intros id' row' Hl Hq Hne. queue_lookup; cbn; try lia.
      * exfalso. exact (claimed_row_not_queued _ Hq).
      * exfalso. exact (claimed_row_not_queued _ Hq).
      * exfalso. exact (Hidle _ _ Hl Hq).
  - apply claim_none. intros id' row' Hl Hq. queue_lookup.
    + exact (claimed_row_not_queued _ Hq).
    + exact (claimed_row_not_queued _ Hq).
    + exact (claimed_row_not_queued _ Hq).
    + exact (Hidle _ _ Hl Hq).
Qed.


(** C5. The claim step takes a queued row of type [optimize] that no other
    such row is older than ([created_at] ascending), hands back its key and
    payload, and commits it with status [processing] and [attempts] one
    higher, leaving every other row as it was; the claim that follows does not
    return the same task; and three tasks enqueued at times [T1 < T2 < T3]
    into a queue in which nothing else waits are returned by three successive
    claims in that order, after which there is nothing to claim. *)
Theorem claim_semantics :
  (forall (s s' : Session) (task : Task),
      claim s = Some (task, s') ->
      exists row,
        task_queue (pending s) !! t_id task = Some row
        /\ TaskQueue.status row = TaskStatusEnum.queued
        /\ TaskQueue.task_type row = TaskTypeEnum.optimize
        /\ (forall id' row', task_queue (pending s) !! id' = Some row' ->
              TaskQueue.status row' = TaskStatusEnum.queued ->
              TaskQueue.task_type row' = TaskTypeEnum.optimize ->
              (TaskQueue.created_at row <= TaskQueue.created_at row')%Z)
        /\ t_payload task = TaskQueue.payload row
        /\ task_queue (committed s')
           = <[t_id task := claimed_row row]> (task_queue (pending s))
        /\ TaskQueue.status (claimed_row row) = TaskStatusEnum.processing
        /\ TaskQueue.attempts (claimed_row row) = (TaskQueue.attempts row + 1)%Z
        /\ pending s' = committed s')
  /\ (forall (s s' s'' : Session) (task task' : Task),
        claim s = Some (task, s') -> claim s' = Some (task', s'') ->
        t_id task' <> t_id task)
  /\ (forall (s : Session) (id1 id2 id3 : pystr) (p1 p2 p3 : Payload.t) (T1 T2 T3 : Z),
        (forall id' row', task_queue (pending s) !! id' = Some row' ->
           ~ (TaskQueue.status row' = TaskStatusEnum.queued
              /\ TaskQueue.task_type row' = TaskTypeEnum.optimize)) ->
        id1 <> id2 -> id1 <> id3 -> id2 <> id3 ->
        (T1 < T2)%Z -> (T2 < T3)%Z ->
        let s1 := commit (enqueue_task id1 T1 TaskTypeEnum.optimize p1 s) in
        let s2 := commit (enqueue_task id2 T2 TaskTypeEnum.optimize p2 s1) in
        let s3 := commit (enqueue_task id3 T3 TaskTypeEnum.optimize p3 s2) in
        exists s4 s5 s6,
          claim s3 = Some ({| t_id := id1; t_payload := p1; t_attempts := 0 |}, s4)
          /\ claim s4 = Some ({| t_id := id2; t_payload := p2; t_attempts := 0 |}, s5)
          /\ claim s5 = Some ({| t_id := id3; t_payload := p3; t_attempts := 0 |}, s6)
          /\ claim s6 = None).
Proof.
  split; [|split].
  - intros s s' task Hclaim. pose proof (claim_spec s) as Hspec.
    rewrite Hclaim in Hspec.
    destruct Hspec as (row & Hrow & [Hst Hty] & Hmin & Hpay & _ & Hpend & Hcomm).
    exists row. repeat split; try assumption.
    + intros id' row' Hrow' Hst' Hty'. apply (Hmin id' row' Hrow'). split; assumption.
    + rewrite Hcomm, Hpend. reflexivity.
    + symmetry. assumption.
  - intros s s' s'' task task' Hclaim Hclaim' Heq.
    pose proof (claim_spec s) as Hspec. rewrite Hclaim in Hspec.
    destruct Hspec as (row & _ & _ & _ & _ & _ & Hpend & _).
    pose proof (claim_spec s') as Hspec'. rewrite Hclaim' in Hspec'.
    destruct Hspec' as (row' & Hrow' & Hq' & _).
    rewrite Hpend, Heq in Hrow'. cbn in Hrow'.
    rewrite lookup_insert_eq in Hrow'. inversion Hrow'; subst row'.
    exact (claimed_row_not_queued _ Hq').
  - intros s id1 id2 id3 p1 p2 p3 T1 T2 T3 Hidle.
    apply claim_fifo. exact Hidle.
Qed.

(** C5 on an empty queue and three tasks enqueued at times 1, 2 and 3. *)
Lemma claim_semantics_three :
  let s := get_async_db Stubs.sample_tables in
  let p := Stubs.payload (u "cv") (u "jd") (Some (u "en")) None in
  let s1 := commit (enqueue_task (u "a") 1 TaskTypeEnum.optimize p s) in
  let s2 := commit (enqueue_task (u "b") 2 TaskTypeEnum.optimize p s1) in
  let s3 := commit (enqueue_task (u "c") 3 TaskTypeEnum.optimize p s2) in
  exists s4 s5 s6,
    claim s3 = Some ({| t_id := u "a"; t_payload := p; t_attempts := 0 |}, s4)
    /\ claim s4 = Some ({| t_id := u "b"; t_payload := p; t_attempts := 0 |}, s5)
    /\ claim s5 = Some ({| t_id := u "c"; t_payload := p; t_attempts := 0 |}, s6)
    /\ claim s6 = None.
Proof.
  destruct claim_semantics as (_ & _ & Hfifo).
  apply Hfifo; try discriminate; lia.
Defined.

End QueueFacts.

(** ** The worker: what becomes of a claimed row *)

Module WorkerFacts.
Import Schemas AI Worker QueueFacts.

(** The row as the failure handler of [process_task] leaves it. *)
Definition failed_row (row : TaskQueue.t) (e : exn) : TaskQueue.t :=
  {| TaskQueue.task_type := TaskQueue.task_type row;
     TaskQueue.payload := TaskQueue.payload row;
     TaskQueue.status := TaskStatusEnum.failed;
     TaskQueue.attempts := TaskQueue.attempts row;
     TaskQueue.last_error := Some (str_exn e);
     TaskQueue.created_at := TaskQueue.created_at row |}.

Section Loop.
Context `{UnicodeDB} {S : Type} `{BaseLLMProvider float S} `{Clock S}.

(** When the [try] block of [process_task] goes through, the optimization
    is stored and the job is complete, and [task_queue] is what the open
    transaction saw at the start: no row of it is written. *)
Lemma process_task_try_returns (payload : Payload.t)
    (optimizer optimizer' : Optimizer.ResumeOptimizer) (s s' : Session) :
  process_task_try payload optimizer s = (Returns s', optimizer') ->
  task_queue (committed s') = task_queue (pending s)
  /\ exists job_id,
       Payload.job_id payload = Some job_id
       /\ jobs (committed s') !! job_id = Some JobStatusEnum.complete
       /\ length (optimizations (committed s'))
          = Datatypes.S (length (optimizations (pending s))).
Proof.
  unfold process_task_try.
  destruct (Optimizer.optimize payload optimizer) as [[result metrics] o1].
  destruct (Payload.job_id payload) as [job_id|]; [|discriminate].
  destruct (Payload.user_id payload) as [user_id|]; [|discriminate].
  unfold create_optimization. cbn [Optimization.job_id Optimization.resume_id
                                   Optimization.resume_version_id].
  match goal with
  | |- context [if ?c then _ else _] => destruct c eqn:Hfk; [|discriminate]
  end.
  intros Hrun. inversion Hrun; subst; clear Hrun.
  cbn. split; [reflexivity|]. exists job_id. split; [reflexivity|].
  rewrite !andb_true_iff in Hfk. destruct Hfk as [[Hjob _] _].
  apply bool_decide_eq_true in Hjob. destruct Hjob as [st Hst].
  split.
  - rewrite lookup_alter_eq, Hst. reflexivity.
  - rewrite length_app. cbn. lia.
Qed.

(** The row a turn leaves behind for the task it processed. *)
Definition settled_row (row : TaskQueue.t) (outcome : result Session) : TaskQueue.t :=
  match outcome with
  | Returns _ => claimed_row row
  | Raises e => failed_row (claimed_row row) e
  end.

Lemma settled_row_not_queued (row : TaskQueue.t) (outcome : result Session) :
  ~ queued_optimize (settled_row row outcome).
Proof. destruct outcome; intros [Hs _]; discriminate. Qed.

(** One turn of the worker: the oldest queued [optimize] row is claimed and
    processed, and in [task_queue] that row alone is rewritten. *)
Lemma turn_spec (environment : pystr) (w : Worker) :
  match turn environment w with
  | (Processed task, w') =>
      exists row s,
        claim (get_async_db (db w)) = Some (task, s)
        /\ task_queue (db w) !! t_id task = Some row
        /\ queued_optimize row
        /\ (forall id' row', task_queue (db w) !! id' = Some row' ->
              queued_optimize row' ->
              (TaskQueue.created_at row <= TaskQueue.created_at row')%Z)
        /\ t_payload task = TaskQueue.payload row
        /\ task_queue (db w')
           = <[t_id task :=
                 settled_row row
                   (fst (process_task_try (t_payload task) (optimizer w) s))]>
               (task_queue (db w))
  | (Slept seconds, w') =>
      w' = w /\ seconds = poll_interval environment
      /\ claim (get_async_db (db w)) = None
  end.
Proof.
  unfold turn. pose proof (claim_spec (get_async_db (db w))) as Hspec.
  destruct (claim (get_async_db (db w))) as [[task s]|]; [|repeat split].
  destruct Hspec as (row & Hrow & Hq & Hmin & Hpay & _ & Hpend & Hcomm).
  unfold process_task.
  destruct (process_task_try (t_payload task) (optimizer w) s) as [[s1|e] o1] eqn:Htry.
  - exists row, s. rewrite Htry. cbn [db fst settled_row].
    repeat split; try assumption; try apply Hq.
    apply process_task_try_returns in Htry. destruct Htry as [Htq _].
    rewrite Htq, Hpend. reflexivity.
  - assert (Hclaimed : task_queue (pending (rollback s)) !! t_id task
                       = Some (claimed_row row)).
    { cbn. rewrite Hcomm, Hpend. cbn. apply lookup_insert_eq. }
    rewrite Hclaimed. exists row, s. rewrite Htry. cbn [db fst settled_row].
    repeat split; try assumption; try apply Hq.
    cbn. rewrite Hcomm, Hpend. cbn. apply insert_insert_eq.
Qed.

(** C1, as the code has it. A turn of the worker that finds a task claims
    its row and runs [process_task] on it. When the [try] block goes through
    (the pipeline returned, the result was stored and the job was set to
    [complete]) the row is left exactly as the claim committed it, with status
    [processing]: nothing marks it [complete]. When the block raises, the row
    is marked [failed] with the error text. No other row is written. A turn
    that finds no task sleeps and changes nothing. *)
Theorem processed_row_status (environment : pystr) (w : Worker) :
  match turn environment w with
  | (Processed task, w') =>
      exists row s,
        claim (get_async_db (db w)) = Some (task, s)
        /\ task_queue (db w) !! t_id task = Some row
        /\ TaskQueue.status row = TaskStatusEnum.queued
        /\ match fst (process_task_try (t_payload task) (optimizer w) s) with
           | Returns _ =>
               task_queue (db w')
               = <[t_id task := claimed_row row]> (task_queue (db w))
               /\ TaskQueue.status (claimed_row row) = TaskStatusEnum.processing
           | Raises e =>
               task_queue (db w')
               = <[t_id task := failed_row (claimed_row row) e]> (task_queue (db w))
               /\ TaskQueue.status (failed_row (claimed_row row) e)
                  = TaskStatusEnum.failed
               /\ TaskQueue.last_error (failed_row (claimed_row row) e)
                  = Some (str_exn e)
           end
  | (Slept seconds, w') => w' = w /\ seconds = poll_interval environment
  end.
Proof.
  pose proof (turn_spec environment w) as Hturn.
  destruct (turn environment w) as [[task|seconds] w'].
  - destruct Hturn as (row & s & Hclaim & Hrow & [Hst _] & _ & _ & Hq).
    exists row, s. repeat split; try assumption.
    destruct (fst (process_task_try (t_payload task) (optimizer w) s));
      cbn [settled_row] in Hq; repeat split; assumption.
  - destruct Hturn as (-> & -> & _). split; reflexivity.
Qed.

(** A turn on a queue whose oldest queued [optimize] row is strictly older
    than the others processes that row and settles it. *)
Lemma turn_oldest (environment : pystr) (w : Worker) (row_id : pystr) (row : TaskQueue.t) :
  task_queue (db w) !! row_id = Some row -> queued_optimize row ->
  (forall id' row', task_queue (db w) !! id' = Some row' ->
     queued_optimize row' -> id' <> row_id ->
     (TaskQueue.created_at row < TaskQueue.created_at row')%Z) ->
  exists w' final,
    turn environment w
    = (Processed {| t_id := row_id; t_payload := TaskQueue.payload row;
                    t_attempts := TaskQueue.attempts row |}, w')
    /\ ~ queued_optimize final
    /\ task_queue (db w') = <[row_id := final]> (task_queue (db w)).
Proof.
  intros Hrow Hq Hothers.
  pose proof (claim_oldest (get_async_db (db w)) row_id row Hrow Hq Hothers) as Hclaim.
  pose proof (turn_spec environment w) as Hturn.
  destruct (turn environment w) as [[task|seconds] w'].
  - destruct Hturn as (row' & s & Hclaim' & Hrow' & _ & _ & _ & Htq).
    rewrite Hclaim in Hclaim'. inversion Hclaim'; subst task s; clear Hclaim'.
    cbn [t_id] in *. rewrite Hrow in Hrow'. inversion Hrow'; subst row'.
    eexists w', _. split; [reflexivity|]. split; [|exact Htq].
    apply settled_row_not_queued.
  - destruct Hturn as (_ & _ & Hnone). rewrite Hclaim in Hnone. discriminate.
Qed.

(** A turn on a queue in which nothing waits sleeps. *)
Lemma turn_idle (environment : pystr) (w : Worker) :
  (forall id' row', task_queue (db w) !! id' = Some row' -> ~ queued_optimize row') ->
  turn environment w = (Slept (poll_interval environment), w).
Proof.
  intros Hidle. unfold turn.
  rewrite (claim_none (get_async_db (db w)) Hidle). reflexivity.
Qed.

(** Close a goal about a row that is settled, or that the idle queue holds,
    or about the times of enqueueing. *)
Ltac settle :=
  first
    [ lia
    | exfalso;
      match goal with
      | F : ~ queued_optimize ?f, Hq : queued_optimize ?f |- _ => exact (F Hq)
      | Hidle : forall id' row', _ !! id' = Some row' -> ~ queued_optimize row',
        Hl : _ !! _ = Some ?r, Hq : queued_optimize ?r |- _ =>
          exact (Hidle _ _ Hl Hq)
      end ].

(** The worker processes tasks in the order of their enqueueing: three tasks
    enqueued at times [T1 < T2 < T3] into a queue in which nothing else waits
    are taken up by the next three turns in that order, whatever becomes of
    each, and the fourth turn sleeps. *)
Lemma run_worker_fifo (environment : pystr) (w : Worker)
    (id1 id2 id3 : pystr) (p1 p2 p3 : Payload.t) (T1 T2 T3 : Z) :
  (forall id' row', task_queue (db w) !! id' = Some row' -> ~ queued_optimize row') ->
  id1 <> id2 -> id1 <> id3 -> id2 <> id3 ->
  (T1 < T2)%Z -> (T2 < T3)%Z ->
  let s1 := commit (enqueue_task id1 T1 TaskTypeEnum.optimize p1 (get_async_db (db w))) in
  let s2 := commit (enqueue_task id2 T2 TaskTypeEnum.optimize p2 s1) in
  let s3 := commit (enqueue_task id3 T3 TaskTypeEnum.optimize p3 s2) in
  fst (run_worker 4 environment {| optimizer := optimizer w; db := committed s3 |})
  = [ Processed {| t_id := id1; t_payload := p1; t_attempts := 0 |};
      Processed {| t_id := id2; t_payload := p2; t_attempts := 0 |};
      Processed {| t_id := id3; t_payload := p3; t_attempts := 0 |};
      Slept (poll_interval environment) ].
Proof.
  intros Hidle N12 N13 N23 L12 L23 s1 s2 s3.
  change (enqueue_task id1 T1 TaskTypeEnum.optimize p1 (get_async_db (db w)))
    with (put_task id1 (new_row p1 T1) (get_async_db (db w))) in s1.
  change (enqueue_task id2 T2 TaskTypeEnum.optimize p2 s1)
    with (put_task id2 (new_row p2 T2) s1) in s2.
  change (enqueue_task id3 T3 TaskTypeEnum.optimize p3 s2)
    with (put_task id3 (new_row p3 T3) s2) in s3.
  set (w0 := {| optimizer := optimizer w; db := committed s3 |}).
  assert (Hq0 : task_queue (db w0)
                = <[id3 := new_row p3 T3]>
                    (<[id2 := new_row p2 T2]>
                       (<[id1 := new_row p1 T1]> (task_queue (db w)))))
    by reflexivity.
  clearbody w0. clear s1 s2 s3.
  destruct (turn_oldest environment w0 id1 (new_row p1 T1)) as (w1 & f1 & E1 & F1 & Hq1).
  { rewrite Hq0. queue_lookup; reflexivity. }
  { apply new_row_queued. }
  { intros id' row' Hl Hq Hne. rewrite Hq0 in Hl. queue_lookup; cbn; settle. }
  rewrite Hq0 in Hq1.
  destruct (turn_oldest environment w1 id2 (new_row p2 T2)) as (w2 & f2 & E2 & F2 & Hq2).
  { rewrite Hq1. queue_lookup; reflexivity. }
  { apply new_row_queued. }
  { intros id' row' Hl Hq Hne. rewrite Hq1 in Hl. queue_lookup; cbn; settle. }
  rewrite Hq1 in Hq2.
  destruct (turn_oldest environment w2 id3 (new_row p3 T3)) as (w3 & f3 & E3 & F3 & Hq3).
  { rewrite Hq2. queue_lookup; reflexivity. }
  { apply new_row_queued. }
  { intros id' row' Hl Hq Hne. rewrite Hq2 in Hl. queue_lookup; cbn; settle. }
  rewrite Hq2 in Hq3.
  assert (E4 : turn environment w3 = (Slept (poll_interval environment), w3)).
  { apply turn_idle. intros id' row' Hl Hq. rewrite Hq3 in Hl. queue_lookup; settle. }
  cbn [run_worker]. rewrite E1, E2, E3, E4. reflexivity.
Qed.

End Loop.
Import Stubs.

(** C1 at a worker whose one queued task belongs to an existing job and
    whose backend succeeds at every stage. *)
Lemma processed_row_status_stub :
  match @turn sample_db _ scripted frozen_clock (u "development")
          (sample_worker (u "job-1")) with
  | (Processed task, w') =>
      exists row s,
        claim (get_async_db (db (sample_worker (u "job-1")))) = Some (task, s)
        /\ task_queue (db (sample_worker (u "job-1"))) !! t_id task = Some row
        /\ TaskQueue.status row = TaskStatusEnum.queued
        /\ match fst (@process_task_try sample_db _ scripted frozen_clock
                        (t_payload task) (optimizer (sample_worker (u "job-1"))) s) with
           | Returns _ =>
               task_queue (db w')
               = <[t_id task := claimed_row row]>
                   (task_queue (db (sample_worker (u "job-1"))))
               /\ TaskQueue.status (claimed_row row) = TaskStatusEnum.processing
           | Raises e =>
               task_queue (db w')
               = <[t_id task := failed_row (claimed_row row) e]>
                   (task_queue (db (sample_worker (u "job-1"))))
               /\ TaskQueue.status (failed_row (claimed_row row) e)
                  = TaskStatusEnum.failed
               /\ TaskQueue.last_error (failed_row (claimed_row row) e)
                  = Some (str_exn e)
           end
  | (Slept seconds, w') =>
      w' = sample_worker (u "job-1") /\ seconds = poll_interval (u "development")
  end.
Proof.
  exact (@processed_row_status sample_db _ scripted frozen_clock (u "development")
           (sample_worker (u "job-1"))).
Defined.

(** The status of the row [task-1], the status of the job [job-1] and the
    number of stored optimizations. *)
Definition snapshot {S : Type} (w : @Worker S)
    : option TaskStatusEnum.t * option JobStatusEnum.t * nat :=
  (TaskQueue.status <$> task_queue (db w) !! u "task-1",
   jobs (db w) !! u "job-1",
   length (optimizations (db w))).

(** The successful task: the result is stored and the job is complete, but
    the row stays in [processing], and the next turn finds nothing to do. *)
Example successful_task_stays_processing :
  let w := sample_worker (u "job-1") in
  let w1 := snd (@turn sample_db _ scripted frozen_clock (u "development") w) in
  snapshot w = (Some TaskStatusEnum.queued, Some JobStatusEnum.queued, 0%nat)
  /\ snapshot w1 = (Some TaskStatusEnum.processing, Some JobStatusEnum.complete, 1%nat)
  /\ fst (@turn sample_db _ scripted frozen_clock (u "development") w1) = Slept 2.
Proof. vm_compute. repeat split. Qed.

(** A task whose job does not exist: storing the result raises, the
    transaction is rolled back and the row is marked [failed]. *)
Example failing_task_marked_failed :
  let w := sample_worker (u "job-2") in
  let w1 := snd (@turn sample_db _ scripted frozen_clock (u "production") w) in
  snapshot w1 = (Some TaskStatusEnum.failed, Some JobStatusEnum.queued, 0%nat)
  /\ (TaskQueue.last_error <$> task_queue (db w1) !! u "task-1")
     = Some (Some (u "foreign key violation")).
Proof. vm_compute. repeat split. Qed.

End WorkerFacts.

(** ** [list.sort]: a permutation, in order, and stable *)

Module SortFacts.

Section Sort.
Context {A K : Type} (ltb : K -> K -> bool) (key : A -> K).

Lemma insort_perm (x : A) (l : list A) : Permutation (insort ltb key x l) (x :: l).
Proof.
  induction l as [|y l IH]; simpl; [reflexivity|].
  destruct (ltb (key y) (key x)); [|reflexivity].
  rewrite IH. apply perm_swap.
Qed.

Lemma sort_asc_perm (l : list A) : Permutation (sort_asc ltb key l) l.
Proof.
  induction l as [|x l IH]; simpl; [reflexivity|].
  rewrite insort_perm. constructor. exact IH.
Qed.

Lemma list_sort_perm (reverse : bool) (l : list A) :
  Permutation (list_sort ltb key reverse l) l.
Proof.
  unfold list_sort. destruct reverse; [|apply sort_asc_perm].
  rewrite <- Permutation_rev, sort_asc_perm, <- Permutation_rev. reflexivity.
Qed.

(** A set [P] of keys none of which is below another: keys that are equal. *)
Definition tied (P : K -> bool) : Prop :=
  forall x y, ltb x y = true -> P x = true -> P y = true -> False.

Lemma insort_stable (P : K -> bool) (x : A) (l : list A) :
  tied P ->
  List.filter (fun a => P (key a)) (insort ltb key x l)
  = List.filter (fun a => P (key a)) (x :: l).
Proof.
  intros HP. induction l as [|y l IH]; [reflexivity|].
  cbn [insort]. destruct (ltb (key y) (key x)) eqn:Hlt; [|reflexivity].
  cbn [List.filter] in *. rewrite IH.
  destruct (P (key x)) eqn:Px; [|reflexivity].
  destruct (P (key y)) eqn:Py; [|reflexivity].
  destruct (HP _ _ Hlt Py Px).
Qed.

Lemma sort_asc_stable (P : K -> bool) (l : list A) :
  tied P ->
  List.filter (fun a => P (key a)) (sort_asc ltb key l)
  = List.filter (fun a => P (key a)) l.
Proof.
  intros HP. induction l as [|x l IH]; [reflexivity|].
  cbn [sort_asc]. rewrite (insort_stable P x _ HP).
  cbn [List.filter]. rewrite IH. reflexivity.
Qed.

Lemma filter_rev (f : A -> bool) (l : list A) :
  List.filter f (rev l) = rev (List.filter f l).
Proof.
  induction l as [|x l IH]; [reflexivity|].
  cbn [rev List.filter]. rewrite List.filter_app, IH. cbn [List.filter].
  destruct (f x); [reflexivity | apply app_nil_r].
Qed.

(** Stability: the elements whose keys lie in a set of tied keys come out in
    the order they went in, whichever way the sort runs. *)
Lemma list_sort_stable (P : K -> bool) (reverse : bool) (l : list A) :
  tied P ->
  List.filter (fun a => P (key a)) (list_sort ltb key reverse l)
  = List.filter (fun a => P (key a)) l.
Proof.
  intros HP. unfold list_sort. destruct reverse; [|apply sort_asc_stable, HP].
  rewrite filter_rev, (sort_asc_stable P _ HP), filter_rev. apply rev_involutive.
Qed.

(** The laws of [<] that make a sort come out in order. *)
Definition asymmetric : Prop :=
  forall x y, ltb x y = true -> ltb y x = false.

Definition negatively_transitive : Prop :=
  forall x y z, ltb x y = false -> ltb y z = false -> ltb x z = false.

(** No element is below an earlier one. *)
Definition ascending (l : list A) : Prop :=
  StronglySorted (fun a b => ltb (key b) (key a) = false) l.

(** No element is above an earlier one. *)
Definition descending (l : list A) : Prop :=
  StronglySorted (fun a b => ltb (key a) (key b) = false) l.

Lemma insort_ascending (x : A) (l : list A) :
  asymmetric -> negatively_transitive ->
  ascending l -> ascending (insort ltb key x l).
Proof.
  intros Hasym Hneg. unfold ascending.
  induction 1 as [|y l Hl IH Hy]; cbn [insort].
  - constructor; constructor.
  - destruct (ltb (key y) (key x)) eqn:Hlt.
    + constructor; [exact IH|].
      rewrite (insort_perm x l). constructor; [apply Hasym, Hlt | exact Hy].
    + constructor; [constructor; assumption|].
      constructor; [exact Hlt|].
      rewrite Forall_forall in *. intros z Hz.
      apply (Hneg _ (key y)); [apply Hy, Hz | exact Hlt].
Qed.

Lemma sort_asc_ascending (l : list A) :
  asymmetric -> negatively_transitive -> ascending (sort_asc ltb key l).
Proof.
  intros Hasym Hneg. induction l as [|x l IH]; cbn [sort_asc].
  - constructor.
  - apply insort_ascending; assumption.
Qed.

Lemma strongly_sorted_snoc (R : A -> A -> Prop) (l : list A) (x : A) :
  StronglySorted R l -> Forall (fun y => R y x) l -> StronglySorted R (l ++ [x]).
Proof.
  induction 1 as [|y l Hl IH Hy]; intros Hx; cbn [app].
  - constructor; constructor.
  - inversion Hx; subst. constructor; [apply IH; assumption|].
    apply Forall_app. split; [assumption | constructor; [assumption | constructor]].
Qed.

Lemma ascending_rev (l : list A) : ascending l -> descending (rev l).
Proof.
  unfold ascending, descending.
  induction 1 as [|y l Hl IH Hy]; cbn [rev]; [constructor|].
  apply strongly_sorted_snoc; [exact IH|].
  apply Forall_rev. exact Hy.
Qed.

(** With [reverse=True] the list comes out in descending order. *)
Lemma list_sort_descending (l : list A) :
  asymmetric -> negatively_transitive -> descending (list_sort ltb key true l).
Proof.
  intros Hasym Hneg. unfold list_sort.
  apply ascending_rev, sort_asc_ascending; assumption.
Qed.

End Sort.
End SortFacts.

(** ** The similarity scorer *)

Module MatcherFacts.
Import AI Matcher.

(** What the zero of the arithmetic has to satisfy for a vector of zeros to
    have norm zero. *)
Class ZeroLaws (F : Type) `{Arith F} : Prop := {
  mul_zero : fmul (of_Q 0) (of_Q 0) = of_Q 0;
  add_zero : fadd (of_Q 0) (of_Q 0) = of_Q 0;
  sqrt_zero : fsqrt (of_Q 0) = of_Q 0;
  eqb_zero : feqb (of_Q 0) (of_Q 0) = true
}.

#[export] Instance float_zero_laws : ZeroLaws float.
Proof. split; reflexivity. Qed.

#[export] Instance real_zero_laws : ZeroLaws R.
Proof.
  split; cbn.
  - unfold Q2R. cbn. lra.
  - unfold Q2R. cbn. lra.
  - replace (Q2R 0) with 0%R by (unfold Q2R; cbn; lra). apply sqrt_0.
  - destruct (Req_dec_T (Q2R 0) (Q2R 0)); [reflexivity | contradiction].
Qed.

Section Cosine.
Context {F : Type} `{Arith F}.

(** The vector of [n] zeros. *)
Definition zeros (n : nat) : list F := repeat (of_Q 0) n.

Lemma np_linalg_norm_zeros `{!ZeroLaws F} (n : nat) :
  np_linalg_norm (zeros n) = of_Q 0.
Proof.
  unfold np_linalg_norm, zeros.
  assert (Hsum : fold_left (fun acc x => fadd acc (fmul x x)) (repeat (of_Q 0) n) (of_Q 0)
                 = of_Q 0).
  { induction n as [|n IH]; [reflexivity|].
    cbn [repeat fold_left]. rewrite mul_zero, add_zero. exact IH. }
  rewrite Hsum. apply sqrt_zero.
Qed.

(** On two vectors of one length the call returns. *)
Lemma cosine_similarity_same_length (a b : list F) :
  length a = length b -> exists x, cosine_similarity a b = Returns x.
Proof.
  intros Hlen. unfold cosine_similarity, np_dot.
  rewrite bool_decide_eq_true_2 by assumption.
  destruct (feqb _ _ || feqb _ _); eexists; reflexivity.
Qed.

(** C8, as the code has it. On two vectors of the same length
    [cosine_similarity] returns a number: exactly zero, with no division
    made, when the norm of either is zero, as it is when both are empty or
    either is a vector of zeros; the quotient of the dot product by the
    product of the norms only when neither norm is zero. On two vectors of
    different lengths, one of them empty or not, [np.dot] raises and
    [cosine_similarity] raises with it. *)
Theorem cosine_similarity_cases `{!ZeroLaws F} :
  (forall a b : list F,
      length a = length b ->
      (feqb (np_linalg_norm a) (of_Q 0) = true
       \/ feqb (np_linalg_norm b) (of_Q 0) = true) ->
      cosine_similarity a b = Returns (of_Q 0))
  /\ (forall (a b : list F) (dot_product : F),
        np_dot a b = Returns dot_product ->
        feqb (np_linalg_norm a) (of_Q 0) = false ->
        feqb (np_linalg_norm b) (of_Q 0) = false ->
        cosine_similarity a b
        = Returns (fdiv dot_product (fmul (np_linalg_norm a) (np_linalg_norm b))))
  /\ (forall a b : list F,
        length a = length b -> exists x, cosine_similarity a b = Returns x)
  /\ (forall a b : list F,
        length a <> length b -> exists e, cosine_similarity a b = Raises e)
  /\ cosine_similarity [] [] = Returns (of_Q 0)
  /\ (forall (n : nat) (b : list F),
        length b = n ->
        cosine_similarity (zeros n) b = Returns (of_Q 0)
        /\ cosine_similarity b (zeros n) = Returns (of_Q 0)).
Proof.
  assert (Hzero : forall a b : list F,
             length a = length b ->
             (feqb (np_linalg_norm a) (of_Q 0) = true
              \/ feqb (np_linalg_norm b) (of_Q 0) = true) ->
             cosine_similarity a b = Returns (of_Q 0)).
  { intros a b Hlen Hnorm. unfold cosine_similarity, np_dot.
    rewrite bool_decide_eq_true_2 by assumption.
    destruct Hnorm as [-> | ->]; [reflexivity | rewrite orb_true_r; reflexivity]. }
  split; [exact Hzero|]. split; [|split; [|split; [|split]]].
  - intros a b dot_product Hdot Ha Hb. unfold cosine_similarity.
    rewrite Hdot, Ha, Hb. reflexivity.
  - exact cosine_similarity_same_length.
  - intros a b Hlen. unfold cosine_similarity, np_dot.
    rewrite bool_decide_eq_false_2 by assumption. eexists; reflexivity.
  - apply Hzero; [reflexivity|]. left.
    change (@nil F) with (zeros 0). rewrite np_linalg_norm_zeros. apply eqb_zero.
  - intros n b Hlen. split; apply Hzero.
    + unfold zeros. rewrite repeat_length. symmetry; assumption.
    + left. rewrite np_linalg_norm_zeros. apply eqb_zero.
    + unfold zeros. rewrite repeat_length. assumption.
    + right. rewrite np_linalg_norm_zeros. apply eqb_zero.
Qed.
End Cosine.

(** In exact arithmetic the divisor of the quotient is not zero. *)
Lemma real_divisor_nonzero (a b : list R) :
  feqb (np_linalg_norm a) (of_Q 0) = false ->
  feqb (np_linalg_norm b) (of_Q 0) = false ->
  fmul (np_linalg_norm a) (np_linalg_norm b) <> 0%R.
Proof.
  assert (Hnz : forall x : R, feqb x (of_Q 0) = false -> x <> 0%R).
  { intros x Hx E. subst x. cbn in Hx.
    destruct (Req_dec_T 0 (Q2R 0)) as [|C]; [discriminate|].
    apply C. unfold Q2R. cbn. lra. }
  intros Ha Hb.
  apply Rmult_integral_contrapositive_currified; apply Hnz; assumption.
Qed.

(** C8 in binary64 arithmetic. *)
Lemma cosine_similarity_cases_float :
  (forall a b : list float,
      length a = length b ->
      (feqb (np_linalg_norm a) (of_Q 0) = true
       \/ feqb (np_linalg_norm b) (of_Q 0) = true) ->
      cosine_similarity a b = Returns (of_Q 0))
  /\ (forall (a b : list float) (dot_product : float),
        np_dot a b = Returns dot_product ->
        feqb (np_linalg_norm a) (of_Q 0) = false ->
        feqb (np_linalg_norm b) (of_Q 0) = false ->
        cosine_similarity a b
        = Returns (fdiv dot_product (fmul (np_linalg_norm a) (np_linalg_norm b))))
  /\ (forall a b : list float,
        length a = length b -> exists x, cosine_similarity a b = Returns x)
  /\ (forall a b : list float,
        length a <> length b -> exists e, cosine_similarity a b = Raises e)
  /\ cosine_similarity (@nil float) [] = Returns (of_Q 0)
  /\ (forall (n : nat) (b : list float),
        length b = n ->
        cosine_similarity (zeros n) b = Returns (of_Q 0)
        /\ cosine_similarity b (zeros n) = Returns (of_Q 0)).
Proof.
  exact (@cosine_similarity_cases float float_arith float_zero_laws).
Defined.

(** C8 as the claim words it fails: with one vector empty and the other
    not, and with a vector of zeros against a longer vector, the call raises
    where the claim has it return 0.0. *)
Lemma cosine_similarity_not_total :
  @cosine_similarity float float_arith [] [1%float]
  = Raises (ValueError (u "shapes not aligned"))
  /\ @cosine_similarity float float_arith [0%float] [1%float; 2%float]
     = Raises (ValueError (u "shapes not aligned")).
Proof. split; reflexivity. Qed.

(** Identical vectors have similarity one; orthogonal ones zero. *)
Example cosine_similarity_samples :
  @cosine_similarity float float_arith [3%float; 4%float] [3%float; 4%float]
  = Returns 1%float
  /\ @cosine_similarity float float_arith [1%float; 0%float] [0%float; 1%float]
     = Returns 0%float
  /\ @cosine_similarity float float_arith [0%float; 0%float] [1%float; 2%float]
     = Returns 0%float.
Proof. vm_compute. repeat split. Qed.

(** *** The overall score in exact arithmetic *)

(** Cosine similarity as the specification words it: the dot product divided
    by the product of the two norms, and zero when either vector is empty or
    has norm zero. *)
Definition dot (a b : list R) : R :=
  fold_right Rplus 0%R (List.map (fun xy => (fst xy * snd xy)%R) (combine a b)).

Definition norm (a : list R) : R := sqrt (dot a a).

Definition cosine (a b : list R) : R :=
  if is_empty a || is_empty b then 0%R
  else if Req_dec_T (norm a) 0 then 0%R
  else if Req_dec_T (norm b) 0 then 0%R
  else (dot a b / (norm a * norm b))%R.

Lemma Q2R_0 : Q2R 0 = 0%R.
Proof. unfold Q2R. cbn. lra. Qed.

Lemma fold_left_dot (l : list (R * R)) (acc : R) :
  fold_left (fun acc xy => (acc + fst xy * snd xy)%R) l acc
  = (acc + fold_right Rplus 0 (List.map (fun xy => fst xy * snd xy) l))%R.
Proof.
  revert acc. induction l as [|xy l IH]; intros acc; cbn [fold_left fold_right List.map].
  - lra.
  - rewrite IH. lra.
Qed.

Lemma np_dot_real (a b : list R) :
  length a = length b -> np_dot a b = Returns (dot a b).
Proof.
  intros Hlen. unfold np_dot. rewrite bool_decide_eq_true_2 by assumption.
  cbn. rewrite fold_left_dot, Q2R_0. unfold dot. f_equal. lra.
Qed.

Lemma np_linalg_norm_real (a : list R) : np_linalg_norm a = norm a.
Proof.
  unfold np_linalg_norm, norm, dot. cbn. f_equal.
  assert (Hfold : forall acc,
             fold_left (fun acc x => (acc + x * x)%R) a acc
             = (acc + fold_right Rplus 0
                        (List.map (fun xy => fst xy * snd xy) (combine a a)))%R).
  { induction a as [|x a IH]; intros acc; cbn [fold_left fold_right List.map combine fst snd].
    - lra.
    - rewrite IH. lra. }
  rewrite Hfold, Q2R_0. lra.
Qed.

(** On vectors of one length, neither of them empty, the code computes the
    cosine similarity of the specification. *)
Lemma cosine_similarity_real (a b : list R) :
  a <> [] -> b <> [] -> length a = length b ->
  cosine_similarity a b = Returns (cosine a b).
Proof.
  intros Ha Hb Hlen. unfold cosine_similarity, cosine.
  rewrite (np_dot_real a b Hlen), !np_linalg_norm_real.
  destruct a; [contradiction|]. destruct b; [contradiction|].
  cbn [is_empty orb feqb fmul fdiv of_Q real_arith]. rewrite Q2R_0.
  destruct (Req_dec_T (norm (r :: a)) 0); [reflexivity|].
  destruct (Req_dec_T (norm (r0 :: b)) 0); reflexivity.
Qed.

Section Embeddings.
Context `{UnicodeDB} {F : Type} `{Arith F} {S : Type} `{BaseLLMProvider F S}.

(** The embedding [ResumeMatcher.get_embedding] obtains for a text, and the
    state of the backend after it. *)
Definition embed (text : pystr) (s : S) : list F * S :=
  match get_embedding text s with
  | (Returns embedding, s') => (embedding, s')
  | (Raises _, s') => ([], s')
  end.

(** [get_embedding] always returns. *)
Lemma get_embedding_returns (text : pystr) (s : S) :
  get_embedding text s = (Returns (fst (embed text s)), snd (embed text s)).
Proof.
  unfold embed, get_embedding.
  destruct (is_empty (strip text)); [reflexivity|].
  destruct (AI.get_embedding text s) as [[e|e] s']; reflexivity.
Qed.

(** The text of a resume section. *)
Definition section_text (sep : pystr) (items : list pystr) : pystr :=
  if is_empty items then [] else join sep items.

(** The embedding of a resume section: none for a section without text. *)
Definition section_embedding (sep : pystr) (items : list pystr) (s : S) : list F * S :=
  if is_empty (section_text sep items) then ([], s)
  else embed (section_text sep items) s.
End Embeddings.

(** Reading a dictionary of three keys. *)
Lemma getitem_three {F : Type} `{Arith F} (a b c : F) :
  getitem [(u "skills", a); (u "experience", b); (u "education", c)] (u "skills") = a
  /\ getitem [(u "skills", a); (u "experience", b); (u "education", c)] (u "experience") = b
  /\ getitem [(u "skills", a); (u "experience", b); (u "education", c)] (u "education") = c.
Proof. repeat split; reflexivity. Qed.

Section Formula.
Context `{UnicodeDB} {F : Type} `{Arith F} {S : Type} `{BaseLLMProvider F S}.

(** The similarity the code assigns to a section whose embedding is [v]. *)
Definition section_similarity (job v : list F) : F :=
  if is_empty v then of_Q 0
  else match cosine_similarity job v with
       | Returns x => x
       | Raises _ => of_Q 0
       end.

(** The weighted sum of [calculate_match_score], in the order in which the
    code adds it up. *)
Definition weighted_sum (skills experience education : F) : F :=
  fadd (fadd (fadd (of_Q 0)
                (fmul (fmul skills (of_Q 0.50)) (of_Q 100)))
          (fmul (fmul experience (of_Q 0.30)) (of_Q 100)))
    (fmul (fmul education (of_Q 0.20)) (of_Q 100)).

(** One of the three similarity blocks of [calculate_match_score]. *)
Lemma section_block (sep : pystr) (items : list pystr) (job v : list F) (s s' : S) :
  section_embedding sep items s = (v, s') ->
  (v = [] \/ length v = length job) ->
  (if is_empty (section_text sep items) then Matcher.ret (of_Q 0)
   else
     Matcher.bind (get_embedding (section_text sep items))
       (fun e => if is_empty e then Matcher.ret (of_Q 0)
                 else lift (cosine_similarity job e))) s
  = (Returns (section_similarity job v), s').
Proof.
  unfold section_embedding, section_similarity. intros Hemb Hdim.
  destruct (is_empty (section_text sep items)).
  - inversion Hemb; subst. reflexivity.
  - unfold Matcher.bind. rewrite get_embedding_returns, Hemb. cbn [fst snd].
    destruct v as [|x v]; [reflexivity|].
    cbn [is_empty]. unfold lift.
    destruct Hdim as [|Hlen]; [discriminate|].
    destruct (cosine_similarity_same_length job (x :: v)) as [c ->]; [congruence|].
    reflexivity.
Qed.

(** The scores of a run in which the job description has an embedding, in
    any arithmetic. *)
Lemma calculate_match_score_formula
    (resume_skills resume_experience resume_education : list pystr)
    (job_description : pystr) (s s1 s2 s3 s4 : S) (job sk ex ed : list F) :
  embed job_description s = (job, s1) ->
  section_embedding (u ", ") resume_skills s1 = (sk, s2) ->
  section_embedding (u " | ") resume_experience s2 = (ex, s3) ->
  section_embedding (u ", ") resume_education s3 = (ed, s4) ->
  job <> [] ->
  (sk = [] \/ length sk = length job) ->
  (ex = [] \/ length ex = length job) ->
  (ed = [] \/ length ed = length job) ->
  exists r,
    calculate_match_score resume_skills resume_experience resume_education
      job_description s = (Returns r, s4)
    /\ overall_score r
       = fround (weighted_sum (section_similarity job sk)
                   (section_similarity job ex) (section_similarity job ed)) 1
    /\ skills_score r = fround (fmul (section_similarity job sk) (of_Q 100)) 1
    /\ experience_score r = fround (fmul (section_similarity job ex) (of_Q 100)) 1
    /\ education_score r = fround (fmul (section_similarity job ed) (of_Q 100)) 1
    /\ error r = None.
Proof.
  intros Hjob Hsk Hex Hed Hne Dsk Dex Ded.
  unfold calculate_match_score.
  fold (section_text (u ", ") resume_skills)
       (section_text (u " | ") resume_experience)
       (section_text (u ", ") resume_education).
  unfold Matcher.bind at 1. rewrite get_embedding_returns, Hjob. cbn [fst snd].
  destruct job as [|j0 job']; [contradiction|]. cbn [is_empty].
  set (job := j0 :: job') in *.
  unfold Matcher.bind at 1.
  rewrite (section_block _ _ job sk s1 s2 Hsk Dsk).
  unfold Matcher.bind at 1.
  rewrite (section_block _ _ job ex s2 s3 Hex Dex).
  unfold Matcher.bind at 1.
  rewrite (section_block _ _ job ed s3 s4 Hed Ded).
  unfold Matcher.ret. eexists. split; [reflexivity|].
  cbn [overall_score skills_score experience_score education_score error].
  generalize (section_similarity job sk) (section_similarity job ex)
    (section_similarity job ed).
  intros x y z. unfold WEIGHTS, weighted_sum. cbn [fold_left fst].
  rewrite !(proj1 (getitem_three _ _ _)), !(proj1 (proj2 (getitem_three _ _ _))),
    !(proj2 (proj2 (getitem_three _ _ _))).
  repeat split.
Qed.
End Formula.

Section Overall.
Context `{UnicodeDB} {S : Type} `{BaseLLMProvider R S}.

(** The similarity of a section whose embedding is [v] to a job description
    whose embedding is [job], as the specification words it. *)
Definition similarity (job v : list R) : R := cosine job v.

Lemma section_similarity_real (job v : list R) :
  job <> [] -> (v = [] \/ length v = length job) ->
  section_similarity job v = similarity job v.
Proof.
  intros Hjob Hdim. unfold section_similarity, similarity.
  destruct v as [|x v].
  - unfold cosine. rewrite orb_true_r. cbn. apply Q2R_0.
  - cbn [is_empty]. destruct Hdim as [|Hlen]; [discriminate|].
    rewrite cosine_similarity_real; [reflexivity | assumption | discriminate | congruence].
Qed.

Lemma weighted_sum_real (x y z : R) :
  weighted_sum x y z = (100 * (0.5 * x + 0.3 * y + 0.2 * z))%R.
Proof.
  unfold weighted_sum. cbn [fadd fmul of_Q real_arith].
  assert (Q100 : Q2R 100 = 100%R) by (unfold Q2R; cbn; lra).
  assert (Q50 : Q2R 0.50 = 0.5%R) by (unfold Q2R; cbn; lra).
  assert (Q30 : Q2R 0.30 = 0.3%R) by (unfold Q2R; cbn; lra).
  assert (Q20 : Q2R 0.20 = 0.2%R) by (unfold Q2R; cbn; lra).
  rewrite Q100, Q50, Q30, Q20, Q2R_0. lra.
Qed.

End Overall.


(** The same scoring run in binary64 arithmetic: similarities
    0.7071..., 0.7071... and 0, overall score 56.6. *)
Example calculate_match_score_float :
  let r := fst (@calculate_match_score sample_db float float_arith unit
                  Stubs.axis_embeddings
                  [u "python"; u "sql"] [u "engineer"; u "analyst"] []
                  (u "data engineer") tt) in
  (overall_score <$> match r with Returns x => Some x | Raises _ => None end)
  = Some 56.6%float
  /\ (skills_score <$> match r with Returns x => Some x | Raises _ => None end)
     = Some 70.7%float.
Proof. vm_compute. split; reflexivity. Qed.

(** A job description that cannot be embedded: a zeroed result that carries
    the error marker. *)
Example calculate_match_score_no_job_embedding :
  fst (@calculate_match_score sample_db float float_arith unit Stubs.axis_embeddings
         [u "python"; u "sql"] [] [] (u "unknown") tt)
  = Returns {| overall_score := 0%float; skills_score := 0%float;
               experience_score := 0%float; education_score := 0%float;
               error := Some (u "Failed to compute embeddings");
               breakdown := None |}.
Proof. vm_compute. reflexivity. Qed.

(** *** Ranking *)

Section Ranking.
Context `{UnicodeDB} {F : Type} `{Arith F} {S : Type} `{BaseLLMProvider F S}.

(** A backend whose embeddings, when it gives any, all have dimension [d]. *)
Definition uniform (d : nat) : Prop :=
  forall text s,
    match fst (AI.get_embedding text s) with
    | Returns v => v = [] \/ length v = d
    | Raises _ => True
    end.

Lemma embed_uniform (d : nat) (text : pystr) (s : S) :
  uniform d -> fst (embed text s) = [] \/ length (fst (embed text s)) = d.
Proof.
  intros Hd. unfold embed, get_embedding.
  destruct (is_empty (strip text)); [left; reflexivity|].
  specialize (Hd text s).
  destruct (AI.get_embedding text s) as [[v|e] s']; cbn [fst] in *;
    [exact Hd | left; reflexivity].
Qed.

(** A similarity block of [calculate_match_score] returns when the
    embeddings have one dimension. *)
Lemma section_block_returns (d : nat) (text : pystr) (job : list F) (s : S) :
  uniform d -> length job = d ->
  exists x s',
    (if is_empty text then Matcher.ret (of_Q 0)
     else
       Matcher.bind (get_embedding text)
         (fun e => if is_empty e then Matcher.ret (of_Q 0)
                   else lift (cosine_similarity job e))) s
    = (Returns x, s').
Proof.
  intros Hd Hjob. destruct (is_empty text); [eexists _, _; reflexivity|].
  unfold Matcher.bind. rewrite get_embedding_returns.
  destruct (embed_uniform d text s Hd) as [Hv | Hv].
  - rewrite Hv. eexists _, _; reflexivity.
  - destruct (fst (embed text s)) as [|x v] eqn:Hemb; [eexists _, _; reflexivity|].
    cbn [is_empty]. unfold lift.
    destruct (cosine_similarity_same_length job (x :: v)) as [c Hc]; [congruence|].
    rewrite Hc. eexists _, _; reflexivity.
Qed.

Lemma calculate_match_score_returns (d : nat)
    (resume_skills resume_experience resume_education : list pystr)
    (job_description : pystr) (s : S) :
  uniform d ->
  exists r s',
    calculate_match_score resume_skills resume_experience resume_education
      job_description s = (Returns r, s').
Proof.
  intros Hd. unfold calculate_match_score.
  unfold Matcher.bind at 1. rewrite get_embedding_returns.
  destruct (embed_uniform d job_description s Hd) as [Hjob | Hjob].
  - rewrite Hjob. eexists _, _; reflexivity.
  - destruct (fst (embed job_description s)) as [|j0 job] eqn:Hemb;
      [eexists _, _; reflexivity|].
    cbn [is_empty].
    unfold Matcher.bind at 1.
    edestruct (section_block_returns d) as (x1 & s1 & ->); [exact Hd | exact Hjob |].
    unfold Matcher.bind at 1.
    edestruct (section_block_returns d) as (x2 & s2 & ->); [exact Hd | exact Hjob |].
    unfold Matcher.bind at 1.
    edestruct (section_block_returns d) as (x3 & s3 & ->); [exact Hd | exact Hjob |].
    eexists _, _; reflexivity.
Qed.

(** The entry of the ranking that belongs to a candidate. *)
Definition scored (job_description : pystr) (c : Candidate) (e : Ranked) : Prop :=
  id e = c_id c
  /\ name e = default (u "Unknown") (c_name c)
  /\ exists s,
       fst (calculate_match_score (default [] (c_skills c))
              (default [] (c_experience c)) (default [] (c_education c))
              job_description s)
       = Returns (score_data e).

Lemma rank_loop_returns (d : nat) (candidates : list Candidate)
    (job_description : pystr) (results : list Ranked) (s : S) :
  uniform d ->
  exists entries s',
    rank_loop candidates job_description results s = (Returns (results ++ entries), s')
    /\ Forall2 (scored job_description) candidates entries.
Proof.
  intros Hd. revert results s.
  induction candidates as [|c candidates IH]; intros results s.
  - exists [], s. rewrite app_nil_r. split; [reflexivity | constructor].
  - cbn [rank_loop]. unfold Matcher.bind at 1.
    destruct (calculate_match_score_returns d (default [] (c_skills c))
                (default [] (c_experience c)) (default [] (c_education c))
                job_description s Hd) as (r & s1 & Hr).
    rewrite Hr.
    destruct (IH (results ++ [{| id := c_id c;
                                 name := default (u "Unknown") (c_name c);
                                 score_data := r |}]) s1)
      as (entries & s' & Hloop & Hall).
    eexists (_ :: entries), s'. split.
    + rewrite Hloop, <- app_assoc. reflexivity.
    + constructor; [|exact Hall].
      split; [reflexivity|]. split; [reflexivity|].
      exists s. rewrite Hr. reflexivity.
Qed.

End Ranking.

Lemma real_lt_asymmetric : SortFacts.asymmetric (@fltb R real_arith).
Proof.
  intros x y. cbn.
  destruct (Rlt_dec x y), (Rlt_dec y x); intros; try reflexivity; try discriminate.
  lra.
Qed.

Lemma real_lt_negatively_transitive : SortFacts.negatively_transitive (@fltb R real_arith).
Proof.
  intros x y z. cbn.
  destruct (Rlt_dec x y), (Rlt_dec y z), (Rlt_dec x z);
    intros; try reflexivity; try discriminate.
  lra.
Qed.

Lemma axis_embeddings_uniform {F : Type} `{Arith F} :
  @uniform F unit Stubs.axis_embeddings 2.
Proof.
  intros text s. cbn.
  repeat case_bool_decide; cbn; auto.
Qed.


(** The same ranking in binary64 arithmetic: [d] scores 50.0, [a] and [c]
    score 35.4 each and keep their order, [b] scores 21.2. *)
Example rank_candidates_float :
  match fst (@rank_candidates sample_db float float_arith unit Stubs.axis_embeddings
               Stubs.sample_candidates (u "data engineer") tt) with
  | Returns results =>
      List.map (fun x => (id x, name x, overall_score (score_data x))) results
  | Raises _ => []
  end
  = [ (Some (u "d"), u "Dana", 50%float);
      (Some (u "a"), u "Amal", 35.4%float);
      (Some (u "c"), u "Chen", 35.4%float);
      (Some (u "b"), u "Unknown", 21.2%float) ].
Proof. vm_compute. reflexivity. Qed.

End MatcherFacts.

(** ** The pipeline: more of what a run does *)

Module PipelineFacts.
Import Schemas AI Optimizer OptimizerRun.

Section Run.
Context `{UnicodeDB} {S : Type} `{BaseLLMProvider float S} `{Clock S}.

(** The calls of a run, stage by stage: the calls with the schema of a stage
    are the calls of that stage, and the calls without a schema are the
    translation calls. *)
Lemma run_stages (p : Payload.t) (o : ResumeOptimizer) :
  exists (l1 l2 l3 l4 : log) (e : option ExtractedEntities)
         (a : option AlignmentInsights) (c : option OptimizationResultCore),
    new_calls p o = l1 ++ l2 ++ l3 ++ l4
    /\ stage_calls ExtractedEntitiesT (new_calls p o) = l1
    /\ stage_calls AlignmentInsightsT (new_calls p o) = l2
    /\ stage_calls OptimizationResultCoreT (new_calls p o) = l3
    /\ Forall genuine (l1 ++ l2 ++ l3 ++ l4)
    /\ retry_log pick_entities (extract_entities_request (payload_resume_text p))
         MAX_RETRIES l1 e
    /\ retry_log pick_alignment
         (analyze_alignment_request (payload_job_description p)
            (default empty_entities e))
         MAX_RETRIES l2 a
    /\ retry_log pick_core (rewrite_request p) MAX_RETRIES l3 c
    /\ invalid_json_attempts (run_metrics p o)
       = (count_raised l1 + count_raised l2 + count_raised l3)%Z
    /\ total_attempts (run_metrics p o) = Z.of_nat (length l3)
    /\ last_run_valid (run_metrics p o) = is_not_None c
    /\ finish p c (default empty_entities e) (default empty_alignment a) l4
         (run_result p o).
Proof.
  destruct (optimize_spec _ _ _ _ _ (run_eq p o))
    as (l1 & l2 & l3 & l4 & e & a & c & Hcalls & Hgen & L1 & L2 & L3
        & Hinv & Htot & Hvalid & _ & Hfin).
  exists l1, l2, l3, l4, e, a, c.
  assert (Hnew : new_calls p o = l1 ++ l2 ++ l3 ++ l4)
    by (unfold new_calls; rewrite Hcalls, drop_app_length; reflexivity).
  assert (Q4 : forall t, stage_calls t l4 = []).
  { intros t. unfold finish in Hfin. destruct c as [core|].
    - cbv zeta in Hfin. destruct (needs_translation _ _).
      + destruct Hfin as (r & -> & _). destruct t; reflexivity.
      + destruct Hfin as [-> _]. reflexivity.
    - destruct Hfin as [-> _]. reflexivity. }
  assert (Hsplit : forall t,
             stage_calls t (new_calls p o)
             = stage_calls t l1 ++ stage_calls t l2 ++ stage_calls t l3).
  { intros t. rewrite Hnew. unfold stage_calls. rewrite !List.filter_app.
    fold (stage_calls t l4). rewrite Q4, app_nil_r. reflexivity. }
  assert (A1 : stage_calls ExtractedEntitiesT l1 = l1)
    by (eapply stage_calls_all; [|exact (proj1 L1)]; reflexivity).
  assert (A2 : stage_calls AlignmentInsightsT l2 = l2)
    by (eapply stage_calls_all; [|exact (proj1 L2)]; reflexivity).
  assert (A3 : stage_calls OptimizationResultCoreT l3 = l3)
    by (eapply stage_calls_all; [|exact (proj1 L3)]; reflexivity).
  assert (N1 : forall t, t <> ExtractedEntitiesT -> stage_calls t l1 = []).
  { intros t Ht. eapply stage_calls_none; [|exact (proj1 L1)].
    change (Some ExtractedEntitiesT <> Some t). congruence. }
  assert (N2 : forall t, t <> AlignmentInsightsT -> stage_calls t l2 = []).
  { intros t Ht. eapply stage_calls_none; [|exact (proj1 L2)].
    change (Some AlignmentInsightsT <> Some t). congruence. }
  assert (N3 : forall t, t <> OptimizationResultCoreT -> stage_calls t l3 = []).
  { intros t Ht. eapply stage_calls_none; [|exact (proj1 L3)].
    change (Some OptimizationResultCoreT <> Some t). congruence. }
  split; [exact Hnew|].
  split; [rewrite Hsplit, A1, N2, N3, !app_nil_r by discriminate; reflexivity|].
  split; [rewrite Hsplit, N1, A2, N3, !app_nil_r by discriminate; reflexivity|].
  split; [rewrite Hsplit, N1, N2, A3 by discriminate; reflexivity|].
  repeat (split; [assumption|]). assumption.
Qed.

(** A retry loop none of whose answers is an instance of the expected model
    makes all its attempts and comes back empty-handed. *)
Lemma retry_log_unpicked {X} (pick : pyval -> option X) (req : request)
    (n : nat) (l : log) (r : option X) :
  retry_log pick req n l r -> Forall genuine l ->
  (forall s v, fst (generate_response req s) = Returns v -> pick v = None) ->
  r = None /\ length l = n.
Proof.
  intros [Hreq Hr] Hgen Hnone. destruct r as [x|].
  - destruct Hr as (l' & v & -> & Hv & _).
    apply Forall_app in Hgen. destruct Hgen as [_ Hlast].
    inversion Hlast as [|? ? [s Hs] _]; subst. cbn [fst snd] in Hs.
    rewrite (Hnone s v Hs) in Hv. discriminate.
  - destruct Hr as [Hlen _]. split; [reflexivity | exact Hlen].
Qed.

Lemma count_raised_bounds (l : log) : (0 <= count_raised l <= Z.of_nat (length l))%Z.
Proof.
  unfold count_raised. pose proof (List.filter_length_le (fun c => raised (snd c)) l).
  lia.
Qed.

Lemma count_raised_none (l : log) :
  Forall (fun c => raised (snd c) = false) l -> count_raised l = 0%Z.
Proof.
  unfold count_raised. induction 1 as [|c l Hc _ IH]; [reflexivity|].
  cbn [List.filter]. rewrite Hc. exact IH.
Qed.

(** A retry loop makes at least one attempt and at most [n]. *)
Lemma retry_log_length {X} (pick : pyval -> option X) (req : request)
    (n : nat) (l : log) (r : option X) :
  (0 < n)%nat -> retry_log pick req n l r -> (1 <= length l <= n)%nat.
Proof.
  intros Hn [_ Hr]. destruct r as [x|].
  - destruct Hr as (l' & v & -> & _ & Hlen & _).
    rewrite length_app in *. cbn [length] in *. lia.
  - destruct Hr as [-> _]. lia.
Qed.

(** What a retry loop hands on, read off the last call of its log. *)
Definition last_entities (l : log) : ExtractedEntities :=
  match last l with
  | Some (_, Returns (VEntities e)) => e
  | _ => empty_entities
  end.

Definition last_alignment (l : log) : AlignmentInsights :=
  match last l with
  | Some (_, Returns (VAlignment a)) => a
  | _ => empty_alignment
  end.

Lemma rejected_last {X} (pick : pyval -> option X) (l : log) :
  Forall (rejected pick) l ->
  match last l with
  | Some (_, Returns v) => pick v = None
  | _ => True
  end.
Proof.
  intros Hall. destruct (last l) as [[req [v|e]]|] eqn:Hlast; [|exact I..].
  apply last_Some in Hlast. destruct Hlast as [l' ->].
  apply Forall_app in Hall. destruct Hall as [_ Hc].
  inversion Hc; subst. assumption.
Qed.

Lemma retry_log_entities (req : request) (n : nat) (l : log)
    (e : option ExtractedEntities) :
  retry_log pick_entities req n l e -> default empty_entities e = last_entities l.
Proof.
  intros [_ Hr]. unfold last_entities. destruct e as [x|].
  - destruct Hr as (l' & v & -> & Hv & _). rewrite last_snoc.
    destruct v; try discriminate. inversion Hv; subst. reflexivity.
  - destruct Hr as [_ Hrej]. apply rejected_last in Hrej.
    destruct (last l) as [[q [[]|]]|]; try reflexivity. discriminate.
Qed.

Lemma retry_log_alignment (req : request) (n : nat) (l : log)
    (a : option AlignmentInsights) :
  retry_log pick_alignment req n l a -> default empty_alignment a = last_alignment l.
Proof.
  intros [_ Hr]. unfold last_alignment. destruct a as [x|].
  - destruct Hr as (l' & v & -> & Hv & _). rewrite last_snoc.
    destruct v; try discriminate. inversion Hv; subst. reflexivity.
  - destruct Hr as [_ Hrej]. apply rejected_last in Hrej.
    destruct (last l) as [[q [[]|]]|]; try reflexivity. discriminate.
Qed.

(** X1. Against a backend that raises on every call, [analyze_alignment]
    returns the all-empty alignment after exactly three attempts with one
    request; each of them is counted in [invalid_json_attempts], none in
    [total_attempts]; the error is not passed on. *)
Theorem analyze_alignment_exhausted (resume_text job_description : pystr)
    (entities : ExtractedEntities) (o : ResumeOptimizer) :
  (forall req s, raised (fst (generate_response req s)) = true) ->
  let req := analyze_alignment_request job_description entities in
  exists o' r1 r2 r3,
    analyze_alignment resume_text job_description entities o
    = ({| matched := []; missing := []; weak := []; evidence := [] |}, o')
    /\ calls o' = calls o ++ [(req, r1); (req, r2); (req, r3)]
    /\ invalid_json_attempts (metrics o')
       = (invalid_json_attempts (metrics o) + 3)%Z
    /\ total_attempts (metrics o') = total_attempts (metrics o).
Proof.
  intros Hfail req.
  destruct (analyze_alignment resume_text job_description entities o)
    as [alignment o'] eqn:Hrun.
  destruct (analyze_alignment_spec _ _ _ _ _ _ Hrun)
    as (l & a & -> & (Hcalls & Hgen & Hinv & Htot & _) & Hlog).
  destruct (retry_log_rejected _ _ _ _ _ Hlog Hgen) as (-> & Hlen & Hcount);
    [intros s; apply Hfail|].
  destruct Hlog as [Hreq _].
  destruct l as [|[q1 r1] [|[q2 r2] [|[q3 r3] [|]]]]; try discriminate.
  inversion Hreq as [|? ? E1 Hreq2]; subst.
  inversion Hreq2 as [|? ? E2 Hreq3]; subst.
  inversion Hreq3 as [|? ? E3 _]; subst.
  cbn [fst] in *. subst.
  exists o', r1, r2, r3. rewrite Hcount in Hinv.
  change (Z.of_nat MAX_RETRIES) with 3%Z in Hinv.
  repeat split; try assumption. lia.
Qed.

(** X2. A backend that answers every request with free text never raises,
    yet no stage gets an instance of its model: the run makes nine calls and
    ends in the fallback result with [last_run_valid] false, while
    [invalid_json_attempts] stays 0, since only attempts that raise are
    counted there. *)
Theorem free_text_answers_not_counted (p : Payload.t) (o : ResumeOptimizer) :
  (forall req s, exists t, fst (generate_response req s) = Returns (VStr t)) ->
  length (new_calls p o) = 9%nat
  /\ invalid_json_attempts (run_metrics p o) = 0%Z
  /\ total_attempts (run_metrics p o) = 3%Z
  /\ last_run_valid (run_metrics p o) = false
  /\ run_result p o = fallback_result p empty_entities empty_alignment.
Proof.
  intros Htext.
  destruct (run_stages p o)
    as (l1 & l2 & l3 & l4 & e & a & c & Hnew & _ & _ & _ & Hgen & L1 & L2 & L3
        & Hinv & Htot & Hvalid & Hfin).
  assert (Hquiet : forall l, Forall genuine l -> count_raised l = 0%Z).
  { intros l Hl. apply count_raised_none. rewrite Forall_forall in *.
    intros x Hx. destruct (Hl x Hx) as [s Hs].
    destruct (Htext (fst x) s) as [t Ht]. rewrite <- Hs, Ht. reflexivity. }
  assert (Hunpicked : forall {X} (pick : pyval -> option X),
             (forall t, pick (VStr t) = None) ->
             forall req s v, fst (generate_response req s) = Returns v -> pick v = None).
  { intros X pick Hpick req s v Hv. destruct (Htext req s) as [t Ht].
    rewrite Ht in Hv. inversion Hv; subst. apply Hpick. }
  rewrite !Forall_app in Hgen. destruct Hgen as (G1 & G2 & G3 & _).
  destruct (retry_log_unpicked _ _ _ _ _ L1 G1) as [-> N1];
    [apply Hunpicked; reflexivity|].
  destruct (retry_log_unpicked _ _ _ _ _ L2 G2) as [-> N2];
    [apply Hunpicked; reflexivity|].
  destruct (retry_log_unpicked _ _ _ _ _ L3 G3) as [-> N3];
    [apply Hunpicked; reflexivity|].
  destruct Hfin as [-> ->].
  rewrite Hnew, !length_app, N1, N2, N3, Hinv, Htot, Hvalid, N3,
    !Hquiet by assumption.
  repeat split.
Qed.

(** X3. Every run, whatever the backend answers and whatever metrics the
    optimizer held before: between three and ten generation calls are made;
    [total_attempts] is the number of rewrite calls, between 1 and 3, and is
    3 when the run is not valid; [invalid_json_attempts] is the number of
    calls of the three stages that raised, at most 9: a translation call
    that raises is not counted. *)
Theorem run_bounds (p : Payload.t) (o : ResumeOptimizer) :
  let new := new_calls p o in
  let m := run_metrics p o in
  calls (run_state p o) = calls o ++ new
  /\ (3 <= length new <= 10)%nat
  /\ total_attempts m = Z.of_nat (length (stage_calls OptimizationResultCoreT new))
  /\ (1 <= total_attempts m <= 3)%Z
  /\ invalid_json_attempts m
     = (count_raised (stage_calls ExtractedEntitiesT new)
        + count_raised (stage_calls AlignmentInsightsT new)
        + count_raised (stage_calls OptimizationResultCoreT new))%Z
  /\ (0 <= invalid_json_attempts m <= 9)%Z
  /\ (last_run_valid m = false -> total_attempts m = 3%Z).
Proof.
  intros new m. subst new m.
  destruct (run_stages p o)
    as (l1 & l2 & l3 & l4 & e & a & c & Hnew & S1 & S2 & S3 & _ & L1 & L2 & L3
        & Hinv & Htot & Hvalid & Hfin).
  rewrite S1, S2, S3.
  assert (Hpos : (0 < MAX_RETRIES)%nat) by (unfold MAX_RETRIES; lia).
  pose proof (retry_log_length _ _ _ _ _ Hpos L1) as B1.
  pose proof (retry_log_length _ _ _ _ _ Hpos L2) as B2.
  pose proof (retry_log_length _ _ _ _ _ Hpos L3) as B3.
  unfold MAX_RETRIES in *.
  assert (B4 : (length l4 <= 1)%nat).
  { unfold finish in Hfin. destruct c as [core|].
    - cbv zeta in Hfin. destruct (needs_translation _ _).
      + destruct Hfin as (r & -> & _). cbn. lia.
      + destruct Hfin as [-> _]. cbn. lia.
    - destruct Hfin as [-> _]. cbn. lia. }
  pose proof (count_raised_bounds l1). pose proof (count_raised_bounds l2).
  pose proof (count_raised_bounds l3).
  split.
  { destruct (optimize_spec _ _ _ _ _ (run_eq p o))
      as (k1 & k2 & k3 & k4 & _ & _ & _ & Hcalls & _).
    unfold new_calls. rewrite Hcalls, drop_app_length. reflexivity. }
  split; [rewrite Hnew, !length_app; lia|].
  split; [exact Htot|]. split; [lia|]. split; [exact Hinv|]. split; [lia|].
  intros Hv. rewrite Hvalid in Hv. destruct c; [discriminate|].
  destruct L3 as [_ [Hlen _]]. rewrite Htot, Hlen. reflexivity.
Qed.

(** X4. What a run hands back besides the preview. The requests: every call
    of the first stage carries the extraction request for the resume text,
    every call of the second the alignment request for the job description
    and the entities the first stage ended with, every call of the third
    the rewrite request, which is built from the payload alone. The result:
    [extracted_entities] and [alignment_insights] are always present and
    are what the first two stages ended with (the all-empty structures when
    a stage gave nothing), the detected languages are never filled in, and
    when the run is valid the score, the keyword lists and the change log
    are those of the instance the last rewrite call returned, unchanged. *)
Theorem run_result_parts (p : Payload.t) (o : ResumeOptimizer) :
  let new := new_calls p o in
  let l1 := stage_calls ExtractedEntitiesT new in
  let l2 := stage_calls AlignmentInsightsT new in
  let l3 := stage_calls OptimizationResultCoreT new in
  let res := run_result p o in
  Forall (fun c => fst c = extract_entities_request (default [] (Payload.resume_text p))) l1
  /\ Forall (fun c => fst c
                      = analyze_alignment_request
                          (default [] (Payload.job_description p))
                          (last_entities l1)) l2
  /\ Forall (fun c => fst c = rewrite_request p) l3
  /\ extracted_entities res = Some (last_entities l1)
  /\ alignment_insights res = Some (last_alignment l2)
  /\ detected_resume_lang res = None
  /\ detected_jd_lang res = None
  /\ (if last_run_valid (run_metrics p o) then
        exists core,
          last l3 = Some (rewrite_request p, Returns (VCore core))
          /\ score res = core_score core
          /\ missing_keywords res = core_missing_keywords core
          /\ covered_keywords res = core_covered_keywords core
          /\ change_log res = core_change_log core
      else Forall (rejected pick_core) l3).
Proof.
  intros new l1 l2 l3 res. subst new l1 l2 l3 res.
  destruct (run_stages p o)
    as (l1 & l2 & l3 & l4 & e & a & c & Hnew & S1 & S2 & S3 & _ & L1 & L2 & L3
        & _ & _ & Hvalid & Hfin).
  rewrite S1, S2, S3, Hvalid.
  rewrite <- (retry_log_entities _ _ _ _ L1), <- (retry_log_alignment _ _ _ _ L2).
  split; [exact (proj1 L1)|]. split; [exact (proj1 L2)|]. split; [exact (proj1 L3)|].
  assert (Hres : exists preview core_like,
             run_result p o
             = {| score := score core_like;
                  missing_keywords := missing_keywords core_like;
                  covered_keywords := covered_keywords core_like;
                  change_log := change_log core_like;
                  preview_markdown := preview;
                  detected_resume_lang := None;
                  detected_jd_lang := None;
                  extracted_entities := Some (default empty_entities e);
                  alignment_insights := Some (default empty_alignment a) |}
             /\ match c with
                | Some core =>
                    score core_like = core_score core
                    /\ missing_keywords core_like = core_missing_keywords core
                    /\ covered_keywords core_like = core_covered_keywords core
                    /\ change_log core_like = core_change_log core
                | None => True
                end).
  { unfold finish in Hfin. destruct c as [core|].
    - cbv zeta in Hfin. destruct (needs_translation _ _).
      + destruct Hfin as (r & _ & ->). eexists _, (full_result core [] empty_entities empty_alignment).
        split; [reflexivity | repeat split].
      + destruct Hfin as [_ ->]. eexists _, (full_result core [] empty_entities empty_alignment).
        split; [reflexivity | repeat split].
    - destruct Hfin as [_ ->]. eexists _, (fallback_result p empty_entities empty_alignment).
      split; [reflexivity | exact I]. }
  destruct Hres as (preview & core_like & -> & Hcore).
  cbn [extracted_entities alignment_insights detected_resume_lang detected_jd_lang
       score missing_keywords covered_keywords change_log].
  repeat (split; [reflexivity|]).
  destruct c as [core|]; cbn [is_not_None].
  - exists core. destruct L3 as [_ (l' & v & -> & Hv & _)].
    destruct v; try discriminate. inversion Hv; subst.
    split; [apply last_snoc | exact Hcore].
  - exact (proj2 (proj2 L3)).
Qed.

End Run.

Section Text.
Context `{UnicodeDB}.

(** X5. A text that is not blank and has no letter in it (digits,
    punctuation) has Arabic ratio 0.0: it is due for translation when the
    target language is Arabic, and not when it is English. *)
Theorem needs_translation_without_letters (text : pystr) :
  strip text <> [] ->
  Forall (fun ch => isalpha ch = false) text ->
  arabic_ratio text = 0%float
  /\ needs_translation text (u "ar") = true
  /\ needs_translation text (u "en") = false.
Proof.
  intros Hblank Hletters.
  assert (Hratio : arabic_ratio text = 0%float).
  { unfold arabic_ratio.
    assert (Hnone : List.filter isalpha text = []).
    { clear Hblank. induction Hletters as [|ch text Hch _ IH]; [reflexivity|].
      cbn [List.filter]. rewrite Hch. exact IH. }
    rewrite Hnone. reflexivity. }
  split; [exact Hratio|].
  unfold needs_translation. rewrite Hratio.
  destruct (strip text); [contradiction|]. cbn [is_empty].
  split; reflexivity.
Qed.
End Text.

(** *** On stub backends *)

Import Stubs.

(** A backend that ignores the schema it is given and answers every request
    with free text. *)
Definition always_text {F : Type} : BaseLLMProvider F unit := {|
  generate_response req s := (Returns (VStr (user_prompt req)), s);
  get_embedding _ s := (Returns [], s)
|}.

(** X1 on the stub whose every call fails validation. *)
Lemma analyze_alignment_exhausted_stub :
  let req := analyze_alignment_request (u "jd") sample_entities in
  exists o' r1 r2 r3,
    @analyze_alignment unit always_invalid (u "cv") (u "jd") sample_entities (init tt)
    = ({| matched := []; missing := []; weak := []; evidence := [] |}, o')
    /\ calls o' = calls (init tt) ++ [(req, r1); (req, r2); (req, r3)]
    /\ invalid_json_attempts (metrics o')
       = (invalid_json_attempts (metrics (init tt)) + 3)%Z
    /\ total_attempts (metrics o') = total_attempts (metrics (init tt)).
Proof.
  apply (@analyze_alignment_exhausted unit always_invalid).
  intros req s. reflexivity.
Defined.

(** X2 on the stub that answers with free text. *)
Lemma free_text_answers_not_counted_stub :
  let p := payload (u "cv") (u "jd") (Some (u "en")) None in
  length (@new_calls sample_db unit always_text frozen_clock p (init tt)) = 9%nat
  /\ invalid_json_attempts
       (@run_metrics sample_db unit always_text frozen_clock p (init tt)) = 0%Z
  /\ total_attempts
       (@run_metrics sample_db unit always_text frozen_clock p (init tt)) = 3%Z
  /\ last_run_valid
       (@run_metrics sample_db unit always_text frozen_clock p (init tt)) = false
  /\ @run_result sample_db unit always_text frozen_clock p (init tt)
     = fallback_result p empty_entities empty_alignment.
Proof.
  apply (@free_text_answers_not_counted sample_db unit always_text frozen_clock).
  intros req s. exists (user_prompt req). reflexivity.
Defined.

(** X5 on a preview that is a year. *)
Lemma needs_translation_without_letters_digits :
  @arabic_ratio sample_db (u "2024") = 0%float
  /\ @needs_translation sample_db (u "2024") (u "ar") = true
  /\ @needs_translation sample_db (u "2024") (u "en") = false.
Proof.
  apply (@needs_translation_without_letters sample_db (u "2024")).
  - vm_compute. discriminate.
  - vm_compute. repeat constructor.
Defined.

(** A run in which the first stage needs a second attempt and the rewrite
    stage a third one: six calls, two of them counted as invalid, three
    counted in [total_attempts]. *)
Example run_with_retries :
  let p := payload (u "cv") (u "jd") (Some (u "en")) None in
  let o := init [ invalid; Returns (VEntities sample_entities);
                  Returns (VAlignment sample_alignment);
                  Returns (VStr (u "not JSON")); invalid;
                  Returns (VCore (core_with (u "# Resume"))) ] in
  let m := @run_metrics sample_db _ scripted frozen_clock p o in
  length (@new_calls sample_db _ scripted frozen_clock p o) = 6%nat
  /\ invalid_json_attempts m = 2%Z
  /\ total_attempts m = 3%Z
  /\ last_run_valid m = true
  /\ score (@run_result sample_db _ scripted frozen_clock p o) = 70%Z.
Proof. vm_compute. repeat split. Qed.

End PipelineFacts.

(** ** The similarity scorer: ranges, symmetries and failures *)

Module ScorerFacts.
Import AI Matcher MatcherFacts.

(** *** Cosine similarity in exact arithmetic *)

Lemma dot_nonneg (a : list R) : (0 <= dot a a)%R.
Proof.
  unfold dot. induction a as [|x a IH]; cbn [combine List.map fold_right fst snd].
  - lra.
  - nra.
Qed.

(** The inequality of Cauchy and Schwarz. *)
Lemma dot_square_le (a b : list R) :
  length a = length b -> (dot a b * dot a b <= dot a a * dot b b)%R.
Proof.
  revert b. induction a as [|x a IH]; intros [|y b] Hlen; try discriminate.
  - unfold dot. cbn. lra.
  - injection Hlen as Hlen. specialize (IH b Hlen).
    pose proof (dot_nonneg a) as HA. pose proof (dot_nonneg b) as HB.
    unfold dot in *. cbn [combine List.map fold_right fst snd].
    set (A := fold_right Rplus 0%R (List.map (fun xy => (fst xy * snd xy)%R) (combine a a))) in *.
    set (B := fold_right Rplus 0%R (List.map (fun xy => (fst xy * snd xy)%R) (combine b b))) in *.
    set (D := fold_right Rplus 0%R (List.map (fun xy => (fst xy * snd xy)%R) (combine a b))) in *.
    clearbody A B D.
    destruct (Req_dec A 0) as [HA0 | HA0].
    + assert (HD : D = 0%R) by nra. subst A D. nra.
    + assert (Hpos : (0 < A)%R) by lra.
      assert (Hkey : (0 <= A * ((x * x + A) * (y * y + B) - (x * y + D) * (x * y + D)))%R).
      { replace (A * ((x * x + A) * (y * y + B) - (x * y + D) * (x * y + D)))%R
          with ((y * A - x * D) * (y * A - x * D) + (x * x + A) * (A * B - D * D))%R by ring.
        pose proof (Rle_0_sqr (y * A - x * D)) as Hsq. unfold Rsqr in Hsq. nra. }
      nra.
Qed.

Lemma abs_dot_le (a b : list R) :
  length a = length b -> (Rabs (dot a b) <= norm a * norm b)%R.
Proof.
  intros Hlen. unfold norm.
  rewrite <- sqrt_mult by apply dot_nonneg.
  rewrite <- sqrt_Rsqr_abs. apply sqrt_le_1.
  - apply Rle_0_sqr.
  - apply Rmult_le_pos; apply dot_nonneg.
  - unfold Rsqr. apply dot_square_le, Hlen.
Qed.

Lemma norm_nonneg (a : list R) : (0 <= norm a)%R.
Proof. apply sqrt_pos. Qed.

(** What the code computes on two real vectors of one length. *)
Lemma cosine_similarity_quotient (a b : list R) :
  length a = length b ->
  cosine_similarity a b
  = Returns (if Req_dec_T (norm a) 0 then 0%R
             else if Req_dec_T (norm b) 0 then 0%R
             else (dot a b / (norm a * norm b))%R).
Proof.
  intros Hlen. unfold cosine_similarity.
  rewrite (np_dot_real a b Hlen), !np_linalg_norm_real.
  cbn [feqb fmul fdiv of_Q real_arith]. rewrite Q2R_0.
  destruct (Req_dec_T (norm a) 0); [reflexivity|].
  destruct (Req_dec_T (norm b) 0); reflexivity.
Qed.

(** The quotient lies between -1 and 1. *)
Lemma cosine_similarity_bounded (a b : list R) :
  length a = length b ->
  exists x, cosine_similarity a b = Returns x /\ (-1 <= x <= 1)%R.
Proof.
  intros Hlen. rewrite (cosine_similarity_quotient a b Hlen).
  eexists. split; [reflexivity|].
  destruct (Req_dec_T (norm a) 0) as [|Ha]; [lra|].
  destruct (Req_dec_T (norm b) 0) as [|Hb]; [lra|].
  pose proof (norm_nonneg a). pose proof (norm_nonneg b).
  assert (Hpos : (0 < norm a * norm b)%R) by (apply Rmult_lt_0_compat; lra).
  pose proof (abs_dot_le a b Hlen) as Habs.
  assert (Hd : (- (norm a * norm b) <= dot a b <= norm a * norm b)%R)
    by (unfold Rabs in Habs; destruct (Rcase_abs (dot a b)); lra).
  split.
  - apply Rmult_le_reg_r with (norm a * norm b)%R; [exact Hpos|].
    unfold Rdiv. rewrite Rmult_assoc, Rinv_l by lra. lra.
  - apply Rmult_le_reg_r with (norm a * norm b)%R; [exact Hpos|].
    unfold Rdiv. rewrite Rmult_assoc, Rinv_l by lra. lra.
Qed.


Lemma cosine_similarity_mismatch {F : Type} `{Arith F} (a b : list F) :
  length a <> length b ->
  cosine_similarity a b = Raises (ValueError (u "shapes not aligned")).
Proof.
  intros Hlen. unfold cosine_similarity, np_dot.
  rewrite bool_decide_eq_false_2 by assumption. reflexivity.
Qed.

Lemma dot_comm (a b : list R) : dot a b = dot b a.
Proof.
  unfold dot. revert b. induction a as [|x a IH]; intros [|y b];
    cbn [combine List.map fold_right fst snd]; try reflexivity.
  rewrite IH. ring.
Qed.

Lemma dot_scale (k : R) (a b : list R) :
  dot (List.map (Rmult k) a) b = (k * dot a b)%R.
Proof.
  unfold dot. revert b. induction a as [|x a IH]; intros [|y b];
    cbn [combine List.map fold_right fst snd]; try ring.
  rewrite IH. ring.
Qed.

Lemma norm_scale (k : R) (a : list R) :
  (0 < k)%R -> norm (List.map (Rmult k) a) = (k * norm a)%R.
Proof.
  intros Hk. unfold norm.
  rewrite dot_scale, (dot_comm a), dot_scale.
  replace (k * (k * dot a a))%R with ((k * k) * dot a a)%R by ring.
  rewrite sqrt_mult; [|nra|apply dot_nonneg].
  rewrite sqrt_square by lra. reflexivity.
Qed.


(** *** Rounding keeps a score within whole bounds *)

Lemma real_round_range (x : R) (lo hi : Z) :
  (IZR lo <= x * 10 <= IZR hi)%R ->
  (IZR lo / 10 <= real_round x 1 <= IZR hi / 10)%R.
Proof.
  intros [Hlo Hhi]. unfold real_round.
  change (IZR (10 ^ 1)) with 10%R.
  set (y := (x * 10)%R) in *.
  pose proof (base_Int_part y) as [Hfloor Hceil].
  assert (Hfrac : frac_part y = (y - IZR (Int_part y))%R) by reflexivity.
  set (n := Int_part y) in *.
  assert (Hn_hi : (n <= hi)%Z) by (apply le_IZR; lra).
  assert (Hn_lo : (lo <= n)%Z).
  { assert (IZR lo < IZR (n + 1))%R by (rewrite plus_IZR; lra).
    apply lt_IZR in H. lia. }
  assert (Hup : (0 < frac_part y)%R -> (n + 1 <= hi)%Z).
  { intros Hf. assert (IZR n < IZR hi)%R by lra. apply lt_IZR in H. lia. }
  assert (Hbound : forall m : Z, (lo <= m <= hi)%Z ->
                     (IZR lo / 10 <= IZR m / 10 <= IZR hi / 10)%R).
  { intros m [H1 H2]. apply IZR_le in H1, H2. lra. }
  destruct (Rlt_dec (frac_part y) (1 / 2)); [apply Hbound; lia|].
  destruct (Rlt_dec (1 / 2) (frac_part y)).
  - apply Hbound. assert (n + 1 <= hi)%Z by (apply Hup; lra). lia.
  - destruct (Z.even n); apply Hbound; [lia|].
    assert (n + 1 <= hi)%Z by (apply Hup; lra). lia.
Qed.

Section Failures.
Context `{UnicodeDB} {F : Type} `{Arith F} {S : Type} `{BaseLLMProvider F S}.

(** The dictionary [calculate_match_score] returns when it has no embedding
    of the job description. *)
Definition no_score : MatchScore :=
  {| overall_score := of_Q 0;
     skills_score := of_Q 0;
     experience_score := of_Q 0;
     education_score := of_Q 0;
     error := Some (u "Failed to compute embeddings");
     breakdown := None |}.

Lemma calculate_match_score_no_job
    (resume_skills resume_experience resume_education : list pystr)
    (job_description : pystr) (s : S) :
  fst (embed job_description s) = [] ->
  calculate_match_score resume_skills resume_experience resume_education
    job_description s
  = (Returns no_score, snd (embed job_description s)).
Proof.
  intros Hjob. unfold calculate_match_score.
  unfold Matcher.bind at 1. rewrite get_embedding_returns, Hjob. reflexivity.
Qed.

(** X8. A job description that has no embedding (it is blank, or the backend
    raises on it, or the backend gives the empty vector) makes
    [calculate_match_score] return the zeroed dictionary with the error
    marker, whatever the resume sections hold; nothing is raised, the
    sections are not embedded, and for a blank job description the backend
    is not called at all. *)
Theorem calculate_match_score_without_job_embedding
    (resume_skills resume_experience resume_education : list pystr)
    (job_description : pystr) (s : S) :
  (is_empty (strip job_description) = true
   \/ (exists e, fst (AI.get_embedding job_description s) = Raises e)
   \/ fst (AI.get_embedding job_description s) = Returns []) ->
  calculate_match_score resume_skills resume_experience resume_education
    job_description s
  = (Returns no_score,
     if is_empty (strip job_description) then s
     else snd (AI.get_embedding job_description s)).
Proof.
  intros Hcase.
  assert (Hembed : embed job_description s
                   = ([], if is_empty (strip job_description) then s
                          else snd (AI.get_embedding job_description s))).
  { unfold embed, get_embedding.
    destruct (is_empty (strip job_description)); [reflexivity|].
    destruct Hcase as [Hblank | [[e He] | Hnone]]; [discriminate| |].
    - destruct (AI.get_embedding job_description s) as [r s']. cbn [fst] in He.
      subst r. reflexivity.
    - destruct (AI.get_embedding job_description s) as [r s']. cbn [fst] in Hnone.
      subst r. reflexivity. }
  rewrite calculate_match_score_no_job by (rewrite Hembed; reflexivity).
  rewrite Hembed. reflexivity.
Qed.

(** A list whose keys are all one key that is not below itself is sorted
    as it stands. *)
Lemma list_sort_constant {A K : Type} (ltb : K -> K -> bool) (key : A -> K)
    (k : K) (reverse : bool) (l : list A) :
  ltb k k = false -> Forall (fun x => key x = k) l ->
  list_sort ltb key reverse l = l.
Proof.
  intros Hk.
  assert (Hasc : forall l, Forall (fun x => key x = k) l -> sort_asc ltb key l = l).
  { induction 1 as [|x l' Hx Hl' IH]; [reflexivity|].
    cbn [sort_asc]. rewrite IH. destruct Hl' as [|y l'' Hy _]; [reflexivity|].
    cbn [insort]. rewrite Hy, Hx, Hk. reflexivity. }
  intros Hl. unfold list_sort. destruct reverse; [|apply Hasc, Hl].
  rewrite Hasc by (apply Forall_rev; exact Hl). apply rev_involutive.
Qed.

(** The entry of a candidate that could not be scored. *)
Definition unscored (c : Candidate) : Ranked :=
  {| id := c_id c; name := default (u "Unknown") (c_name c); score_data := no_score |}.

Lemma rank_loop_unscored (candidates : list Candidate) (job_description : pystr)
    (results : list Ranked) (s : S) :
  (forall s, fst (embed job_description s) = []) ->
  exists s',
    rank_loop candidates job_description results s
    = (Returns (results ++ List.map unscored candidates), s').
Proof.
  intros Hjob. revert results s.
  induction candidates as [|c candidates IH]; intros results s.
  - exists s. cbn. rewrite app_nil_r. reflexivity.
  - cbn [rank_loop List.map]. unfold Matcher.bind at 1.
    rewrite calculate_match_score_no_job by apply Hjob.
    destruct (IH (results ++ [unscored c]) (snd (embed job_description s)))
      as [s' Hs'].
    exists s'. unfold unscored at 1 in Hs'. rewrite Hs', <- app_assoc. reflexivity.
Qed.

(** X9. When the job description has no embedding, whatever the state of
    the backend (it is blank, or the provider has no embeddings, as
    [AnthropicProvider.get_embedding], which returns the empty list),
    [rank_candidates] scores nobody: it returns one entry for each
    candidate, in the order of the input, each with the zeroed dictionary
    and the error marker. *)
Theorem rank_candidates_without_job_embedding (candidates : list Candidate)
    (job_description : pystr) (s : S) :
  (is_empty (strip job_description) = true
   \/ forall s, fst (AI.get_embedding job_description s) = Returns []) ->
  fltb (of_Q 0) (of_Q 0) = false ->
  exists s',
    rank_candidates candidates job_description s
    = (Returns (List.map unscored candidates), s').
Proof.
  intros Hcase Hzero.
  assert (Hjob : forall s, fst (embed job_description s) = []).
  { intros s0. unfold embed, get_embedding.
    destruct (is_empty (strip job_description)); [reflexivity|].
    destruct Hcase as [|Hnone]; [discriminate|]. specialize (Hnone s0).
    destruct (AI.get_embedding job_description s0) as [r s']. cbn [fst] in Hnone.
    subst r. reflexivity. }
  destruct (rank_loop_unscored candidates job_description [] s Hjob) as [s' Hloop].
  exists s'. unfold rank_candidates, Matcher.bind. rewrite Hloop. unfold Matcher.ret.
  cbn [app]. f_equal. f_equal.
  apply (list_sort_constant _ _ (of_Q 0)); [exact Hzero|].
  clear. induction candidates as [|c candidates IH]; constructor;
    [reflexivity | exact IH].
Qed.
End Failures.

Section Range.
Context `{UnicodeDB} {S : Type} `{BaseLLMProvider R S}.

Lemma section_embedding_uniform (d : nat) (sep : pystr) (items : list pystr) (s : S) :
  uniform d ->
  fst (section_embedding sep items s) = []
  \/ length (fst (section_embedding sep items s)) = d.
Proof.
  intros Hd. unfold section_embedding.
  destruct (is_empty (section_text sep items)); [left; reflexivity|].
  apply embed_uniform, Hd.
Qed.

Lemma section_similarity_range (job v : list R) :
  (v = [] \/ length v = length job) ->
  (-1 <= section_similarity job v <= 1)%R.
Proof.
  intros Hdim. unfold section_similarity. destruct v as [|x v].
  - cbn. rewrite Q2R_0. lra.
  - cbn [is_empty]. destruct Hdim as [|Hlen]; [discriminate|].
    destruct (cosine_similarity_bounded job (x :: v)) as (c & -> & Hc); [congruence|].
    exact Hc.
Qed.

End Range.

(** *** On stub backends *)

(** X8 on a job description for which the backend has the empty vector. *)
Lemma calculate_match_score_without_job_embedding_stub :
  @calculate_match_score sample_db float float_arith unit Stubs.axis_embeddings
    [u "python"; u "sql"] [u "engineer"] [] (u "unknown") tt
  = (Returns no_score,
     if is_empty (@strip sample_db (u "unknown")) then tt
     else snd (@AI.get_embedding float unit Stubs.axis_embeddings (u "unknown") tt)).
Proof.
  apply (@calculate_match_score_without_job_embedding sample_db float float_arith
           unit Stubs.axis_embeddings).
  right. right. reflexivity.
Defined.

(** X9 on the four sample candidates and a blank job description. *)
Lemma rank_candidates_without_job_embedding_stub :
  exists s',
    @rank_candidates sample_db float float_arith unit Stubs.axis_embeddings
      Stubs.sample_candidates (u "  ") tt
    = (Returns (List.map unscored Stubs.sample_candidates), s').
Proof.
  apply (@rank_candidates_without_job_embedding sample_db float float_arith unit
           Stubs.axis_embeddings).
  - left. vm_compute. reflexivity.
  - reflexivity.
Defined.


(** A backend whose embedding of the skills text points away from the
    embedding of every other text. *)
Definition opposed_embeddings : BaseLLMProvider float unit := {|
  AI.generate_response _ s := (Stubs.invalid, s);
  AI.get_embedding text s :=
    (if bool_decide (text = u "cobol") then Returns [(-1)%float; 0%float]
     else Returns [1%float; 0%float], s)
|}.

(** In binary64 arithmetic too a score can be negative: skills that point
    away from the job description score -100, and the overall score is
    -50. *)
Example negative_score :
  match fst (@calculate_match_score sample_db float float_arith unit opposed_embeddings
               [u "cobol"] [] [] (u "rust engineer") tt) with
  | Returns r => (overall_score r, skills_score r)
  | Raises _ => (0%float, 0%float)
  end
  = ((-50)%float, (-100)%float).
Proof. vm_compute. reflexivity. Qed.

End ScorerFacts.

(** ** The worker: what it stores, and in which order it works *)

Module DispatchFacts.
Import Schemas AI Worker QueueFacts WorkerFacts OptimizerRun.

(** The row of [optimizations] that [process_task] builds from the payload
    and the outcome of the pipeline. *)
Definition stored_optimization (p : Payload.t) (job_id user_id : pystr)
    (res : OptimizationResult) (m : ReliabilityMetrics) : Optimization.t :=
  {| Optimization.user_id := user_id;
     Optimization.resume_id := py_or (Payload.resume_id p) None;
     Optimization.resume_version_id := py_or (Payload.resume_version_id p) None;
     Optimization.job_id := job_id;
     Optimization.score := score res;
     Optimization.report_json := (res, m);
     Optimization.preview_md := preview_markdown res;
     Optimization.change_log := change_log res |}.

(** The tables after the [try] block of [process_task] went through. *)
Definition stored (t : Tables) (job_id : pystr) (row : Optimization.t) : Tables :=
  {| task_queue := task_queue t;
     jobs := alter (fun _ => JobStatusEnum.complete) job_id (jobs t);
     optimizations := optimizations t ++ [row];
     resumes := resumes t;
     resume_versions := resume_versions t |}.

(** The queued [optimize] rows of a queue. *)
Definition queued_rows (tq : gmap pystr TaskQueue.t) : list (pystr * TaskQueue.t) :=
  List.filter is_queued_optimize (map_to_list tq).

(** The dictionary [task] that the loop builds from a row. *)
Definition task_of (r : pystr * TaskQueue.t) : Task :=
  {| t_id := fst r;
     t_payload := TaskQueue.payload (snd r);
     t_attempts := TaskQueue.attempts (snd r) |}.

Definition not_younger (r r' : pystr * TaskQueue.t) : Prop :=
  (TaskQueue.created_at (snd r) <= TaskQueue.created_at (snd r'))%Z.

(** A payload whose result can be stored in the tables [t]: it names a job
    that exists and a user, and the resume and the resume version it names,
    if any (an empty key counts as none), exist. *)
Definition storable (p : Payload.t) (t : Tables) : Prop :=
  (exists job_id, Payload.job_id p = Some job_id /\ is_Some (jobs t !! job_id))
  /\ is_Some (Payload.user_id p)
  /\ fk_ok (py_or (Payload.resume_id p) None) (resumes t) = true
  /\ fk_ok (py_or (Payload.resume_version_id p) None) (resume_versions t) = true.

Section Loop.
Context `{UnicodeDB} {S : Type} `{BaseLLMProvider float S} `{Clock S}.

(** The two ways the [try] block of [process_task] ends. The pipeline has
    run in both. *)
Lemma process_task_try_cases (p : Payload.t) (o : Optimizer.ResumeOptimizer)
    (s : Session) :
  (exists job_id user_id,
      Payload.job_id p = Some job_id
      /\ Payload.user_id p = Some user_id
      /\ is_Some (jobs (pending s) !! job_id)
      /\ fk_ok (py_or (Payload.resume_id p) None) (resumes (pending s)) = true
      /\ fk_ok (py_or (Payload.resume_version_id p) None)
           (resume_versions (pending s)) = true
      /\ let t := stored (pending s) job_id
                    (stored_optimization p job_id user_id
                       (run_result p o) (run_metrics p o)) in
         process_task_try p o s
         = (Returns {| committed := t; pending := t |}, run_state p o))
  \/ (exists e,
        process_task_try p o s = (Raises e, run_state p o)
        /\ match Payload.job_id p, Payload.user_id p with
           | None, _ => e = KeyError (u "job_id")
           | Some _, None => e = KeyError (u "user_id")
           | Some job_id, Some _ =>
               e = IntegrityError (u "foreign key violation")
               /\ (jobs (pending s) !! job_id = None
                   \/ fk_ok (py_or (Payload.resume_id p) None)
                        (resumes (pending s)) = false
                   \/ fk_ok (py_or (Payload.resume_version_id p) None)
                        (resume_versions (pending s)) = false)
           end).
Proof.
  unfold process_task_try. rewrite (run_eq p o).
  destruct (Payload.job_id p) as [job_id|]; [|right; eexists; split; reflexivity].
  destruct (Payload.user_id p) as [user_id|]; [|right; eexists; split; reflexivity].
  unfold create_optimization.
  cbn [Optimization.job_id Optimization.resume_id Optimization.resume_version_id].
  destruct (bool_decide (is_Some (jobs (pending s) !! job_id))) eqn:Hjob.
  - apply bool_decide_eq_true in Hjob.
    destruct (fk_ok (py_or (Payload.resume_id p) None) (resumes (pending s))) eqn:Hr.
    + destruct (fk_ok (py_or (Payload.resume_version_id p) None)
                  (resume_versions (pending s))) eqn:Hv.
      * left. exists job_id, user_id. repeat split; try assumption.
      * right. eexists. split; [reflexivity|]. split; [reflexivity|]. auto.
    + right. eexists. split; [reflexivity|]. split; [reflexivity|]. auto.
  - apply bool_decide_eq_false in Hjob.
    right. eexists. split; [reflexivity|]. split; [reflexivity|]. left.
    destruct (jobs (pending s) !! job_id) eqn:E; [|reflexivity].
    exfalso. apply Hjob. eexists; reflexivity.
Qed.


(** What a turn does to the tables other than [task_queue] and to the
    optimizer. *)
Lemma turn_tables (environment : pystr) (w : Worker) :
  match turn environment w with
  | (Processed task, w') =>
      let p := t_payload task in
      optimizer w' = run_state p (optimizer w)
      /\ resumes (db w') = resumes (db w)
      /\ resume_versions (db w') = resume_versions (db w)
      /\ ((exists job_id user_id,
              Payload.job_id p = Some job_id
              /\ Payload.user_id p = Some user_id
              /\ storable p (db w)
              /\ jobs (db w')
                 = alter (fun _ => JobStatusEnum.complete) job_id (jobs (db w))
              /\ optimizations (db w')
                 = optimizations (db w)
                   ++ [stored_optimization p job_id user_id
                         (run_result p (optimizer w)) (run_metrics p (optimizer w))])
          \/ (jobs (db w') = jobs (db w)
              /\ optimizations (db w') = optimizations (db w)
              /\ ~ storable p (db w)))
  | (Slept _, w') => w' = w
  end.
Proof.
  unfold turn. pose proof (claim_spec (get_async_db (db w))) as Hspec.
  destruct (claim (get_async_db (db w))) as [[task s]|]; [|reflexivity].
  destruct Hspec as (row & Hrow & Hq & Hmin & Hpay & _ & Hpend & Hcomm).
  assert (Hjobs : jobs (pending s) = jobs (db w)) by (rewrite Hpend; reflexivity).
  assert (Hopts : optimizations (pending s) = optimizations (db w))
    by (rewrite Hpend; reflexivity).
  assert (Hres : resumes (pending s) = resumes (db w)) by (rewrite Hpend; reflexivity).
  assert (Hver : resume_versions (pending s) = resume_versions (db w))
    by (rewrite Hpend; reflexivity).
  unfold process_task.
  destruct (process_task_try_cases (t_payload task) (optimizer w) s)
    as [(job_id & user_id & Hj & Hu & Hjob & Hr & Hv & Htry) | (e & Htry & He)].
  - cbv zeta in Htry. rewrite Htry. cbn [optimizer db committed stored resumes
                                          resume_versions jobs optimizations].
    rewrite Hjobs, Hopts, Hres, Hver in *.
    repeat split. left. exists job_id, user_id.
    split; [assumption|]. split; [assumption|]. split; [|split; reflexivity].
    split; [exists job_id; split; assumption|].
    rewrite Hu. repeat split; first [assumption | eexists; reflexivity].
  - rewrite Htry.
    assert (Hfail : ~ storable (t_payload task) (db w)).
    { intros ((job_id & Hj & [st Hjob]) & [user_id Hu] & Hr & Hv).
      rewrite Hj, Hu, Hjobs, Hres, Hver in He.
      destruct He as [_ [E | [E | E]]]; congruence. }
    destruct (task_queue (pending (rollback s)) !! t_id task) as [task_row|];
      cbn [optimizer db committed commit rollback put_task pending with_task_queue
           resumes resume_versions jobs optimizations];
      rewrite Hcomm, Hjobs, Hopts, Hres, Hver; repeat split; right; repeat split;
      exact Hfail.
Qed.


Lemma run_worker_step (n : nat) (environment : pystr) (w : Worker) :
  run_worker (Datatypes.S n) environment w
  = (fst (turn environment w) :: fst (run_worker n environment (snd (turn environment w))),
     snd (run_worker n environment (snd (turn environment w)))).
Proof.
  cbn [run_worker]. destruct (turn environment w) as [t w1]. cbn [fst snd].
  destruct (run_worker n environment w1) as [ts w2]. reflexivity.
Qed.

(** The statuses of [jobs] after the worker has run: each is what it was,
    or [complete]. *)
Definition kept_or_complete (before after : gmap pystr JobStatusEnum.t) : Prop :=
  forall job_id,
    after !! job_id = before !! job_id
    \/ (is_Some (before !! job_id) /\ after !! job_id = Some JobStatusEnum.complete).

(** The rows of [optimizations] after the worker has run: the rows there
    were, followed by new ones, each for a job that is [complete]. *)
Definition appended_for_complete (before : list Optimization.t) (after : Tables) : Prop :=
  exists new,
    optimizations after = before ++ new
    /\ Forall (fun r => jobs after !! Optimization.job_id r
                        = Some JobStatusEnum.complete) new.

Lemma turn_jobs (environment : pystr) (w : Worker) :
  kept_or_complete (jobs (db w)) (jobs (db (snd (turn environment w))))
  /\ appended_for_complete (optimizations (db w)) (db (snd (turn environment w)))
  /\ resumes (db (snd (turn environment w))) = resumes (db w)
  /\ resume_versions (db (snd (turn environment w))) = resume_versions (db w).
Proof.
  pose proof (turn_tables environment w) as Hturn.
  destruct (turn environment w) as [[task|seconds] w']; cbn [snd].
  - cbv zeta in Hturn.
    destruct Hturn as (_ & Hres & Hver
                       & [(job_id & user_id & Hj & _ & Hst & Hjobs & Hopts)
                         | (Hjobs & Hopts & _)]).
    + destruct Hst as ((job_id' & Hj' & [st Hjob]) & _).
      assert (job_id' = job_id) by congruence. subst job_id'.
      assert (Hcomplete : jobs (db w') !! job_id = Some JobStatusEnum.complete)
        by (rewrite Hjobs, lookup_alter_eq, Hjob; reflexivity).
      split; [|split; [|split; assumption]].
      * intros j. destruct (decide (j = job_id)) as [->|Hne].
        -- right. split; [eexists; exact Hjob | exact Hcomplete].
        -- left. rewrite Hjobs. apply lookup_alter_ne. congruence.
      * eexists. split; [exact Hopts|]. constructor; [exact Hcomplete | constructor].
    + split; [|split; [|split; assumption]].
      * intros j. left. rewrite Hjobs. reflexivity.
      * exists []. rewrite app_nil_r. split; [exact Hopts | constructor].
  - subst w'. split; [|split; [|split; reflexivity]].
    + intros j. left. reflexivity.
    + exists []. rewrite app_nil_r. split; [reflexivity | constructor].
Qed.

(** X13. However long the worker runs, the status of a job is what it was
    before, or [complete]: the worker never marks a job as [processing] or
    [failed], so the job of a task that failed stays as it was. No job is
    added or removed. Rows are only appended to [optimizations], each for a
    job that is [complete] at the end. Resumes and resume versions are
    never written. *)
Theorem run_worker_jobs (n : nat) (environment : pystr) (w : Worker) :
  let w' := snd (run_worker n environment w) in
  (forall job_id,
      jobs (db w') !! job_id = jobs (db w) !! job_id
      \/ (is_Some (jobs (db w) !! job_id)
          /\ jobs (db w') !! job_id = Some JobStatusEnum.complete))
  /\ (exists new,
        optimizations (db w') = optimizations (db w) ++ new
        /\ Forall (fun r => jobs (db w') !! Optimization.job_id r
                            = Some JobStatusEnum.complete) new)
  /\ resumes (db w') = resumes (db w)
  /\ resume_versions (db w') = resume_versions (db w).
Proof.
  cbv zeta. revert w. induction n as [|n IH]; intros w.
  - cbn. split; [intros j; left; reflexivity|].
    split; [exists []; rewrite app_nil_r; split; [reflexivity | constructor]|].
    split; reflexivity.
  - rewrite run_worker_step. cbn [snd].
    destruct (turn_jobs environment w) as (Hkept & (new1 & Hopts1 & Hnew1) & Hres1 & Hver1).
    set (w1 := snd (turn environment w)) in *.
    destruct (IH w1) as (Hkept2 & (new2 & Hopts2 & Hnew2) & Hres2 & Hver2).
    set (w2 := snd (run_worker n environment w1)) in *.
    split; [|split; [|split; congruence]].
    + intros j. destruct (Hkept2 j) as [E2 | [S2 E2]], (Hkept j) as [E1 | [S1 E1]].
      * left. congruence.
      * right. split; [exact S1 | congruence].
      * right. split; [rewrite <- E1; exact S2 | exact E2].
      * right. split; [exact S1 | exact E2].
    + exists (new1 ++ new2). split; [rewrite Hopts2, Hopts1, app_assoc; reflexivity|].
      apply Forall_app. split; [|exact Hnew2].
      eapply Forall_impl; [exact Hnew1|]. intros r Hr. cbn beta in *.
      destruct (Hkept2 (Optimization.job_id r)) as [E | [_ E]]; congruence.
Qed.

(** *** The order of work *)

Lemma filter_permutation {A : Type} (f : A -> bool) (l l' : list A) :
  Permutation l l' -> Permutation (List.filter f l) (List.filter f l').
Proof.
  induction 1 as [|x l l' _ IH|x y l|l l' l'' _ IH1 _ IH2]; cbn [List.filter].
  - constructor.
  - destruct (f x); [constructor|]; exact IH.
  - destruct (f x), (f y); try reflexivity. apply perm_swap.
  - etransitivity; eassumption.
Qed.

(** Settling a queued row takes it out of the queued rows and leaves the
    others. *)
Lemma queued_rows_settle (tq : gmap pystr TaskQueue.t) (k : pystr)
    (row final : TaskQueue.t) :
  tq !! k = Some row -> queued_optimize row -> ~ queued_optimize final ->
  Permutation ((k, row) :: queued_rows (<[k := final]> tq)) (queued_rows tq).
Proof.
  intros Hrow Hq Hfinal. unfold queued_rows.
  assert (Hin : is_queued_optimize (k, row) = true)
    by (apply is_queued_optimize_spec; exact Hq).
  assert (Hout : is_queued_optimize (k, final) = false).
  { destruct (is_queued_optimize (k, final)) eqn:E; [|reflexivity].
    apply is_queued_optimize_spec in E. contradiction. }
  rewrite <- (filter_permutation _ _ _ (map_to_list_delete tq k row Hrow)).
  rewrite <- (insert_delete_eq tq).
  rewrite (filter_permutation _ _ _
             (map_to_list_insert (delete k tq) k final (lookup_delete_eq tq k))).
  cbn [List.filter]. rewrite Hin, Hout. reflexivity.
Qed.

Lemma queued_rows_lookup (tq : gmap pystr TaskQueue.t) (r : pystr * TaskQueue.t) :
  In r (queued_rows tq) <-> tq !! fst r = Some (snd r) /\ queued_optimize (snd r).
Proof. apply in_queued_rows. Qed.

Lemma queued_rows_none (tq : gmap pystr TaskQueue.t) :
  (forall id' row', tq !! id' = Some row' -> ~ queued_optimize row') ->
  queued_rows tq = [].
Proof.
  intros Hnone. destruct (queued_rows tq) as [|r l] eqn:E; [reflexivity|].
  assert (Hin : In r (queued_rows tq)) by (rewrite E; left; reflexivity).
  apply queued_rows_lookup in Hin. destruct Hin as [Hr Hq].
  exfalso. exact (Hnone _ _ Hr Hq).
Qed.

(** One turn, as the schedule sees it: the queue is idle and the turn
    sleeps, or a queued row that no queued row is older than is processed
    and leaves the queued rows. *)
Lemma turn_schedule (environment : pystr) (w : Worker) :
  (queued_rows (task_queue (db w)) = []
   /\ turn environment w = (Slept (poll_interval environment), w))
  \/ (exists r,
        fst (turn environment w) = Processed (task_of r)
        /\ Permutation (r :: queued_rows (task_queue (db (snd (turn environment w)))))
             (queued_rows (task_queue (db w)))
        /\ Forall (not_younger r) (queued_rows (task_queue (db w)))).
Proof.
  pose proof (turn_spec environment w) as Hturn.
  destruct (turn environment w) as [[task|seconds] w'] eqn:Et.
  - right. destruct Hturn as (row & s & Hclaim & Hrow & Hq & Hmin & Hpay & Htq).
    pose proof (claim_spec (get_async_db (db w))) as Hspec. rewrite Hclaim in Hspec.
    destruct Hspec as (row' & Hrow' & _ & _ & _ & Hatt & _).
    cbn [get_async_db pending] in Hrow'. rewrite Hrow in Hrow'.
    inversion Hrow'; subst row'; clear Hrow'.
    exists (t_id task, row). cbn [fst snd]. split; [|split].
    + destruct task as [tid tp ta]. unfold task_of. cbn in *. congruence.
    + rewrite Htq. apply queued_rows_settle; [assumption | assumption |].
      apply settled_row_not_queued.
    + apply List.Forall_forall. intros r Hr. apply queued_rows_lookup in Hr.
      destruct Hr as [Hr Hqr]. exact (Hmin _ _ Hr Hqr).
  - left. destruct Hturn as (-> & -> & Hnone). split; [|reflexivity].
    apply queued_rows_none.
    pose proof (claim_spec (get_async_db (db w))) as Hspec. rewrite Hnone in Hspec.
    exact Hspec.
Qed.

(** X14. The schedule of the worker. Over any number of turns the worker
    processes queued [optimize] rows one per turn, each row once, always one
    that no waiting row is older than, so the rows come in the order of
    [created_at]; once no row waits it sleeps for the poll interval, turn
    after turn. The rows it has not got to are the ones still queued, and
    after as many turns as rows were queued none is. [done] are the rows
    processed, in order, and [rest] the rows not reached. *)
Theorem run_worker_schedule (n : nat) (environment : pystr) (w : Worker) :
  exists done rest : list (pystr * TaskQueue.t),
    Permutation (done ++ rest) (queued_rows (task_queue (db w)))
    /\ StronglySorted not_younger done
    /\ Forall (fun r => Forall (not_younger r) rest) done
    /\ fst (run_worker n environment w)
       = List.map (fun r => Processed (task_of r)) done
         ++ repeat (Slept (poll_interval environment)) (n - length done)
    /\ (length done = n \/ rest = [])
    /\ Permutation rest
         (queued_rows (task_queue (db (snd (run_worker n environment w)))))
    /\ ((length (queued_rows (task_queue (db w))) <= n)%nat ->
        queued_rows (task_queue (db (snd (run_worker n environment w)))) = []).
Proof.
  assert (Hmain : exists done rest : list (pystr * TaskQueue.t),
             Permutation (done ++ rest) (queued_rows (task_queue (db w)))
             /\ StronglySorted not_younger done
             /\ Forall (fun r => Forall (not_younger r) rest) done
             /\ fst (run_worker n environment w)
                = List.map (fun r => Processed (task_of r)) done
                  ++ repeat (Slept (poll_interval environment)) (n - length done)
             /\ (length done = n \/ rest = [])
             /\ Permutation rest
                  (queued_rows (task_queue (db (snd (run_worker n environment w)))))).
  { revert w. induction n as [|n IH]; intros w.
    - exists [], (queued_rows (task_queue (db w))). cbn.
      split; [reflexivity|]. split; [constructor|]. split; [constructor|].
      split; [reflexivity|]. split; [left; reflexivity | reflexivity].
    - rewrite run_worker_step. cbn [fst snd].
      destruct (turn_schedule environment w) as [[Hidle Et] | (r & Et & Hperm & Hmin)].
      + rewrite Et. cbn [fst snd].
        destruct (IH w) as (done1 & rest1 & P1 & _ & _ & T1 & _ & F1).
        rewrite Hidle in P1. apply Permutation_sym, Permutation_nil in P1.
        apply app_eq_nil in P1. destruct P1 as [-> ->].
        exists [], []. rewrite Hidle. cbn in *. rewrite T1, Nat.sub_0_r.
        split; [constructor|]. split; [constructor|]. split; [constructor|].
        split; [reflexivity|]. split; [right; reflexivity | exact F1].
      + set (w1 := snd (turn environment w)) in *.
        destruct (IH w1) as (done1 & rest1 & P1 & S1 & R1 & T1 & L1 & F1).
        assert (Hsub : forall x, In x (done1 ++ rest1) -> not_younger r x).
        { intros x Hx. rewrite List.Forall_forall in Hmin. apply Hmin.
          eapply Permutation_in; [exact Hperm|]. right.
          eapply Permutation_in; [exact P1 | exact Hx]. }
        exists (r :: done1), rest1. cbn [app length List.map].
        split; [rewrite P1; exact Hperm|].
        split.
        { constructor; [exact S1|]. apply List.Forall_forall. intros x Hx.
          apply Hsub, in_or_app. left. exact Hx. }
        split.
        { constructor; [|exact R1]. apply List.Forall_forall. intros x Hx.
          apply Hsub, in_or_app. right. exact Hx. }
        split; [rewrite Et, T1; reflexivity|].
        split; [destruct L1 as [L1 | L1]; [left; lia | right; exact L1] | exact F1]. }
  destruct Hmain as (done & rest & P & Hs & R & T & L & F).
  exists done, rest. repeat (split; [assumption|]).
  intros Hlen. apply Permutation_length in P. rewrite length_app in P.
  assert (rest = []).
  { destruct L as [L | L]; [|exact L]. destruct rest; [reflexivity|]. cbn in P. lia. }
  subst rest. apply Permutation_nil in F. exact F.
Qed.

(** X15. The rows of [task_queue] after the worker has run. A row that was
    not a queued [optimize] row is never written: a task of another type is
    never processed, a failed task is never retried, and a task that was
    left in [processing] is never taken up again. A row that was one is
    either still as it was, or has been claimed once ([attempts] one higher,
    payload, type and time of creation kept) and left in [processing], or,
    when storing raised, in [failed]. No row is added or removed. *)
Theorem run_worker_rows (n : nat) (environment : pystr) (w : Worker) (id : pystr) :
  let before := task_queue (db w) !! id in
  let after := task_queue (db (snd (run_worker n environment w))) !! id in
  after = before
  \/ exists row final,
       before = Some row /\ after = Some final
       /\ TaskQueue.status row = TaskStatusEnum.queued
       /\ TaskQueue.task_type row = TaskTypeEnum.optimize
       /\ (TaskQueue.status final = TaskStatusEnum.processing
           \/ TaskQueue.status final = TaskStatusEnum.failed)
       /\ TaskQueue.attempts final = (TaskQueue.attempts row + 1)%Z
       /\ TaskQueue.payload final = TaskQueue.payload row
       /\ TaskQueue.task_type final = TaskQueue.task_type row
       /\ TaskQueue.created_at final = TaskQueue.created_at row.
Proof.
  cbv zeta. revert w. induction n as [|n IH]; intros w; [left; reflexivity|].
  rewrite run_worker_step. cbn [snd].
  pose proof (turn_spec environment w) as Hturn.
  destruct (turn environment w) as [[task|seconds] w1]; cbn [snd].
  - destruct Hturn as (row & s & _ & Hrow & Hq & _ & _ & Htq).
    set (final := settled_row row (fst (process_task_try (t_payload task) (optimizer w) s)))
      in *.
    destruct (decide (id = t_id task)) as [->|Hne].
    + right. exists row, final.
      assert (Hw1 : task_queue (db w1) !! t_id task = Some final)
        by (rewrite Htq; apply lookup_insert_eq).
      assert (Hkept : task_queue (db (snd (run_worker n environment w1))) !! t_id task
                      = Some final).
      { destruct (IH w1) as [E | (row' & final' & E & _ & Hst & Hty & _)].
        - rewrite E. exact Hw1.
        - rewrite Hw1 in E. inversion E; subst row'.
          exfalso. apply (settled_row_not_queued row
                            (fst (process_task_try (t_payload task) (optimizer w) s))).
          split; assumption. }
      destruct Hq as [Hst Hty].
      split; [exact Hrow|]. split; [exact Hkept|].
      split; [exact Hst|]. split; [exact Hty|].
      subst final. destruct (fst (process_task_try _ _ _)); cbn; auto.
    + assert (Hsame : task_queue (db w1) !! id = task_queue (db w) !! id)
        by (rewrite Htq; apply lookup_insert_ne; congruence).
      rewrite <- Hsame. apply IH.
  - destruct Hturn as (-> & _). apply IH.
Qed.




End Loop.

(** *** On a sample queue *)

Import Stubs.

(** The payload of a task for [job]. *)
Definition payload_for (job : pystr) : Payload.t :=
  {| Payload.job_id := Some job;
     Payload.user_id := Some (u "user-1");
     Payload.resume_id := None;
     Payload.resume_version_id := None;
     Payload.resume_text := Some (u "my resume");
     Payload.job_description := Some (u "the job");
     Payload.instructions := None;
     Payload.resume_lang := Some (u "en");
     Payload.resumeLang := None;
     Payload.jd_lang := Some (u "en");
     Payload.jdLang := None;
     Payload.desired_output_lang := Some (u "en");
     Payload.desiredOutputLang := None;
     Payload.is_refinement := Some false |}.

(** A worker in front of four rows: [a], [b] and [c] are [optimize] tasks
    created at times 30, 10 and 20, of which [b] belongs to a job that does
    not exist; [d] is an [embed_resume] task created at time 5. The backend
    has answers for two runs of the pipeline and fails after them. *)
Definition busy_worker : @Worker (list (result pyval)) :=
  let s0 := get_async_db sample_tables in
  let s1 := enqueue_task (u "a") 30 TaskTypeEnum.optimize (payload_for (u "job-1")) s0 in
  let s2 := enqueue_task (u "b") 10 TaskTypeEnum.optimize (payload_for (u "job-2")) s1 in
  let s3 := enqueue_task (u "c") 20 TaskTypeEnum.optimize (payload_for (u "job-1")) s2 in
  let s4 := enqueue_task (u "d") 5 TaskTypeEnum.embed_resume (payload_for (u "job-1")) s3 in
  {| optimizer :=
       Optimizer.init (stages_then (u "# Resume") (stages_then (u "# Resume") []));
     db := committed (commit s4) |}.

(** Five turns: [b], [c] and [a] are processed in that order and the worker
    sleeps twice; [b] ends [failed], [c] and [a] stay in [processing], [d]
    is still queued; the job is complete and has two optimizations. The
    first run of the pipeline is spent on [b], whose result cannot be
    stored; the second gives [c] its score, and [a] gets the fallback
    result. *)
Example run_worker_sample :
  let run := @run_worker sample_db _ scripted frozen_clock 5 (u "development")
               busy_worker in
  let rows := task_queue (db (snd run)) in
  List.map (fun t => match t with
                     | Processed task => Some (t_id task)
                     | Slept _ => None
                     end) (fst run)
  = [Some (u "b"); Some (u "c"); Some (u "a"); None; None]
  /\ List.map (fun k => TaskQueue.status <$> rows !! k) [u "a"; u "b"; u "c"; u "d"]
     = [ Some TaskStatusEnum.processing; Some TaskStatusEnum.failed;
         Some TaskStatusEnum.processing; Some TaskStatusEnum.queued ]
  /\ jobs (db (snd run)) !! u "job-1" = Some JobStatusEnum.complete
  /\ List.map Optimization.score (optimizations (db (snd run))) = [70%Z; 0%Z].
Proof. vm_compute. repeat split. Qed.

End DispatchFacts.

(** ** The job endpoints and the worker together *)

Module JobsFacts.
Import Schemas AI Worker QueueFacts WorkerFacts OptimizerRun DispatchFacts Jobs.

(** The payload of the task that [create_job] enqueues. *)
Definition first_payload (job_id : pystr) (req : CreateJobRequest.t) : Payload.t :=
  {| Payload.job_id := Some job_id;
     Payload.user_id := Some (CreateJobRequest.user_id req);
     Payload.resume_id := None;
     Payload.resume_version_id := None;
     Payload.resume_text := Some (CreateJobRequest.resume_text req);
     Payload.job_description := Some (CreateJobRequest.job_description req);
     Payload.instructions := CreateJobRequest.custom_instructions req;
     Payload.resume_lang := Some (CreateJobRequest.resume_lang req);
     Payload.resumeLang := None;
     Payload.jd_lang := Some (CreateJobRequest.jd_lang req);
     Payload.jdLang := None;
     Payload.desired_output_lang :=
       Some (py_or_str (CreateJobRequest.desired_output_lang req)
               (CreateJobRequest.resume_lang req));
     Payload.desiredOutputLang := None;
     Payload.is_refinement := Some false |}.

(** The row of [jobs] that [create_job] writes. *)
Definition first_row (now : Z) (req : CreateJobRequest.t) : Job.t :=
  {| Job.user_id := CreateJobRequest.user_id req;
     Job.title := py_or_str (CreateJobRequest.title req) (u "Resume Optimization");
     Job.company := CreateJobRequest.company req;
     Job.job_description := CreateJobRequest.job_description req;
     Job.custom_instructions := CreateJobRequest.custom_instructions req;
     Job.resume_lang := CreateJobRequest.resume_lang req;
     Job.jd_lang := CreateJobRequest.jd_lang req;
     Job.desired_output_lang :=
       py_or_str (Some (py_or_str (CreateJobRequest.desired_output_lang req)
                          (CreateJobRequest.resume_lang req)))
         (CreateJobRequest.resume_lang req);
     Job.created_at := now |}.

(** The database after [create_job]. *)
Lemma create_job_spec (new_job_id new_task_id : pystr) (now : Z)
    (req : CreateJobRequest.t) (d : Database) :
  create_job new_job_id new_task_id now req d
  = (Ok (serialize_job {| id := new_job_id; row := first_row now req;
                          status := JobStatusEnum.queued |}),
     {| tables :=
          {| task_queue := <[new_task_id := new_row (first_payload new_job_id req) now]>
                             (task_queue (tables d));
             jobs := <[new_job_id := JobStatusEnum.queued]> (jobs (tables d));
             optimizations := optimizations (tables d);
             resumes := resumes (tables d);
             resume_versions := resume_versions (tables d) |};
        job_rows := <[new_job_id := first_row now req]> (job_rows d) |}).
Proof. reflexivity. Qed.

(** The payload of the task that [refine_job] enqueues for a job with the
    columns [job], given the resume text it found. *)
Definition refine_payload (job_id : pystr) (job : Job.t) (resume_text : pystr)
    (req : RefineJobRequest.t) : Payload.t :=
  {| Payload.job_id := Some job_id;
     Payload.user_id := Some (RefineJobRequest.user_id req);
     Payload.resume_id := None;
     Payload.resume_version_id := None;
     Payload.resume_text := Some resume_text;
     Payload.job_description := Some (Job.job_description job);
     Payload.instructions := Some (RefineJobRequest.instructions req);
     Payload.resume_lang := Some (Job.resume_lang job);
     Payload.resumeLang := None;
     Payload.jd_lang := Some (Job.jd_lang job);
     Payload.jdLang := None;
     Payload.desired_output_lang :=
       Some (py_or_str (RefineJobRequest.desired_output_lang req)
               (Job.desired_output_lang job));
     Payload.desiredOutputLang := None;
     Payload.is_refinement := Some true |}.

(** The resume text [refine_job] finds for a job: that of the first task,
    by [created_at], whose payload names the job, and the empty string when
    there is none. *)
Definition original_resume_text (job_id : pystr) (tq : gmap pystr TaskQueue.t) : pystr :=
  match first_by_created_at (List.filter (names_job job_id) (map_to_list tq)) with
  | Some (_, task_row) => default [] (Payload.resume_text (TaskQueue.payload task_row))
  | None => []
  end.

(** The job [job_id] as the user [user_id] can see it. *)
Definition visible_job (d : Database) (user_id job_id : pystr)
    (job : Job.t) (st : JobStatusEnum.t) : Prop :=
  job_rows d !! job_id = Some job
  /\ jobs (tables d) !! job_id = Some st
  /\ Job.user_id job = user_id.

Lemma alter_present {A} (m : gmap pystr A) (k : pystr) (x y : A) :
  m !! k = Some x -> alter (fun _ => y) k m = <[k := y]> m.
Proof.
  intros Hk. apply map_eq. intros j. destruct (decide (j = k)) as [->|Hne].
  - rewrite lookup_alter_eq, lookup_insert_eq, Hk. reflexivity.
  - rewrite lookup_alter_ne, lookup_insert_ne by congruence. reflexivity.
Qed.

(** [refine_job] on a job of the user that is [complete]. *)
Lemma refine_job_complete (new_task_id : pystr) (now : Z) (job_id : pystr)
    (req : RefineJobRequest.t) (d : Database) (job : Job.t) :
  visible_job d (RefineJobRequest.user_id req) job_id job JobStatusEnum.complete ->
  refine_job new_task_id now job_id req d
  = (Ok (serialize_job {| id := job_id; row := job; status := JobStatusEnum.queued |}),
     {| tables :=
          {| task_queue :=
               <[new_task_id :=
                   new_row (refine_payload job_id job
                              (original_resume_text job_id (task_queue (tables d))) req)
                     now]> (task_queue (tables d));
             jobs := <[job_id := JobStatusEnum.queued]> (jobs (tables d));
             optimizations := optimizations (tables d);
             resumes := resumes (tables d);
             resume_versions := resume_versions (tables d) |};
        job_rows := job_rows d |}).
Proof.
  intros (Hrow & Hst & Huser).
  unfold refine_job, get_job_for_user.
  cbn [get_async_db rows tx Worker.get_async_db pending].
  rewrite Hrow, Hst, bool_decide_eq_true_2 by assumption.
  cbn [status id row]. rewrite bool_decide_eq_true_2 by reflexivity. cbn [negb].
  cbn [commit repo_enqueue_task repo_update_job_status get_async_db rows tx tables
       job_rows Worker.get_async_db Worker.commit enqueue_task put_task update_job_status
       pending committed with_task_queue jobs task_queue].
  rewrite Hrow, lookup_alter_eq, Hst. cbn [fmap option_fmap option_map].
  rewrite bool_decide_eq_true_2 by assumption.
  rewrite <- (alter_present _ _ _ JobStatusEnum.queued Hst). reflexivity.
Qed.

(** When every task that names the job carries one resume text, and there
    is such a task, that is the text [refine_job] finds. *)
Lemma original_resume_text_found (job_id : pystr) (tq : gmap pystr TaskQueue.t)
    (text : pystr) :
  (exists task_id task_row,
      tq !! task_id = Some task_row
      /\ Payload.job_id (TaskQueue.payload task_row) = Some job_id) ->
  (forall task_id task_row,
      tq !! task_id = Some task_row ->
      Payload.job_id (TaskQueue.payload task_row) = Some job_id ->
      Payload.resume_text (TaskQueue.payload task_row) = Some text) ->
  original_resume_text job_id tq = text.
Proof.
  intros (task_id & task_row & Hrow & Hnames) Hall. unfold original_resume_text.
  pose proof (first_by_created_at_spec
                (List.filter (names_job job_id) (map_to_list tq))) as Hspec.
  assert (Hin : forall r, In r (List.filter (names_job job_id) (map_to_list tq))
                          <-> tq !! fst r = Some (snd r)
                              /\ Payload.job_id (TaskQueue.payload (snd r)) = Some job_id).
  { intros [k v]. rewrite List.filter_In, <- list_elem_of_In, elem_of_map_to_list.
    unfold names_job. rewrite bool_decide_eq_true. reflexivity. }
  destruct (first_by_created_at _) as [[k v]|].
  - destruct Hspec as [Hk _]. apply Hin in Hk. destruct Hk as [Hk Hn].
    cbn [fst snd] in *. rewrite (Hall _ _ Hk Hn). reflexivity.
  - exfalso.
    assert (Hmem : In (task_id, task_row)
                     (List.filter (names_job job_id) (map_to_list tq)))
      by (apply Hin; split; assumption).
    rewrite Hspec in Hmem. destruct Hmem.
Qed.


Section Loop.
Context `{UnicodeDB} {S : Type} `{BaseLLMProvider float S} `{Clock S}.

(** A turn of the worker on a queue whose only waiting row is [task_id],
    with a payload that can be stored. *)
Lemma turn_on_single (environment : pystr) (w : Worker) (task_id : pystr)
    (row : TaskQueue.t) (job_id user_id : pystr) (st : JobStatusEnum.t) :
  task_queue (db w) !! task_id = Some row -> queued_optimize row ->
  (forall id' row', task_queue (db w) !! id' = Some row' ->
     queued_optimize row' -> id' = task_id) ->
  Payload.job_id (TaskQueue.payload row) = Some job_id ->
  Payload.user_id (TaskQueue.payload row) = Some user_id ->
  Payload.resume_id (TaskQueue.payload row) = None ->
  Payload.resume_version_id (TaskQueue.payload row) = None ->
  jobs (db w) !! job_id = Some st ->
  let p := TaskQueue.payload row in
  exists w',
    turn environment w
    = (Processed {| t_id := task_id; t_payload := p;
                    t_attempts := TaskQueue.attempts row |}, w')
    /\ optimizer w' = run_state p (optimizer w)
    /\ jobs (db w') = <[job_id := JobStatusEnum.complete]> (jobs (db w))
    /\ optimizations (db w')
       = optimizations (db w)
         ++ [stored_optimization p job_id user_id
               (run_result p (optimizer w)) (run_metrics p (optimizer w))]
    /\ task_queue (db w') = <[task_id := claimed_row row]> (task_queue (db w))
    /\ resumes (db w') = resumes (db w)
    /\ resume_versions (db w') = resume_versions (db w).
Proof.
  intros Hrow Hq Honly Hj Hu Hr Hv Hjob p.
  assert (Hclaim : claim (Worker.get_async_db (db w))
                   = Some ({| t_id := task_id; t_payload := TaskQueue.payload row;
                              t_attempts := TaskQueue.attempts row |},
                           Worker.commit (put_task task_id (claimed_row row)
                                            (Worker.get_async_db (db w))))).
  { apply claim_oldest; [exact Hrow | exact Hq |].
    intros id' row' Hl Hq' Hne. exfalso. apply Hne. exact (Honly _ _ Hl Hq'). }
  pose proof (turn_spec environment w) as Hspec.
  pose proof (turn_tables environment w) as Htab.
  destruct (turn environment w) as [[task|seconds] w'].
  - destruct Hspec as (row' & s & Hclaim' & Hrow' & _ & _ & _ & Htq).
    rewrite Hclaim in Hclaim'. inversion Hclaim'; subst task s; clear Hclaim'.
    cbn [t_id t_payload] in *. rewrite Hrow in Hrow'. inversion Hrow'; subst row'.
    fold p in Htab, Htq. cbv zeta in Htab.
    destruct Htab as (Hopt & Hres & Hver & [(j & us & Hj' & Hu' & _ & Hjobs & Hopts)
                                            | (_ & _ & Hno)]).
    + assert (j = job_id) by (unfold p in Hj'; congruence).
      assert (us = user_id) by (unfold p in Hu'; congruence). subst j us.
      exists w'. split; [reflexivity|]. split; [exact Hopt|].
      split; [rewrite Hjobs; eapply alter_present; exact Hjob|].
      split; [exact Hopts|]. split; [|split; assumption].
      rewrite Htq. f_equal.
      destruct (process_task_try_cases p (optimizer w)
                  (Worker.commit (put_task task_id (claimed_row row)
                                    (Worker.get_async_db (db w)))))
        as [(j & us & _ & _ & _ & _ & _ & Htry) | (e & Htry & He)].
      * cbv zeta in Htry. rewrite Htry. reflexivity.
      * exfalso. unfold p in He. rewrite Hj, Hu, Hr, Hv in He.
        destruct He as [_ [E | [E | E]]]; cbn in E; try discriminate.
        rewrite Hjob in E. discriminate.
    + exfalso. apply Hno. unfold storable, p. rewrite Hj, Hu, Hr, Hv.
      split; [exists job_id; split; [reflexivity | eexists; exact Hjob]|].
      split; [eexists; reflexivity|]. split; reflexivity.
  - destruct Hspec as (_ & _ & Hnone). rewrite Hclaim in Hnone. discriminate.
Qed.



End Loop.

(** *** On a sample database *)

Import Stubs.

(** A database with the one job of [sample_tables], no task, and a user
    who asks for an Arabic rewrite of an English resume. *)
Definition sample_database : Database :=
  {| tables := sample_tables;
     job_rows :=
       {[ u "job-1" :=
            {| Job.user_id := u "user-1";
               Job.title := u "Resume Optimization";
               Job.company := None;
               Job.job_description := u "the job";
               Job.custom_instructions := None;
               Job.resume_lang := u "en";
               Job.jd_lang := u "en";
               Job.desired_output_lang := u "en";
               Job.created_at := 1 |} ]} |}.

Definition sample_request : CreateJobRequest.t :=
  {| CreateJobRequest.user_id := u "user-2";
     CreateJobRequest.title := None;
     CreateJobRequest.company := Some (u "ACME");
     CreateJobRequest.resume_text := u "my resume";
     CreateJobRequest.job_description := u "data engineer";
     CreateJobRequest.custom_instructions := None;
     CreateJobRequest.resume_lang := u "en";
     CreateJobRequest.jd_lang := u "en";
     CreateJobRequest.desired_output_lang := None |}.

Definition sample_refinement : RefineJobRequest.t :=
  {| RefineJobRequest.user_id := u "user-2";
     RefineJobRequest.instructions := u "shorter";
     RefineJobRequest.desired_output_lang := Some (u "ar") |}.

Lemma sample_database_idle (id : pystr) (row : TaskQueue.t) :
  task_queue (tables sample_database) !! id = Some row -> False.
Proof. cbn. rewrite lookup_empty. discriminate. Qed.



(** What the three requests answer on the sample database: the refinement
    of a job that is still queued is refused with 400, that of a job of
    another user with 404. *)
Example refine_job_refused :
  let d1 := snd (create_job (u "job-2") (u "task-2") 50 sample_request
                   sample_database) in
  fst (refine_job (u "task-3") 60 (u "job-2") sample_refinement d1)
  = HTTPException 400 (u "Can only refine completed jobs", u "ERROR")
  /\ fst (refine_job (u "task-3") 60 (u "job-1") sample_refinement d1)
     = HTTPException 404 (u "Job not found", u "ERROR")
  /\ snd (refine_job (u "task-3") 60 (u "job-2") sample_refinement d1) = d1.
Proof. vm_compute. repeat split. Qed.

End JobsFacts.

(** ** A backend that is down *)

Module OutageFacts.
Import Schemas AI Optimizer OptimizerRun Worker QueueFacts WorkerFacts DispatchFacts.

Section Loop.
Context `{UnicodeDB} {S : Type} `{BaseLLMProvider float S} `{Clock S}.

(** A run against a backend that raises on every call. *)
Lemma run_against_failing_backend (p : Payload.t) (o : Optimizer.ResumeOptimizer) :
  (forall req s, raised (fst (generate_response req s)) = true) ->
  run_result p o = fallback_result p empty_entities empty_alignment
  /\ invalid_json_attempts (run_metrics p o) = 9%Z
  /\ total_attempts (run_metrics p o) = 3%Z
  /\ last_run_valid (run_metrics p o) = false.
Proof.
  intros Hfail.
  destruct (optimize_spec _ _ _ _ _ (run_eq p o))
    as (l1 & l2 & l3 & l4 & e & a & c & Hcalls & Hgen & L1 & L2 & L3
        & Hinv & Htot & Hvalid & _ & Hfin).
  rewrite !Forall_app in Hgen. destruct Hgen as (G1 & G2 & G3 & _).
  destruct (retry_log_rejected _ _ _ _ _ L1 G1) as (-> & N1 & R1); [intros; apply Hfail|].
  destruct (retry_log_rejected _ _ _ _ _ L2 G2) as (-> & N2 & R2); [intros; apply Hfail|].
  destruct (retry_log_rejected _ _ _ _ _ L3 G3) as (-> & N3 & R3); [intros; apply Hfail|].
  destruct Hfin as [_ ->].
  rewrite Hinv, Htot, Hvalid, R1, R2, R3, N3. repeat split.
Qed.

(** X19. A backend that is down does not make a task fail. When every
    generation call raises (as the calls of a provider without an API key
    do), a turn of the worker on a task whose payload is storable still
    sets the job to [complete] and stores an optimization for it: score 0,
    the resume text of the payload as preview, the one change-log entry
    that records the failure, and metrics that say the run was not valid
    after nine invalid attempts. *)
Theorem turn_with_failing_backend (environment : pystr) (w : Worker) :
  (forall req s, raised (fst (generate_response req s)) = true) ->
  match turn environment w with
  | (Processed task, w') =>
      let p := t_payload task in
      storable p (db w) ->
      exists job_id stored_row,
        Payload.job_id p = Some job_id
        /\ jobs (db w') !! job_id = Some JobStatusEnum.complete
        /\ optimizations (db w') = optimizations (db w) ++ [stored_row]
        /\ Optimization.job_id stored_row = job_id
        /\ Optimization.score stored_row = 0%Z
        /\ Optimization.preview_md stored_row = default [] (Payload.resume_text p)
        /\ Optimization.change_log stored_row
           = [u "Error: Failed to parse LLM response after retries"]
        /\ last_run_valid (snd (Optimization.report_json stored_row)) = false
        /\ invalid_json_attempts (snd (Optimization.report_json stored_row)) = 9%Z
  | (Slept _, w') => w' = w
  end.
Proof.
  intros Hfail. pose proof (turn_tables environment w) as Hturn.
  destruct (turn environment w) as [[task|seconds] w']; [|exact Hturn].
  cbv zeta in *. intros Hstorable.
  destruct Hturn as (_ & _ & _ & [(job_id & user_id & Hj & Hu & _ & Hjobs & Hopts)
                                 | (_ & _ & Hno)]); [|contradiction].
  destruct Hstorable as ((j & Hj' & [st Hst]) & _).
  assert (j = job_id) by congruence. subst j.
  destruct (run_against_failing_backend (t_payload task) (optimizer w) Hfail)
    as (Hres & Hinv & _ & Hvalid).
  eexists job_id, _. split; [exact Hj|].
  split; [rewrite Hjobs, lookup_alter_eq, Hst; reflexivity|].
  split; [exact Hopts|].
  cbn [stored_optimization Optimization.job_id Optimization.score
       Optimization.preview_md Optimization.change_log Optimization.report_json snd].
  rewrite Hres, Hinv, Hvalid. repeat split.
Qed.

End Loop.

(** X19 on the stub whose every call fails validation. *)
Lemma turn_with_failing_backend_stub :
  match @turn sample_db unit Stubs.always_invalid Stubs.frozen_clock (u "production")
          {| optimizer := Optimizer.init tt; db := Stubs.tables_with_task (u "job-1") |} with
  | (Processed task, w') =>
      let p := t_payload task in
      storable p (Stubs.tables_with_task (u "job-1")) ->
      exists job_id stored_row,
        Payload.job_id p = Some job_id
        /\ jobs (db w') !! job_id = Some JobStatusEnum.complete
        /\ optimizations (db w')
           = optimizations (Stubs.tables_with_task (u "job-1")) ++ [stored_row]
        /\ Optimization.job_id stored_row = job_id
        /\ Optimization.score stored_row = 0%Z
        /\ Optimization.preview_md stored_row = default [] (Payload.resume_text p)
        /\ Optimization.change_log stored_row
           = [u "Error: Failed to parse LLM response after retries"]
        /\ last_run_valid (snd (Optimization.report_json stored_row)) = false
        /\ invalid_json_attempts (snd (Optimization.report_json stored_row)) = 9%Z
  | (Slept _, w') =>
      w' = {| optimizer := Optimizer.init tt; db := Stubs.tables_with_task (u "job-1") |}
  end.
Proof.
  apply (@turn_with_failing_backend sample_db unit Stubs.always_invalid
           Stubs.frozen_clock (u "production")
           {| optimizer := Optimizer.init tt; db := Stubs.tables_with_task (u "job-1") |}).
  intros req s. reflexivity.
Defined.

(** That turn does process the task, and its payload is storable. *)
Example outage_sample :
  match @turn sample_db unit Stubs.always_invalid Stubs.frozen_clock (u "production")
          {| optimizer := Optimizer.init tt; db := Stubs.tables_with_task (u "job-1") |} with
  | (Processed task, w') =>
      t_id task = u "task-1"
      /\ jobs (db w') !! u "job-1" = Some JobStatusEnum.complete
      /\ List.map Optimization.score (optimizations (db w')) = [0%Z]
      /\ (TaskQueue.status <$> task_queue (db w') !! u "task-1")
         = Some TaskStatusEnum.processing
  | (Slept _, _) => False
  end.
Proof. vm_compute. repeat split. Qed.

End OutageFacts.

(** ** Listing jobs *)

Module ListingFacts.
Import Worker Jobs JobsFacts.

Lemma Z_ltb_asymmetric : SortFacts.asymmetric Z.ltb.
Proof. intros x y Hlt. apply Z.ltb_lt in Hlt. apply Z.ltb_ge. lia. Qed.

Lemma Z_ltb_negatively_transitive : SortFacts.negatively_transitive Z.ltb.
Proof.
  intros x y z Hxy Hyz. apply Z.ltb_ge in Hxy, Hyz. apply Z.ltb_ge. lia.
Qed.

Lemma in_job_objects (s : AsyncSession) (job : JobObject) :
  In job (job_objects s)
  <-> rows s !! id job = Some (row job)
      /\ jobs (pending (tx s)) !! id job = Some (status job).
Proof.
  unfold job_objects. rewrite <- list_elem_of_In, list_elem_of_omap. split.
  - intros ([k r] & Hin & Hsome). apply elem_of_map_to_list in Hin.
    cbn [fst snd] in Hsome.
    destruct (jobs (pending (tx s)) !! k) as [st|] eqn:Hst; [|discriminate].
    inversion Hsome; subst. cbn [id row status]. split; assumption.
  - intros [Hrow Hst]. exists (id job, row job). split.
    + apply elem_of_map_to_list. exact Hrow.
    + cbn [fst snd]. rewrite Hst. destruct job. reflexivity.
Qed.

Lemma job_objects_ids (s : AsyncSession) : NoDup (List.map id (job_objects s)).
Proof.
  unfold job_objects.
  pose proof (NoDup_fst_map_to_list (rows s)) as Hnodup.
  induction (map_to_list (rows s)) as [|[k r] l IH]; [constructor|].
  cbn [omap list_omap fst snd] in *. inversion Hnodup as [|? ? Hk Hl]; subst.
  destruct (jobs (pending (tx s)) !! k) as [st|]; [|apply IH; exact Hl].
  cbn [List.map id]. constructor; [|apply IH; exact Hl].
  intros Hin. apply Hk. clear -Hin.
  apply list_elem_of_fmap in Hin. destruct Hin as (job & -> & Hin).
  apply list_elem_of_omap in Hin. destruct Hin as ([k' r'] & Hin & Hsome).
  cbn [fst snd] in Hsome.
  destruct (jobs (pending (tx s)) !! k'); [|discriminate].
  inversion Hsome; subst. cbn [id].
  apply list_elem_of_fmap. exists (k', r'). split; [reflexivity | exact Hin].
Qed.


End ListingFacts.

(** ** Reading a result back *)

Module ResultFacts.
Import Schemas AI Worker QueueFacts WorkerFacts OptimizerRun DispatchFacts Jobs JobsFacts
       Results.

Lemma created_at_asymmetric : SortFacts.asymmetric Z.ltb.
Proof. intros x y Hlt. apply Z.ltb_lt in Hlt. apply Z.ltb_ge. lia. Qed.

Lemma created_at_negatively_transitive : SortFacts.negatively_transitive Z.ltb.
Proof.
  intros x y z Hxy Hyz. apply Z.ltb_ge in Hxy, Hyz. apply Z.ltb_ge. lia.
Qed.

(** The optimizations of a job and a user. *)
Definition of_job (job_id user_id : pystr) (opt : OptimizationObject) : Prop :=
  Optimization.job_id (o_row opt) = job_id
  /\ Optimization.user_id (o_row opt) = user_id.

(** [get_latest_optimization_for_job] finds an optimization of the job and
    the user that no other one of them is younger than, and finds none
    only when there is none. *)
Lemma get_latest_optimization_for_job_spec (stamps : list (pystr * Z))
    (job_id user_id : pystr) (s : AsyncSession) :
  match get_latest_optimization_for_job stamps job_id user_id s with
  | Some opt =>
      In opt (optimization_objects stamps s)
      /\ of_job job_id user_id opt
      /\ forall opt', In opt' (optimization_objects stamps s) ->
           of_job job_id user_id opt' ->
           (o_created_at opt' <= o_created_at opt)%Z
  | None =>
      forall opt, In opt (optimization_objects stamps s) -> ~ of_job job_id user_id opt
  end.
Proof.
  unfold get_latest_optimization_for_job.
  set (f := fun opt => bool_decide (Optimization.job_id (o_row opt) = job_id)
                       && bool_decide (Optimization.user_id (o_row opt) = user_id)).
  set (own := List.filter f (optimization_objects stamps s)).
  assert (Hown : forall opt, In opt own
                   <-> In opt (optimization_objects stamps s) /\ of_job job_id user_id opt).
  { intros opt. unfold own, f, of_job.
    rewrite List.filter_In, andb_true_iff, !bool_decide_eq_true. reflexivity. }
  pose proof (SortFacts.list_sort_perm Z.ltb o_created_at true own) as Hperm.
  pose proof (SortFacts.list_sort_descending Z.ltb o_created_at own
                created_at_asymmetric created_at_negatively_transitive) as Hsorted.
  destruct (list_sort Z.ltb o_created_at true own) as [|opt l] eqn:Hl; cbn [head].
  - intros opt Hin Hof. apply Permutation_nil in Hperm.
    assert (Hin' : In opt own) by (apply Hown; split; assumption).
    rewrite Hperm in Hin'. exact Hin'.
  - assert (Hin : In opt own)
      by (apply (Permutation_in _ Hperm); left; reflexivity).
    apply Hown in Hin. destruct Hin as [Hin Hof].
    split; [exact Hin|]. split; [exact Hof|].
    intros opt' Hin' Hof'.
    assert (Hin'' : In opt' (opt :: l)).
    { apply (Permutation_in _ (Permutation_sym Hperm)), Hown. split; assumption. }
    destruct Hin'' as [->|Hin'']; [lia|].
    unfold SortFacts.descending in Hsorted.
    apply StronglySorted_inv in Hsorted. destruct Hsorted as [_ Hall].
    rewrite List.Forall_forall in Hall. specialize (Hall _ Hin'').
    apply Z.ltb_ge in Hall. exact Hall.
Qed.


Lemma combine_snoc {A B} (l : list A) (l' : list B) (a : A) (b : B) :
  length l = length l' ->
  combine (l ++ [a]) (l' ++ [b]) = combine l l' ++ [(a, b)].
Proof.
  revert l'. induction l as [|x l IH]; intros [|y l'] Hlen; try discriminate.
  - reflexivity.
  - cbn. f_equal. apply IH. cbn in Hlen. congruence.
Qed.

(** The latest optimization, when the row inserted last is one of the job
    and the user and is younger than every other one. *)
Lemma get_latest_optimization_for_job_newest (stamps : list (pystr * Z))
    (new_id : pystr) (now : Z) (job_id user_id : pystr) (s : AsyncSession)
    (old : list Optimization.t) (row : Optimization.t) :
  optimizations (pending (tx s)) = old ++ [row] ->
  length stamps = length old ->
  Forall (fun stamp => (snd stamp < now)%Z) stamps ->
  Optimization.job_id row = job_id -> Optimization.user_id row = user_id ->
  get_latest_optimization_for_job (stamps ++ [(new_id, now)]) job_id user_id s
  = Some {| o_id := new_id; o_created_at := now; o_row := row |}.
Proof.
  intros Hopts Hlen Hold Hjob Huser.
  pose proof (get_latest_optimization_for_job_spec (stamps ++ [(new_id, now)])
                job_id user_id s) as Hlatest.
  assert (Hobjects : optimization_objects (stamps ++ [(new_id, now)]) s
                     = List.map (fun sr : (pystr * Z) * Optimization.t =>
                                   {| o_id := fst (fst sr); o_created_at := snd (fst sr);
                                      o_row := snd sr |}) (combine stamps old)
                       ++ [ {| o_id := new_id; o_created_at := now; o_row := row |} ]).
  { unfold optimization_objects. rewrite Hopts, combine_snoc by exact Hlen.
    rewrite List.map_app. reflexivity. }
  rewrite Hobjects in Hlatest.
  assert (Hnew : of_job job_id user_id {| o_id := new_id; o_created_at := now; o_row := row |})
    by (split; assumption).
  assert (Holder : forall opt,
            In opt (List.map (fun sr : (pystr * Z) * Optimization.t =>
                                {| o_id := fst (fst sr); o_created_at := snd (fst sr);
                                   o_row := snd sr |}) (combine stamps old)) ->
            (o_created_at opt < now)%Z).
  { intros opt Hin. apply in_map_iff in Hin. destruct Hin as ([stamp r] & <- & Hin).
    apply in_combine_l in Hin. rewrite List.Forall_forall in Hold.
    exact (Hold _ Hin). }
  destruct (get_latest_optimization_for_job _ job_id user_id s) as [opt|].
  - destruct Hlatest as (Hin & _ & Hmax).
    apply in_app_iff in Hin. destruct Hin as [Hin|[<-|[]]]; [|reflexivity].
    exfalso. specialize (Holder _ Hin).
    specialize (Hmax {| o_id := new_id; o_created_at := now; o_row := row |}).
    cbn [o_created_at] in Hmax.
    assert ((now <= o_created_at opt)%Z)
      by (apply Hmax; [apply in_app_iff; right; left; reflexivity | exact Hnew]).
    lia.
  - exfalso. apply (Hlatest {| o_id := new_id; o_created_at := now; o_row := row |}).
    + apply in_app_iff. right. left. reflexivity.
    + exact Hnew.
Qed.

Section Loop.
Context `{UnicodeDB} {S : Type} `{BaseLLMProvider float S} `{Clock S}.


End Loop.
(** *** On the sample database *)

Import Stubs.


(** What the owner and another user read on the sample database, before
    and after the turn of the worker. *)
Example get_job_sample :
  let o := Optimizer.init (stages_then (u "# Resume") []) in
  let d := snd (create_job (u "job-2") (u "task-2") 50 sample_request sample_database) in
  let w' := snd (@turn sample_db _ scripted frozen_clock (u "production")
                   {| optimizer := o; db := tables d |}) in
  let d' := {| tables := db w'; job_rows := job_rows d |} in
  let stamps := [(u "optimization-1", 70%Z)] in
  match fst (get_job [] (u "job-2") (u "user-2") d) with
  | Ok (job, None) => JobResponse.status job = JobStatusEnum.queued
  | _ => False
  end
  /\ match fst (get_job stamps (u "job-2") (u "user-2") d') with
     | Ok (job, Some r) =>
         JobResponse.status job = JobStatusEnum.complete
         /\ ResultDict.score r = 70%Z
         /\ ResultDict.previewMarkdown r = u "# Resume"
     | _ => False
     end
  /\ fst (get_job stamps (u "job-2") (u "user-1") d')
     = HTTPException 404 (u "Job not found", u "ERROR").
Proof. vm_compute. repeat split. Qed.

End ResultFacts.

(** ** The clean-up of the providers *)

Module ProviderFacts.
Import AI Providers.

(** *** Strings *)

(** [old] occurs in [s]. *)
Definition occurs (old s : pystr) : Prop := exists a b, s = a ++ old ++ b.

Lemma startswith_spec (s prefix : pystr) :
  startswith s prefix = true <-> exists t, s = prefix ++ t.
Proof.
  revert s. induction prefix as [|p prefix IH]; intros s; cbn [startswith].
  - split; [intros _; exists s; reflexivity | reflexivity].
  - destruct s as [|c s].
    + split; [discriminate | intros (t & Ht); discriminate].
    + rewrite andb_true_iff, N.eqb_eq, IH. split.
      * intros (-> & t & ->). exists t. reflexivity.
      * intros (t & Ht). inversion Ht; subst. split; [reflexivity|]. exists t. reflexivity.
Qed.

Lemma startswith_app (prefix t : pystr) : startswith (prefix ++ t) prefix = true.
Proof. apply startswith_spec. exists t. reflexivity. Qed.

Lemma endswith_app (t suffix : pystr) : endswith (t ++ suffix) suffix = true.
Proof. unfold endswith. rewrite rev_app_distr. apply startswith_app. Qed.

Lemma replace_from_skip (k : nat) (old new s : pystr) :
  replace_from k old new s = replace_from 0 old new (drop k s).
Proof.
  revert k. induction s as [|c s IH]; intros [|k]; try reflexivity.
  cbn [replace_from drop]. apply IH.
Qed.

(** At an occurrence. *)
Lemma replace_from_match (o : N) (old new t : pystr) :
  replace_from 0 (o :: old) new ((o :: old) ++ t)
  = new ++ replace_from 0 (o :: old) new t.
Proof.
  cbn [app replace_from].
  change (o :: old ++ t) with ((o :: old) ++ t). rewrite startswith_app.
  rewrite replace_from_skip.
  replace (length (o :: old) - 1)%nat with (length old) by (cbn [length]; lia).
  rewrite drop_app_length. reflexivity.
Qed.

(** Over characters other than the first one of [old]. *)
Lemma replace_from_other (o : N) (old new a t : pystr) :
  Forall (fun c => c <> o) a ->
  replace_from 0 (o :: old) new (a ++ t) = a ++ replace_from 0 (o :: old) new t.
Proof.
  induction 1 as [|c a Hc _ IH]; [reflexivity|].
  cbn [app replace_from startswith].
  apply N.eqb_neq in Hc. rewrite Hc. cbn [andb]. rewrite IH. reflexivity.
Qed.

Lemma replace_from_absent (o : N) (old new s : pystr) :
  ~ occurs (o :: old) s -> replace_from 0 (o :: old) new s = s.
Proof.
  induction s as [|c s IH]; intros Hno; [reflexivity|].
  cbn [replace_from].
  destruct (startswith (c :: s) (o :: old)) eqn:Hstart.
  - exfalso. apply startswith_spec in Hstart. destruct Hstart as (t & Ht).
    apply Hno. exists [], t. exact Ht.
  - rewrite IH; [reflexivity|]. intros (a & b & ->). apply Hno.
    exists (c :: a), b. reflexivity.
Qed.

Section Strip.
Context `{UnicodeDB}.

Definition blank (ws : pystr) : Prop := Forall (fun c => isspace c = true) ws.

Lemma lstrip_suffix (s : pystr) : exists a, s = a ++ lstrip s.
Proof.
  induction s as [|c s (a & IH)]; [exists []; reflexivity|].
  cbn [lstrip]. destruct (isspace c).
  - exists (c :: a). cbn [app]. rewrite <- IH. reflexivity.
  - exists []. reflexivity.
Qed.

Lemma rstrip_prefix (s : pystr) : exists b, s = rstrip s ++ b.
Proof.
  unfold rstrip. destruct (lstrip_suffix (rev s)) as (a & Ha).
  exists (rev a). rewrite <- rev_app_distr, <- Ha, rev_involutive. reflexivity.
Qed.

Lemma occurs_strip (old s : pystr) : occurs old (strip s) -> occurs old s.
Proof.
  intros (a & b & Hs). unfold strip in Hs.
  destruct (lstrip_suffix s) as (a0 & Ha0).
  destruct (rstrip_prefix (lstrip s)) as (b0 & Hb0).
  exists (a0 ++ a), (b ++ b0).
  rewrite Ha0 at 1. rewrite Hb0 at 1. rewrite Hs, <- !app_assoc. reflexivity.
Qed.

Lemma lstrip_app_blank (ws s : pystr) : blank ws -> lstrip (ws ++ s) = lstrip s.
Proof.
  induction 1 as [|c ws Hc _ IH]; [reflexivity|].
  cbn [app lstrip]. rewrite Hc. exact IH.
Qed.

Lemma lstrip_cons (c : N) (s : pystr) : isspace c = false -> lstrip (c :: s) = c :: s.
Proof. intros Hc. cbn [lstrip]. rewrite Hc. reflexivity. Qed.

Lemma rstrip_app_blank (s ws : pystr) : blank ws -> rstrip (s ++ ws) = rstrip s.
Proof.
  intros Hws. unfold rstrip. rewrite rev_app_distr, lstrip_app_blank; [reflexivity|].
  apply Forall_rev. exact Hws.
Qed.

Lemma rstrip_snoc (s : pystr) (c : N) :
  isspace c = false -> rstrip (s ++ [c]) = s ++ [c].
Proof.
  intros Hc. unfold rstrip. rewrite rev_app_distr. cbn [rev app].
  rewrite lstrip_cons by exact Hc.
  change (rev (c :: rev s)) with (rev (rev s) ++ [c]). rewrite rev_involutive.
  reflexivity.
Qed.

Lemma lstrip_length (s : pystr) : (length (lstrip s) <= length s)%nat.
Proof.
  destruct (lstrip_suffix s) as (a & Ha). rewrite Ha at 2. rewrite length_app. lia.
Qed.

Lemma rstrip_length (s : pystr) : (length (rstrip s) <= length s)%nat.
Proof.
  destruct (rstrip_prefix s) as (b & Hb). rewrite Hb at 2. rewrite length_app. lia.
Qed.

(** A text that [strip] leaves as it is has no white space at its ends. *)
Lemma stripped_ends (s : pystr) : strip s = s -> lstrip s = s /\ rstrip s = s.
Proof.
  intros Hs. unfold strip in Hs.
  assert (Hl : lstrip s = s).
  { destruct (lstrip_suffix s) as (a & Ha).
    assert (Hlen : length a = 0%nat).
    { pose proof (rstrip_length (lstrip s)) as Hr. rewrite Hs in Hr.
      apply (f_equal (@length N)) in Ha. rewrite length_app in Ha. lia. }
    destruct a; [|discriminate]. symmetry. exact Ha. }
  split; [exact Hl|]. rewrite Hl in Hs. exact Hs.
Qed.

Lemma stripped_head (c : N) (s : pystr) : lstrip (c :: s) = c :: s -> isspace c = false.
Proof.
  intros Hl. cbn [lstrip] in Hl. destruct (isspace c); [|reflexivity].
  pose proof (lstrip_length s) as Hlen. rewrite Hl in Hlen. cbn [length] in Hlen. lia.
Qed.

(** White space around a stripped text is what [strip] removes. *)
Lemma strip_padded (ws1 body ws2 : pystr) :
  blank ws1 -> blank ws2 -> strip body = body -> strip (ws1 ++ body ++ ws2) = body.
Proof.
  intros H1 H2 Hbody. destruct body as [|c body].
  - apply OptimizerText.strip_blank. apply Forall_app. split; assumption.
  - destruct (stripped_ends _ Hbody) as [Hl Hr].
    unfold strip. rewrite lstrip_app_blank by exact H1.
    cbn [app]. rewrite lstrip_cons by exact (stripped_head _ _ Hl).
    change (c :: body ++ ws2) with ((c :: body) ++ ws2).
    rewrite rstrip_app_blank by exact H2. exact Hr.
Qed.

Lemma blank_other (c : N) (ws : pystr) :
  isspace c = false -> blank ws -> Forall (fun x => x <> c) ws.
Proof.
  intros Hc Hws. induction Hws as [|x ws Hx _ IH]; constructor; [|exact IH].
  intros ->. congruence.
Qed.

End Strip.

(** *** Code fences *)

(** The character of a code fence. *)
Definition backtick : N := 96.

Lemma fence_json : u "```json" = [backtick; backtick; backtick; 106; 115; 111; 110]%N.
Proof. reflexivity. Qed.

Lemma fence : u "```" = [backtick; backtick; backtick].
Proof. reflexivity. Qed.

(** The number of backticks a text starts with. *)
Fixpoint lead (s : pystr) : nat :=
  match s with
  | c :: rest => if N.eqb c backtick then Datatypes.S (lead rest) else 0%nat
  | [] => 0%nat
  end.

Lemma startswith_fence (s : pystr) :
  startswith s (u "```") = false <-> (lead s < 3)%nat.
Proof.
  rewrite fence.
  destruct s as [|c1 [|c2 [|c3 s]]]; cbn [startswith lead];
    repeat match goal with
           | |- context [N.eqb ?c backtick] => destruct (N.eqb c backtick)
           end; cbn [andb]; split; intros; try lia; try reflexivity; try discriminate.
Qed.

Abbreviation without_fences s := (replace_from 0 (u "```") [] s).

(** Fewer than three backticks at the start are kept. *)
Lemma lead_without_fences (s : pystr) :
  (lead s < 3)%nat -> lead (without_fences s) = lead s.
Proof.
  induction s as [|c s IH]; intros Hlead; [reflexivity|].
  cbn [replace_from].
  pose proof (proj2 (startswith_fence (c :: s)) Hlead) as Hstart. rewrite Hstart.
  cbn [lead] in *. destruct (N.eqb c backtick); [|reflexivity].
  rewrite IH by lia. reflexivity.
Qed.

Lemma occurs_lead (s : pystr) :
  occurs (u "```") s ->
  (3 <= lead s)%nat
  \/ exists c rest, s = c :: rest /\ occurs (u "```") rest.
Proof.
  intros ([|c a] & b & ->).
  - left. rewrite fence. cbn. lia.
  - right. exists c, (a ++ u "```" ++ b). split; [reflexivity|].
    exists a, b. reflexivity.
Qed.

(** No fence is left after all of them were replaced. *)
Lemma replace_from_fences (k : nat) (s : pystr) :
  ~ occurs (u "```") (replace_from k (u "```") [] s).
Proof.
  revert k. induction s as [|c s IH]; intros k.
  - destruct k; cbn [replace_from]; intros ([|? ?] & ? & Hocc); discriminate.
  - destruct k as [|k]; cbn [replace_from]; [|apply IH].
    destruct (startswith (c :: s) (u "```")) eqn:Hstart; [apply IH|].
    intros Hocc. apply occurs_lead in Hocc.
    destruct Hocc as [Hlead | (c' & rest & Heq & Hocc)].
    + apply startswith_fence in Hstart.
      cbn [lead] in Hlead, Hstart. destruct (N.eqb c backtick); [|lia].
      rewrite lead_without_fences in Hlead by lia. lia.
    + inversion Heq; subst. exact (IH 0%nat Hocc).
Qed.

Abbreviation without_tags s := (replace_from 0 (u "```json") [] s).

Lemma replace_fence_json (s : pystr) : replace s (u "```json") [] = without_tags s.
Proof. reflexivity. Qed.

Lemma replace_fence (s : pystr) : replace s (u "```") [] = without_fences s.
Proof. reflexivity. Qed.

Lemma without_tags_other (a t : pystr) :
  Forall (fun c => c <> backtick) a -> without_tags (a ++ t) = a ++ without_tags t.
Proof. rewrite fence_json. apply replace_from_other. Qed.

Lemma without_tags_match (t : pystr) : without_tags (u "```json" ++ t) = without_tags t.
Proof. rewrite fence_json. apply (replace_from_match backtick _ []). Qed.

Lemma without_fences_other (a t : pystr) :
  Forall (fun c => c <> backtick) a -> without_fences (a ++ t) = a ++ without_fences t.
Proof. rewrite fence. apply replace_from_other. Qed.

Lemma without_fences_match (t : pystr) : without_fences (u "```" ++ t) = without_fences t.
Proof. rewrite fence. apply (replace_from_match backtick _ []). Qed.

Section Cleaning.
Context `{UnicodeDB} `{Pydantic} {F S : Type} `{AsyncAnthropic S} `{GenaiClient F S}.

(** A response that wraps [body] in a fence tagged [json], with white
    space around the fence and around the body. *)
Definition fenced (ws0 ws1 body ws2 ws3 : pystr) : pystr :=
  ws0 ++ u "```json" ++ ws1 ++ body ++ ws2 ++ u "```" ++ ws3.

Lemma head_not_backtick (ws1 body ws2 : pystr) :
  isspace backtick = false -> blank ws1 -> blank ws2 ->
  startswith body (u "`") = false ->
  lead (ws1 ++ body ++ ws2) = 0%nat.
Proof.
  intros Htick B1 B2 Hbody.
  assert (Hblank : forall ws t, blank ws -> lead t = 0%nat -> lead (ws ++ t) = 0%nat).
  { intros ws t Hws Ht. destruct Hws as [|c ws Hc _]; [exact Ht|].
    cbn [app lead]. destruct (N.eqb c backtick) eqn:Hcb; [|reflexivity].
    apply N.eqb_eq in Hcb. congruence. }
  apply Hblank; [exact B1|].
  destruct body as [|c body].
  - cbn [app]. rewrite <- (app_nil_r ws2). apply Hblank; [exact B2 | reflexivity].
  - cbn [app lead]. change (u "`") with [backtick] in Hbody.
    cbn [startswith] in Hbody. rewrite andb_true_r in Hbody.
    rewrite Hbody. reflexivity.
Qed.

Lemma anthropic_cleaned_text_fenced (ws0 ws1 body ws2 ws3 : pystr) :
  isspace backtick = false ->
  blank ws0 -> blank ws1 -> blank ws2 -> blank ws3 ->
  strip body = body -> startswith body (u "`") = false ->
  anthropic_cleaned_text (fenced ws0 ws1 body ws2 ws3) = body.
Proof.
  intros Htick B0 B1 B2 B3 Hbody Hstart.
  set (M := ws1 ++ body ++ ws2).
  assert (Hstrip : strip (fenced ws0 ws1 body ws2 ws3) = u "```json" ++ M ++ u "```").
  { unfold fenced, strip. rewrite lstrip_app_blank by exact B0.
    rewrite fence_json at 1. cbn [app]. rewrite lstrip_cons by exact Htick.
    replace (backtick :: backtick :: backtick :: 106%N :: 115%N :: 111%N :: 110%N
               :: ws1 ++ body ++ ws2 ++ u "```" ++ ws3)
      with (((u "```json" ++ M ++ [backtick; backtick]) ++ [backtick]) ++ ws3)
      by (unfold M; rewrite fence, fence_json, <- !app_assoc; reflexivity).
    rewrite rstrip_app_blank by exact B3.
    rewrite rstrip_snoc by exact Htick.
    rewrite fence, <- !app_assoc. reflexivity. }
  unfold anthropic_cleaned_text. cbv zeta. rewrite Hstrip.
  rewrite startswith_app.
  replace (drop 7 (u "```json" ++ M ++ u "```")) with (M ++ u "```")
    by (symmetry; apply (drop_app_length (u "```json"))).
  pose proof (head_not_backtick ws1 body ws2 Htick B1 B2 Hstart) as Hlead. fold M in Hlead.
  destruct M as [|c M'] eqn:HM.
  - (* nothing between the fences *)
    cbn [app].
    assert (body = []) as ->.
    { unfold M in HM. apply app_eq_nil in HM. destruct HM as [_ HM].
      apply app_eq_nil in HM. apply HM. }
    reflexivity.
  - assert (Hno : startswith ((c :: M') ++ u "```") (u "```") = false).
    { cbn [lead] in Hlead. rewrite fence. cbn [app startswith].
      destruct (N.eqb c backtick); [discriminate | reflexivity]. }
    rewrite Hno, endswith_app.
    replace (take (length ((c :: M') ++ u "```") - 3) ((c :: M') ++ u "```"))
      with (c :: M').
    2:{ rewrite length_app. change (length (u "```")) with 3%nat.
        rewrite Nat.add_sub. symmetry. apply take_app_length. }
    rewrite <- HM. unfold M. apply strip_padded; assumption.
Qed.

Lemma gemini_cleaned_text_fenced (ws0 ws1 body ws2 ws3 : pystr) :
  isspace backtick = false -> isspace 106%N = false ->
  blank ws0 -> blank ws1 -> blank ws2 -> blank ws3 ->
  strip body = body -> Forall (fun c => c <> backtick) body ->
  gemini_cleaned_text (fenced ws0 ws1 body ws2 ws3) = body.
Proof.
  intros Htick Hj B0 B1 B2 B3 Hbody Hplain.
  pose proof (blank_other _ _ Htick B0) as T0.
  pose proof (blank_other _ _ Htick B3) as T3.
  set (M := ws1 ++ body ++ ws2).
  assert (TM : Forall (fun c => c <> backtick) M).
  { apply Forall_app. split; [exact (blank_other _ _ Htick B1)|].
    apply Forall_app. split; [exact Hplain | exact (blank_other _ _ Htick B2)]. }
  assert (Hclose : without_tags (u "```" ++ ws3) = u "```" ++ ws3).
  { rewrite fence, fence_json. cbn [app replace_from startswith].
    rewrite !N.eqb_refl. cbn [andb].
    destruct ws3 as [|c ws3]; [reflexivity|].
    inversion B3 as [|? ? Hc B3']; subst. inversion T3 as [|? ? Hc' T3']; subst.
    assert (N.eqb c 106 = false) as ->
      by (apply N.eqb_neq; intros ->; congruence).
    assert (N.eqb c backtick = false) as -> by (apply N.eqb_neq; exact Hc').
    cbn [andb]. do 3 f_equal.
    rewrite <- (app_nil_r (c :: ws3)) at 1.
    rewrite (replace_from_other backtick _ [] (c :: ws3) [] T3).
    cbn [replace_from]. apply app_nil_r. }
  unfold gemini_cleaned_text. rewrite replace_fence_json, replace_fence.
  unfold fenced.
  replace (ws1 ++ body ++ ws2 ++ u "```" ++ ws3) with (M ++ u "```" ++ ws3)
    by (unfold M; rewrite <- !app_assoc; reflexivity).
  rewrite (without_tags_other ws0) by exact T0.
  rewrite without_tags_match.
  rewrite (without_tags_other M) by exact TM.
  rewrite Hclose.
  rewrite (without_fences_other ws0) by exact T0.
  rewrite (without_fences_other M) by exact TM.
  rewrite without_fences_match.
  rewrite <- (app_nil_r ws3) at 1.
  rewrite (without_fences_other ws3) by exact T3.
  cbn [replace_from]. rewrite app_nil_r.
  replace (ws0 ++ M ++ ws3) with ((ws0 ++ ws1) ++ body ++ (ws2 ++ ws3))
    by (unfold M; rewrite <- !app_assoc; reflexivity).
  apply strip_padded; [apply Forall_app; split; assumption
                      | apply Forall_app; split; assumption | exact Hbody].
Qed.

(** The system prompt that reaches Claude when a schema is asked for. *)
Definition with_schema (system_prompt : pystr) (t : schema) : pystr :=
  system_prompt ++ u "

You MUST respond with valid JSON matching this schema:
" ++ model_json_schema t ++ u "

Respond ONLY with the JSON object, no additional text.".

(** X23. Claude may wrap its JSON in a fence. When a schema is asked for,
    the client gets the system prompt with the schema and the instruction
    appended, and if the first block of its answer is a stripped text
    [body] (one that does not itself start with a backtick) inside a fence
    tagged [json], with any white space around the fence and inside it,
    then [generate_response] gives what [model_validate_json] makes of
    [body] alone. *)
Theorem anthropic_generate_response_fenced (self : AnthropicProvider)
    (api_key : pystr) (req : request) (t : schema) (s s' : S)
    (ws0 ws1 body ws2 ws3 : pystr) (blocks : list pystr) :
  isspace backtick = false ->
  blank ws0 -> blank ws1 -> blank ws2 -> blank ws3 ->
  strip body = body -> startswith body (u "`") = false ->
  a_client self = Some api_key ->
  json_schema req = Some t ->
  messages_create api_key (a_model_name self) 4096 (with_schema (system_prompt req) t)
    (user_prompt req) (temperature req) s
  = (Returns (fenced ws0 ws1 body ws2 ws3 :: blocks), s') ->
  anthropic_generate_response self req s = (model_validate_json t body, s').
Proof.
  intros Htick B0 B1 B2 B3 Hbody Hstart Hclient Hschema Hcall.
  unfold anthropic_generate_response. rewrite Hclient, Hschema.
  fold (with_schema (system_prompt req) t). rewrite Hcall.
  rewrite anthropic_cleaned_text_fenced by assumption. reflexivity.
Qed.

(** X24. The manual parse of [GeminiProvider]. When a schema is asked
    for and the response has no usable [parsed], a text that holds a
    stripped [body] without backticks inside a fence tagged [json], with
    any white space around the fence and inside it, is validated as [body]
    alone. *)
Theorem gemini_generate_response_fenced (self : GeminiProvider)
    (api_key : pystr) (req : request) (t : schema) (s s' : S)
    (ws0 ws1 body ws2 ws3 : pystr) :
  isspace backtick = false -> isspace 106%N = false ->
  blank ws0 -> blank ws1 -> blank ws2 -> blank ws3 ->
  strip body = body -> Forall (fun c => c <> backtick) body ->
  g_client self = Some api_key ->
  json_schema req = Some t ->
  generate_content api_key (g_model_name self) (user_prompt req)
    {| c_temperature := temperature req;
       system_instruction := system_prompt req;
       response_mime_type := u "application/json";
       response_schema := Some t |} s
  = (Returns {| text := Some (fenced ws0 ws1 body ws2 ws3); parsed := None |}, s') ->
  gemini_generate_response self req s = (model_validate_json t body, s').
Proof.
  intros Htick Hj B0 B1 B2 B3 Hbody Hplain Hclient Hschema Hcall.
  unfold gemini_generate_response. rewrite Hclient, Hschema.
  cbn [is_not_None]. rewrite Hcall. cbn [text parsed].
  rewrite gemini_cleaned_text_fenced by assumption. reflexivity.
Qed.

(** X25. The manual parse of [GeminiProvider] takes the fences out
    wherever they are: no three backticks in a row are left in the text it
    validates, whatever the response was; a response without three
    backticks in a row is only stripped. *)
Theorem gemini_cleaned_text_fences (text_response : pystr) :
  ~ occurs (u "```") (gemini_cleaned_text text_response)
  /\ (~ occurs (u "```") text_response ->
      gemini_cleaned_text text_response = strip text_response).
Proof.
  unfold gemini_cleaned_text. rewrite replace_fence_json, replace_fence. split.
  - intros Hocc. apply occurs_strip in Hocc. exact (replace_from_fences 0 _ Hocc).
  - intros Hno.
    assert (Htag : without_tags text_response = text_response).
    { rewrite fence_json. apply replace_from_absent. intros (a & b & ->).
      apply Hno. exists a, (u "json" ++ b). reflexivity. }
    rewrite Htag. rewrite fence at 1. rewrite replace_from_absent; [reflexivity|].
    rewrite <- fence. exact Hno.
Qed.

(** X26. The clean-up of [AnthropicProvider] only takes from the two ends
    of the response: the text it validates is a part of the response in
    one piece. *)
Theorem anthropic_cleaned_text_piece (text_response : pystr) :
  occurs (anthropic_cleaned_text text_response) text_response.
Proof.
  assert (Htrans : forall a b c : pystr, occurs a b -> occurs b c -> occurs a c).
  { intros a b c (x & y & ->) (x' & y' & ->). exists (x' ++ x), (y ++ y').
    rewrite <- !app_assoc. reflexivity. }
  assert (Hrefl : forall a : pystr, occurs a a).
  { intros a. exists [], []. rewrite app_nil_r. reflexivity. }
  assert (Hstrip : forall a : pystr, occurs (strip a) a).
  { intros a. apply occurs_strip, Hrefl. }
  assert (Hdrop : forall n (a : pystr), occurs (drop n a) a).
  { intros n a. exists (take n a), []. rewrite app_nil_r, take_drop. reflexivity. }
  assert (Htake : forall n (a : pystr), occurs (take n a) a).
  { intros n a. exists [], (drop n a). cbn [app]. rewrite take_drop. reflexivity. }
  unfold anthropic_cleaned_text. cbv zeta.
  eapply Htrans; [apply Hstrip|].
  eapply Htrans; [|apply Hstrip].
  set (c0 := strip text_response).
  set (c1 := if startswith c0 (u "```json") then drop 7 c0 else c0).
  set (c2 := if startswith c1 (u "```") then drop 3 c1 else c1).
  assert (P1 : occurs c1 c0) by (unfold c1; destruct (startswith c0 _); auto).
  assert (P2 : occurs c2 c1) by (unfold c2; destruct (startswith c1 _); auto).
  assert (P3 : occurs (if endswith c2 (u "```")
                       then take (length c2 - 3) c2 else c2) c2)
    by (destruct (endswith c2 _); auto).
  eauto.
Qed.

End Cleaning.

(** *** Without an API key *)

Section Keyless.
Context `{UnicodeDB} `{Pydantic} {S : Type} `{AsyncAnthropic S} `{GenaiClient float S}
        `{Clock S}.
Import Schemas Optimizer OptimizerRun.

(** The pipeline falls back on every run and gets no embedding. *)
Definition falls_back (llm : BaseLLMProvider float S) (p : Payload.t)
    (o : Optimizer.ResumeOptimizer) : Prop :=
  @run_result _ _ llm _ p o = fallback_result p empty_entities empty_alignment
  /\ invalid_json_attempts (@run_metrics _ _ llm _ p o) = 9%Z
  /\ total_attempts (@run_metrics _ _ llm _ p o) = 3%Z
  /\ last_run_valid (@run_metrics _ _ llm _ p o) = false
  /\ forall text s, @get_embedding _ _ llm text s = (Returns [], s).

(** X27. A provider that was built without a key makes the pipeline fall
    back without a sign. With an empty key in the settings,
    [GeminiProvider()] and [AnthropicProvider()] raise on every generation
    call, so every run of [optimize] ends with the fallback result (score
    0, the resume text as preview) after nine invalid attempts, three of
    them counted as attempts; and every embedding is the empty list. *)
Theorem keyless_providers_fall_back (settings : Settings) (p : Payload.t)
    (o : Optimizer.ResumeOptimizer) :
  GEMINI_API_KEY settings = [] ->
  ANTHROPIC_API_KEY settings = [] ->
  falls_back (gemini (GeminiProvider_init settings None)) p o
  /\ falls_back (anthropic (AnthropicProvider_init settings None)) p o.
Proof.
  intros Hgemini Hanthropic. unfold falls_back.
  assert (Hg : forall req s,
            raised (fst (gemini_generate_response (GeminiProvider_init settings None)
                           req s)) = true).
  { intros req s. unfold gemini_generate_response, GeminiProvider_init.
    cbn. rewrite Hgemini. reflexivity. }
  assert (Ha : forall req s,
            raised (fst (anthropic_generate_response
                           (AnthropicProvider_init settings None) req s)) = true).
  { intros req s. unfold anthropic_generate_response, AnthropicProvider_init.
    cbn. rewrite Hanthropic. reflexivity. }
  split.
  - destruct (@OutageFacts.run_against_failing_backend _ _
                (gemini (GeminiProvider_init settings None)) _ p o Hg)
      as (Hres & Hinv & Htot & Hvalid).
    repeat (split; [assumption|]).
    intros text s. cbn. unfold gemini_get_embedding, GeminiProvider_init.
    cbn. rewrite Hgemini. reflexivity.
  - destruct (@OutageFacts.run_against_failing_backend _ _
                (anthropic (AnthropicProvider_init settings None)) _ p o Ha)
      as (Hres & Hinv & Htot & Hvalid).
    repeat (split; [assumption|]).
    intros text s. reflexivity.
Qed.

End Keyless.
(** *** On stubs *)

Section Samples.
Import Schemas Optimizer OptimizerRun Stubs.

(** Validation that hands the text back, and a schema dump. *)
Definition echo : Pydantic :=
  {| model_json_schema _ := u "{}";
     model_validate_json _ text := Returns (VStr text) |}.

Definition sample_body : pystr := u "{" ++ dq ++ u "skills" ++ dq ++ u ": []}".

Definition sample_reply : pystr :=
  fenced [10%N] [10%N] sample_body [10%N] [32%N; 10%N].

(** A client of Claude that answers every message with [sample_reply]. *)
Definition claude_stub : AsyncAnthropic unit :=
  {| messages_create _ _ _ _ _ _ s := (Returns [sample_reply], s) |}.

(** A client of Gemini that answers with [sample_reply] and parses
    nothing, and has no embeddings. *)
Definition gemini_stub : GenaiClient float unit :=
  {| generate_content _ _ _ _ s :=
       (Returns {| text := Some sample_reply; parsed := None |}, s);
     embed_content _ _ _ s := (Raises (Exception (u "no embeddings")), s) |}.

Definition no_keys : Settings := {| GEMINI_API_KEY := []; ANTHROPIC_API_KEY := [] |}.

Definition sample_request : request :=
  {| system_prompt := u "You are a resume parser.";
     user_prompt := u "my resume";
     json_schema := Some ExtractedEntitiesT;
     temperature := 0.3 |}.

#[local] Existing Instance sample_db.
#[local] Existing Instance echo.
#[local] Existing Instance claude_stub.
#[local] Existing Instance gemini_stub.
#[local] Existing Instance frozen_clock.

Lemma sample_blank : blank [10%N] /\ blank [32%N; 10%N].
Proof. split; repeat constructor. Qed.

(** X23 on the stub. *)
Lemma anthropic_generate_response_fenced_stub :
  anthropic_generate_response (AnthropicProvider_init no_keys (Some (u "key")))
    sample_request tt
  = (model_validate_json ExtractedEntitiesT sample_body, tt).
Proof.
  apply (anthropic_generate_response_fenced
           (AnthropicProvider_init no_keys (Some (u "key"))) (u "key") sample_request
           ExtractedEntitiesT tt tt [10%N] [10%N] sample_body [10%N] [32%N; 10%N] []);
    try reflexivity; try apply sample_blank.
Defined.

(** X24 on the stub. *)
Lemma gemini_generate_response_fenced_stub :
  gemini_generate_response (GeminiProvider_init no_keys (Some (u "key")))
    sample_request tt
  = (model_validate_json ExtractedEntitiesT sample_body, tt).
Proof.
  apply (gemini_generate_response_fenced
           (GeminiProvider_init no_keys (Some (u "key"))) (u "key") sample_request
           ExtractedEntitiesT tt tt [10%N] [10%N] sample_body [10%N] [32%N; 10%N]);
    try reflexivity; try apply sample_blank.
  repeat constructor; discriminate.
Defined.

(** X27 on the stubs. *)
Lemma keyless_providers_fall_back_stub :
  falls_back (gemini (GeminiProvider_init no_keys None))
    (Stubs.payload (u "my resume") (u "the job") None None) (Optimizer.init tt)
  /\ falls_back (anthropic (AnthropicProvider_init no_keys None))
       (Stubs.payload (u "my resume") (u "the job") None None) (Optimizer.init tt).
Proof.
  apply (keyless_providers_fall_back no_keys); reflexivity.
Defined.

(** What the two clean-ups make of a JSON text that holds a code block:
    Claude's keeps it, Gemini's manual parse takes its fences out. *)
Example cleaned_code_block :
  let json := u "{" ++ dq ++ u "preview_markdown" ++ dq ++ u ": " ++ dq
              ++ u "```sh ls```" ++ dq ++ u "}" in
  anthropic_cleaned_text json = json
  /\ gemini_cleaned_text json
     = u "{" ++ dq ++ u "preview_markdown" ++ dq ++ u ": " ++ dq
       ++ u "sh ls" ++ dq ++ u "}".
Proof. vm_compute. split; reflexivity. Qed.

End Samples.
End ProviderFacts.
